(** * Transcription pipeline (Transcribe/transcribe.py): model and properties

    A shallow embedding of [transcribe.py]: Python strings are lists of
    code points, floats are IEEE-754 binary64 values ([spec_float] with the
    binary64 operations of the Standard Library), fallible code returns a
    [Result], and [main] runs in a state-and-exception monad over a world
    made of a file system and a trace of the actions performed.  The
    external decoder (ffmpeg) and the recognition model (faster_whisper)
    are oracles, taken as section variables. *)

From Stdlib Require Import ZArith NArith List Bool Lia Ascii String.
From Stdlib Require Import SpecFloat FloatOps.
From stdpp Require Import base option list gmap.

Open Scope Z_scope.

(** ** Python values *)

(** A Python [str]: the sequence of its Unicode code points. *)
Abbreviation pystr := (list N).

(** A Python [float]: a binary64 value. *)
Abbreviation pyfloat := spec_float.

(** The exceptions the program can end with. [ModelError] stands for
    whatever the recognition library raises. *)
Inductive Exn :=
| FileNotFoundError
| CalledProcessError
| ValueError
| OverflowError
| OSError
| UnicodeEncodeError
| ModelError.

Inductive Result (A : Type) :=
| Ok (a : A)
| Raise (e : Exn).
Arguments Ok {A} a.
Arguments Raise {A} e.

#[global] Instance Result_ret : MRet Result := fun _ a => Ok a.
#[global] Instance Result_bind : MBind Result := fun _ _ f r =>
  match r with
  | Ok a => f a
  | Raise e => Raise e
  end.

Module Str.

(** Code points of the ASCII characters the program writes. *)
Definition LF : N := 10%N.
Definition SPACE : N := 32%N.
Definition QUOTE : N := 34%N.
Definition COMMA : N := 44%N.
Definition MINUS : N := 45%N.
Definition DOT : N := 46%N.
Definition SLASH : N := 47%N.
Definition ZERO : N := 48%N.
Definition COLON : N := 58%N.

(** A literal of the source, from its ASCII spelling. *)
Fixpoint lit (s : String.string) : pystr :=
  match s with
  | String.EmptyString => []
  | String.String c s' => Ascii.N_of_ascii c :: lit s'
  end.

(** [str.isspace] on one code point (CPython's [_PyUnicode_IsWhitespace]). *)
Definition isspace (c : N) : bool :=
  ((9 <=? c) && (c <=? 13) || (28 <=? c) && (c <=? 32)
   || (c =? 133) || (c =? 160) || (c =? 5760)
   || (8192 <=? c) && (c <=? 8202)
   || (c =? 8232) || (c =? 8233) || (c =? 8239) || (c =? 8287)
   || (c =? 12288))%N.

Fixpoint lstrip (s : pystr) : pystr :=
  match s with
  | [] => []
  | c :: s' => if isspace c then lstrip s' else s
  end.

Definition rstrip (s : pystr) : pystr := rev (lstrip (rev s)).

(** [s.strip()] *)
Definition strip (s : pystr) : pystr := rstrip (lstrip s).

(** [sep.join(items)] *)
Fixpoint join (sep : pystr) (items : list pystr) : pystr :=
  match items with
  | [] => []
  | [x] => x
  | x :: rest => x ++ sep ++ join sep rest
  end.

(** [s.split(sep)] for a one-character separator. *)
Fixpoint split (sep : N) (s : pystr) : list pystr :=
  match s with
  | [] => [[]]
  | c :: s' =>
      if (c =? sep)%N then [] :: split sep s'
      else match split sep s' with
           | [] => [[c]]
           | w :: ws => (c :: w) :: ws
           end
  end.

(** Truthiness of a string: non-empty. *)
Definition truthy (s : pystr) : bool :=
  match s with [] => false | _ => true end.

(** Decimal digits of a natural number, most significant first:
    the last digit is pushed in front of [acc] and the quotient by ten
    goes on, for at most [fuel] digits. *)
Fixpoint digits_aux (fuel : nat) (n : N) (acc : pystr) : pystr :=
  match fuel with
  | O => acc
  | S fuel' =>
      let acc' := (48 + n mod 10)%N :: acc in
      if (n <? 10)%N then acc' else digits_aux fuel' (n / 10)%N acc'
  end.

Definition digits (n : N) : pystr :=
  digits_aux (S (N.to_nat (N.log2 n))) n [].

(** [str(i)] for an integer. *)
Definition of_int (z : Z) : pystr :=
  if z <? 0 then MINUS :: digits (Z.abs_N z) else digits (Z.abs_N z).

(** [format(z, "0<width>d")]: sign first, then zeros up to [width]
    characters in all, then the digits. *)
Definition format_0d (width : nat) (z : Z) : pystr :=
  let d := digits (Z.abs_N z) in
  if z <? 0
  then MINUS :: replicate (width - 1 - length d) ZERO ++ d
  else replicate (width - length d) ZERO ++ d.

(** Reading a run of decimal digits back ([int(s)] on digits). *)
Definition isdigit (c : N) : bool := ((48 <=? c) && (c <=? 57))%N.

Definition to_N_acc (acc : N) (s : pystr) : N :=
  fold_left (fun a c => (10 * a + (c - 48))%N) s acc.

Definition to_N (s : pystr) : N := to_N_acc 0%N s.

(** [s] is a run of decimal digits that reads as [v]. *)
Definition decimal (s : pystr) (v : Z) : Prop :=
  Forall (fun c => isdigit c = true) s /\ Z.of_N (to_N s) = v.

End Str.

(** ** Floats *)

Module Float.

Definition zero : pyfloat := S754_zero false.

(** [1000] converted to a float, as [seconds * 1000] does. *)
Definition f1000 : pyfloat := S754_finite false 8796093022208000 (-43).

(** Binary64 arithmetic: 53 bits of precision, exponents up to 1024. *)
Definition mul : pyfloat -> pyfloat -> pyfloat := SFmul prec emax.
Definition sub : pyfloat -> pyfloat -> pyfloat := SFsub prec emax.

(** [a < b], [a <= b]; false when either side is NaN. *)
Definition ltb : pyfloat -> pyfloat -> bool := SFltb.
Definition leb : pyfloat -> pyfloat -> bool := SFleb.

(** [max(a, b)] of the builtin: [b] if [b > a], otherwise [a]. *)
Definition max (a b : pyfloat) : pyfloat := if ltb a b then b else a.

(** Truthiness of a float: non-zero (NaN is true). *)
Definition truthy (x : pyfloat) : bool :=
  match x with S754_zero _ => false | _ => true end.

Definition is_nan (x : pyfloat) : bool :=
  match x with S754_nan => true | _ => false end.

(** Neither NaN nor an infinity. *)
Definition is_finite (x : pyfloat) : bool :=
  match x with S754_zero _ | S754_finite _ _ _ => true | _ => false end.

(** [m * 2^e] rounded to the nearest integer, ties to the even one. *)
Definition round_half_even (m : positive) (e : Z) : Z :=
  if 0 <=? e then Z.pos m * 2 ^ e
  else
    let d := 2 ^ (- e) in
    let q := Z.pos m / d in
    let r := Z.pos m mod d in
    match 2 * r ?= d with
    | Lt => q
    | Gt => q + 1
    | Eq => if Z.even q then q else q + 1
    end.

(** [int(round(x))]: [round] of a float without [ndigits] returns the
    nearest integer, ties to even, and raises on NaN and infinities. *)
Definition round (x : pyfloat) : Result Z :=
  match x with
  | S754_zero _ => Ok 0
  | S754_infinity _ => Raise OverflowError
  | S754_nan => Raise ValueError
  | S754_finite s m e =>
      let v := round_half_even m e in
      Ok (if s then - v else v)
  end.

(** A key that orders the floats other than NaN: the class (minus
    infinity, negative, zero, positive, plus infinity), then exponent
    and mantissa, negated for negative values. *)
Definition key (x : pyfloat) : option (Z * Z * Z) :=
  match x with
  | S754_nan => None
  | S754_zero _ => Some (0, 0, 0)
  | S754_infinity true => Some (-2, 0, 0)
  | S754_infinity false => Some (2, 0, 0)
  | S754_finite true m e => Some (-1, - e, - Z.pos m)
  | S754_finite false m e => Some (1, e, Z.pos m)
  end.

Definition key_le (k1 k2 : Z * Z * Z) : Prop :=
  match k1, k2 with
  | (a1, b1, c1), (a2, b2, c2) =>
      a1 < a2 \/ (a1 = a2 /\ (b1 < b2 \/ (b1 = b2 /\ c1 <= c2)))
  end.

Definition le (x y : pyfloat) : Prop :=
  match key x, key y with
  | Some k1, Some k2 => key_le k1 k2
  | _, _ => False
  end.

End Float.

(** ** Subtitle timestamps *)

(** [format_srt_time], line by line. *)
Definition format_srt_time (seconds : pyfloat) : Result pystr :=
  ms ← Float.round (Float.mul seconds Float.f1000);
  let h := ms / 3600000 in
  let ms := ms mod 3600000 in
  let m := ms / 60000 in
  let ms := ms mod 60000 in
  let s := ms / 1000 in
  let ms := ms mod 1000 in
  Ok (Str.format_0d 2 h ++ [Str.COLON] ++ Str.format_0d 2 m ++ [Str.COLON]
      ++ Str.format_0d 2 s ++ [Str.COMMA] ++ Str.format_0d 3 ms).

(** The timestamps of the specification's scenario: the binary64 values
    nearest to 3.456, 9.999, 4.0, 10.0 and 5.0. *)
Definition f3_456 : pyfloat := S754_finite false 7782220156096217 (-51).
Definition f9_999 : pyfloat := S754_finite false 5628936584259699 (-49).
Definition f4_0 : pyfloat := S754_finite false 4503599627370496 (-50).
Definition f10_0 : pyfloat := S754_finite false 5629499534213120 (-49).
Definition f5_0 : pyfloat := S754_finite false 5629499534213120 (-50).

(** 360000.0 (one hundred hours), the float nearest to 0.0005, and the
    float nearest to 1e306. *)
Definition f360000_0 : pyfloat := S754_finite false 6184752906240000 (-34).
Definition f0_0005 : pyfloat := S754_finite false 4611686018427388 (-63).
Definition f1e306 : pyfloat := S754_finite false 6413338752028713 964.

(** ** Paths (pathlib, POSIX flavour) *)

(** An absolute, resolved path: its components below the root. *)
Abbreviation Path := (list pystr).

Module PurePath.

(** [path.name]: the final component, empty for the root. *)
Definition name (p : Path) : pystr := List.last p [].

(** [s.rfind(c)], searching [s] from offset [i]: the highest index of
    [c], or -1. *)
Fixpoint rfind_from (c : N) (s : pystr) (i : Z) : Z :=
  match s with
  | [] => -1
  | x :: s' =>
      let r := rfind_from c s' (i + 1) in
      if r =? -1 then (if (x =? c)%N then i else -1) else r
  end.

Definition rfind (c : N) (s : pystr) : Z := rfind_from c s 0.

(** [path.suffix]: the final component from its last dot on, unless
    that dot is its first or its last character. *)
Definition suffix_of_name (nm : pystr) : pystr :=
  let i := rfind Str.DOT nm in
  if (0 <? i) && (i <? Z.of_nat (length nm) - 1)
  then drop (Z.to_nat i) nm
  else [].

Definition suffix (p : Path) : pystr := suffix_of_name (name p).

(** [path.stem]: the final component without its suffix. *)
Definition stem_of_name (nm : pystr) : pystr :=
  let i := rfind Str.DOT nm in
  if (0 <? i) && (i <? Z.of_nat (length nm) - 1)
  then take (Z.to_nat i) nm
  else nm.

Definition stem (p : Path) : pystr := stem_of_name (name p).

Definition startswith_dot (s : pystr) : bool :=
  match s with
  | c :: _ => (c =? Str.DOT)%N
  | [] => false
  end.

(** [path.with_suffix(suffix)] *)
Definition with_suffix (p : Path) (suffix : pystr) : Result Path :=
  if existsb (N.eqb Str.SLASH) suffix then Raise ValueError
  else if Str.truthy suffix && negb (startswith_dot suffix)
          || bool_decide (suffix = [Str.DOT])
  then Raise ValueError
  else
    let name := name p in
    if negb (Str.truthy name) then Raise ValueError
    else
      let old_suffix := suffix_of_name name in
      let name :=
        if negb (Str.truthy old_suffix) then name ++ suffix
        else take (length name - length old_suffix) name ++ suffix in
      Ok (removelast p ++ [name]).

(** The suffixes [with_suffix] accepts, other than the empty one. *)
Definition valid_suffix (sfx : pystr) : bool :=
  negb (existsb (N.eqb Str.SLASH) sfx) && startswith_dot sfx
  && negb (bool_decide (sfx = [Str.DOT])).

(** [str(path)] *)
Definition to_str (p : Path) : pystr :=
  Str.SLASH :: Str.join [Str.SLASH] p.

End PurePath.

(** ** Data model *)

(** A segment as the recognition model yields it. *)
Record Segment := mkSegment {
  start : pyfloat;
  end_ : pyfloat;
  text : pystr
}.

(** The summary metadata returned with the segment generator. *)
Record TranscriptionInfo := mkInfo {
  info_language : option pystr;
  info_duration : option pyfloat
}.

(** The lazy segment sequence: a generator that yields segments and then
    either is exhausted or raises. *)
Inductive Stream :=
| Stop
| Fail
| Yield (seg : Segment) (rest : Stream).

(** The parsed command line; [audio] is the path after
    [expanduser().resolve()]. *)
Record Args := mkArgs {
  audio : Path;
  model : pystr;
  language : option pystr;
  keep_wav : bool
}.

(** ** JSON values and [json.dumps(data, ensure_ascii=False, indent=2)] *)

Set Warnings "-register-all".
Inductive JSON :=
| JNull
| JFloat (x : pyfloat)
| JStr (s : pystr)
| JList (items : list JSON)
| JDict (items : list (pystr * JSON)).

Module Json.

Definition hexdigit (n : N) : N :=
  (if n <? 10 then 48 + n else 87 + n)%N.

(** One character of a string under [ESCAPE] / [ESCAPE_DCT]. *)
Definition escape_char (c : N) : pystr :=
  (if c =? 92 then [92; 92]
   else if c =? 34 then [92; 34]
   else if c =? 8 then [92; 98]
   else if c =? 12 then [92; 102]
   else if c =? 10 then [92; 110]
   else if c =? 13 then [92; 114]
   else if c =? 9 then [92; 116]
   else if c <? 32 then [92; 117; 48; 48; hexdigit (c / 16); hexdigit (c mod 16)]
   else [c])%N.

(** [encode_basestring]: the string in quotes, nothing above U+001F
    escaped but the quote and the backslash. *)
Definition encode_basestring (s : pystr) : pystr :=
  Str.QUOTE :: flat_map escape_char s ++ [Str.QUOTE].

Section Dumps.
(** [float.__repr__] on finite floats. *)
Variable float_repr : pyfloat -> pystr.

Definition floatstr (x : pyfloat) : pystr :=
  match x with
  | S754_nan => Str.lit "NaN"
  | S754_infinity false => Str.lit "Infinity"
  | S754_infinity true => Str.lit "-Infinity"
  | _ => float_repr x
  end.

Definition newline_indent (level : nat) : pystr :=
  Str.LF :: List.concat (List.repeat (Str.lit "  ") level).

Fixpoint iterencode (level : nat) (o : JSON) : pystr :=
  match o with
  | JNull => Str.lit "null"
  | JFloat x => floatstr x
  | JStr s => encode_basestring s
  | JList [] => Str.lit "[]"
  | JList items =>
      Str.lit "[" ++ newline_indent (S level)
      ++ Str.join (Str.COMMA :: newline_indent (S level))
           (List.map (iterencode (S level)) items)
      ++ newline_indent level ++ Str.lit "]"
  | JDict [] => Str.lit "{}"
  | JDict items =>
      Str.lit "{" ++ newline_indent (S level)
      ++ Str.join (Str.COMMA :: newline_indent (S level))
           (List.map (fun kv =>
                        match kv with
                        | (k, v) => encode_basestring k ++ Str.lit ": "
                                    ++ iterencode (S level) v
                        end) items)
      ++ newline_indent level ++ Str.lit "}"
  end.

Definition dumps (o : JSON) : pystr := iterencode 0 o.
End Dumps.

(** [d[key]] on a JSON object. *)
Fixpoint get (key : pystr) (items : list (pystr * JSON)) : option JSON :=
  match items with
  | [] => None
  | (k, v) :: rest => if bool_decide (k = key) then Some v else get key rest
  end.

End Json.

(** ** The world: files and observable actions *)

Inductive Event :=
| EvRun (cmd : list pystr)
| EvLoadModel (name : pystr)
| EvTranscribe (wav : pystr) (beam_size : Z) (vad_filter : bool)
    (lang : option pystr)
| EvProgress (n : pyfloat)
| EvWrite (p : Path) (data : pystr)
| EvPrint (line : pystr).

(** The files, by path, and the actions performed so far, oldest first. *)
Record World := mkWorld {
  fs : gmap Path pystr;
  trace : list Event
}.

(** Computations of [main]: they read and change the world, and end with
    a value or an exception. *)
Definition M (A : Type) : Type := World -> World * Result A.

#[global] Instance M_ret : MRet M := fun _ a w => (w, Ok a).
#[global] Instance M_bind : MBind M := fun _ _ f m w =>
  match m w with
  | (w', Ok a) => f a w'
  | (w', Raise e) => (w', Raise e)
  end.

Definition raise {A} (e : Exn) : M A := fun w => (w, Raise e).

Definition lift {A} (r : Result A) : M A := fun w => (w, r).

Definition emit (ev : Event) : M unit := fun w =>
  (mkWorld (fs w) (trace w ++ [ev]), Ok tt).

(** [path.exists()] *)
Definition path_exists (p : Path) : M bool := fun w =>
  (w, Ok (bool_decide (is_Some (fs w !! p)))).

(** [print(line)] *)
Definition print (line : pystr) : M unit := emit (EvPrint line).

(** [str(x)] of an optional string: [None] prints as its name. *)
Definition str_of_option (o : option pystr) : pystr :=
  match o with
  | Some s => s
  | None => Str.lit "None"
  end.

(** How a call of [write_text] fails.  Either [open] raises and the
    file is untouched; or the file was opened, which empties it, and
    then the text cannot be encoded as UTF-8 (a lone surrogate), or
    writing raises with [written] in the file. *)
Inductive WriteFault :=
| OpenFails
| EncodeFails
| WriteFails (written : pystr).

(** What a failed [write_text] leaves and raises: no write is recorded. *)
Definition failed_write (fault : WriteFault) (p : Path) (w : World)
  : World * Result unit :=
  match fault with
  | OpenFails => (w, Raise OSError)
  | EncodeFails =>
      (mkWorld (<[p := []]> (fs w)) (trace w), Raise UnicodeEncodeError)
  | WriteFails written =>
      (mkWorld (<[p := written]> (fs w)) (trace w), Raise OSError)
  end.

(** ** The export renderers *)

(** The text artifact (line 93). *)
Definition render_text (segs : list Segment) : pystr :=
  Str.join [Str.LF]
    (List.map (fun seg => Str.strip (text seg))
       (List.filter
          (fun seg => Str.truthy (text seg) && Str.truthy (Str.strip (text seg)))
          segs)).

(** The loop that fills [srt_lines] (lines 99-103), from index [i]. *)
Fixpoint srt_loop (i : Z) (segs : list Segment) (srt_lines : list pystr)
  : Result (list pystr) :=
  match segs with
  | [] => Ok srt_lines
  | seg :: rest =>
      let srt_lines := srt_lines ++ [Str.of_int i] in
      t0 ← format_srt_time (start seg);
      t1 ← format_srt_time (end_ seg);
      let srt_lines := srt_lines ++ [t0 ++ Str.lit " --> " ++ t1] in
      let srt_lines := srt_lines ++ [Str.strip (text seg)] in
      let srt_lines := srt_lines ++ [[]] in
      srt_loop (i + 1) rest srt_lines
  end.

Definition render_srt_lines (segs : list Segment) : Result (list pystr) :=
  srt_loop 1 segs [].

(** The object serialized to the structured artifact (lines 109-114). *)
Definition segment_entry (s : Segment) : JSON :=
  JDict [(Str.lit "start", JFloat (start s));
         (Str.lit "end", JFloat (end_ s));
         (Str.lit "text", JStr (Str.strip (text s)))].

Definition json_of_option {A} (f : A -> JSON) (o : option A) : JSON :=
  match o with
  | Some a => f a
  | None => JNull
  end.

Definition render_data (info : TranscriptionInfo) (args : Args)
    (segs : list Segment) : JSON :=
  JDict [(Str.lit "detected_language", json_of_option JStr (info_language info));
         (Str.lit "duration", json_of_option JFloat (info_duration info));
         (Str.lit "model", JStr (model args));
         (Str.lit "segments", JList (List.map segment_entry segs))].

(** ** The pipeline *)

Section Pipeline.

(** The external decoder: [None] when the program cannot be started
    (it is not installed); otherwise what running the command does to
    the files, and whether it exits with status zero. *)
Variable ffmpeg :
  list pystr -> gmap Path pystr -> option (gmap Path pystr * bool).

(** The recognition library: whether a model of that name loads, and
    what [transcribe] returns for a model, the waveform file and the
    forced language ([None] when it raises). *)
Variable load_model : pystr -> bool.
Variable recognise :
  pystr -> option pystr -> option pystr -> option (Stream * TranscriptionInfo).

(** Whether writing that text to that path fails, and how it fails
    when it does. *)
Variable io_fault : Path -> pystr -> bool.
Variable io_failure : Path -> pystr -> WriteFault.

(** [float.__repr__], used by the JSON encoder. *)
Variable float_repr : pyfloat -> pystr.

(** [run(cmd)]: [subprocess.run(cmd, check=True)].  A program that
    cannot be started raises [FileNotFoundError] and nothing has run; a
    program that exits with a non-zero status raises
    [CalledProcessError]. *)
Definition run (cmd : list pystr) : M unit := fun w =>
  match ffmpeg cmd (fs w) with
  | None => (w, Raise FileNotFoundError)
  | Some (fs', ok) =>
      let w' := mkWorld fs' (trace w ++ [EvRun cmd]) in
      if ok then (w', Ok tt) else (w', Raise CalledProcessError)
  end.

(** [to_wav_16k_mono] *)
Definition to_wav_16k_mono (input_audio : Path) : M Path :=
  out_wav ← lift (PurePath.with_suffix input_audio (Str.lit ".16k_mono.wav"));
  let cmd := [Str.lit "ffmpeg"; Str.lit "-y";
              Str.lit "-i"; PurePath.to_str input_audio;
              Str.lit "-ar"; Str.lit "16000";
              Str.lit "-ac"; Str.lit "1";
              Str.lit "-c:a"; Str.lit "pcm_s16le";
              PurePath.to_str out_wav] in
  run cmd;;
  mret out_wav.

(** [WhisperModel(name, device="cpu", compute_type="int8")] *)
Definition WhisperModel (name : pystr) : M pystr :=
  emit (EvLoadModel name);;
  if load_model name then mret name else raise ModelError.

(** [model.transcribe(wav, beam_size=..., vad_filter=..., language=...)];
    the library reads the waveform file at that path. *)
Definition transcribe (model : pystr) (wav : Path) (beam_size : Z)
    (vad_filter : bool) (lang : option pystr)
  : M (Stream * TranscriptionInfo) := fun w =>
  let w' := mkWorld (fs w)
              (trace w ++ [EvTranscribe (PurePath.to_str wav) beam_size vad_filter lang]) in
  match recognise model (fs w !! wav) lang with
  | Some r => (w', Ok r)
  | None => (w', Raise ModelError)
  end.

(** [path.write_text(data, encoding="utf-8")] *)
Definition write_text (p : Path) (data : pystr) : M unit := fun w =>
  if io_fault p data then failed_write (io_failure p data) p w
  else (mkWorld (<[p := data]> (fs w)) (trace w ++ [EvWrite p data]), Ok tt).

(** The loop under the progress bar (lines 80-85). *)
Fixpoint drain_progress (segments : Stream) (segs : list Segment)
    (last_t : pyfloat) : M (list Segment * pyfloat) :=
  match segments with
  | Stop => mret (segs, last_t)
  | Fail => raise ModelError
  | Yield seg rest =>
      let segs := segs ++ [seg] in
      let new_t := Float.max last_t (end_ seg) in
      emit (EvProgress (Float.max Float.zero (Float.sub new_t last_t)));;
      let last_t := new_t in
      drain_progress rest segs last_t
  end.

(** The loop without a progress bar (lines 87-88). *)
Fixpoint drain (segments : Stream) (segs : list Segment) : M (list Segment) :=
  match segments with
  | Stop => mret segs
  | Fail => raise ModelError
  | Yield seg rest => drain rest (segs ++ [seg])
  end.

(** [main], from the parsed arguments on. *)
Definition main (args : Args) : M unit :=
  let input_audio := audio args in
  found ← path_exists input_audio;
  if negb found then raise FileNotFoundError else
  wav ← to_wav_16k_mono input_audio;
  mdl ← WhisperModel (model args);
  r ← transcribe mdl wav 5 true (language args);
  let '(segments, info) := r in
  let segs : list Segment := [] in
  let total_duration :=
    match info_duration info with
    | Some d => if Float.truthy d then d else Float.zero
    | None => Float.zero
    end in
  let last_t := Float.zero in
  segs ← (if Float.ltb Float.zero total_duration
          then r ← drain_progress segments segs last_t; mret (fst r)
          else drain segments segs);
  let out_base := input_audio in
  let text := render_text segs in
  out_txt ← lift (PurePath.with_suffix out_base (Str.lit ".txt"));
  write_text out_txt text;;
  srt_lines ← lift (render_srt_lines segs);
  out_srt ← lift (PurePath.with_suffix out_base (Str.lit ".srt"));
  write_text out_srt (Str.join [Str.LF] srt_lines);;
  out_json ← lift (PurePath.with_suffix out_base (Str.lit ".json"));
  let data := render_data info args segs in
  write_text out_json (Json.dumps float_repr data);;
  print (Str.LF :: Str.lit "Done.");;
  print (Str.lit "Input: " ++ PurePath.name input_audio);;
  print (Str.lit "Detected language: " ++ str_of_option (info_language info));;
  print (Str.lit "Outputs: " ++ PurePath.name out_txt ++ [Str.SPACE]
         ++ PurePath.name out_srt ++ [Str.SPACE] ++ PurePath.name out_json);;
  print (Str.lit "Intermediate wav: " ++ PurePath.name wav).

End Pipeline.

(** ** Vocabulary of the statements *)

(** The segments a stream yields before it is exhausted or raises. *)
Fixpoint yielded (segments : Stream) : list Segment :=
  match segments with
  | Stop | Fail => []
  | Yield seg rest => seg :: yielded rest
  end.

(** Whether the stream ends normally. *)
Fixpoint exhausted (segments : Stream) : bool :=
  match segments with
  | Stop => true
  | Fail => false
  | Yield _ rest => exhausted rest
  end.

(** Coverage as the specification words it: starting from [c], after
    each segment [covered = max(covered, segment.end)]. *)
Definition covered_from (c : pyfloat) (segs : list Segment) : pyfloat :=
  fold_left (fun covered seg => Float.max covered (end_ seg)) segs c.

(** Coverage of a run of segments, from the initial [0.0]. *)
Definition covered (segs : list Segment) : pyfloat :=
  covered_from Float.zero segs.

(** The increment reported for segment number [k] (from 0). *)
Definition increment (segs : list Segment) (k : nat) : pyfloat :=
  Float.max Float.zero
    (Float.sub (covered (take (S k) segs)) (covered (take k segs))).

(** The progress events of the loop started with coverage [c]. *)
Fixpoint updates_from (c : pyfloat) (segs : list Segment) : list Event :=
  match segs with
  | [] => []
  | seg :: rest =>
      let new_t := Float.max c (end_ seg) in
      EvProgress (Float.max Float.zero (Float.sub new_t c))
      :: updates_from new_t rest
  end.

(** Lines without a newline inside. *)
Definition no_newline (s : pystr) : Prop := Forall (fun c => c <> Str.LF) s.

(** The command line [to_wav_16k_mono] builds. *)
Definition ffmpeg_cmd (input_audio out_wav : Path) : list pystr :=
  [Str.lit "ffmpeg"; Str.lit "-y";
   Str.lit "-i"; PurePath.to_str input_audio;
   Str.lit "-ar"; Str.lit "16000";
   Str.lit "-ac"; Str.lit "1";
   Str.lit "-c:a"; Str.lit "pcm_s16le";
   PurePath.to_str out_wav].

(** The path of an output: the input's path with its final suffix
    replaced (added when there is none). *)
Definition output_path (input_audio : Path) (sfx : pystr) : Path :=
  removelast input_audio ++ [PurePath.stem input_audio ++ sfx].

(** [total_duration] of line 74. *)
Definition total_duration (info : TranscriptionInfo) : pyfloat :=
  match info_duration info with
  | Some d => if Float.truthy d then d else Float.zero
  | None => Float.zero
  end.

(** The progress updates of a run: one per segment under the progress
    bar, none without it. *)
Definition progress_events (info : TranscriptionInfo) (segs : list Segment)
  : list Event :=
  if Float.ltb Float.zero (total_duration info)
  then List.map (fun k => EvProgress (increment segs k)) (seq 0 (length segs))
  else [].

Definition is_write (ev : Event) : bool :=
  match ev with
  | EvWrite _ _ => true
  | _ => false
  end.

(** The exit status of the interpreter: 0, or 1 after an exception
    that nothing catches. *)
Definition exit_status {A} (r : Result A) : Z :=
  match r with
  | Ok _ => 0
  | Raise _ => 1
  end.

Section ExportSteps.

Variable io_fault : Path -> pystr -> bool.
Variable io_failure : Path -> pystr -> WriteFault.
Variable float_repr : pyfloat -> pystr.

(** The export steps of [main] (lines 90-121), for the collected
    segments. *)
Definition export (args : Args) (info : TranscriptionInfo)
    (segs : list Segment) (wav : Path) : M unit :=
  let input_audio := audio args in
  let out_base := input_audio in
  let text := render_text segs in
  out_txt ← lift (PurePath.with_suffix out_base (Str.lit ".txt"));
  write_text io_fault io_failure out_txt text;;
  srt_lines ← lift (render_srt_lines segs);
  out_srt ← lift (PurePath.with_suffix out_base (Str.lit ".srt"));
  write_text io_fault io_failure out_srt (Str.join [Str.LF] srt_lines);;
  out_json ← lift (PurePath.with_suffix out_base (Str.lit ".json"));
  let data := render_data info args segs in
  write_text io_fault io_failure out_json (Json.dumps float_repr data);;
  print (Str.LF :: Str.lit "Done.");;
  print (Str.lit "Input: " ++ PurePath.name input_audio);;
  print (Str.lit "Detected language: " ++ str_of_option (info_language info));;
  print (Str.lit "Outputs: " ++ PurePath.name out_txt ++ [Str.SPACE]
         ++ PurePath.name out_srt ++ [Str.SPACE] ++ PurePath.name out_json);;
  print (Str.lit "Intermediate wav: " ++ PurePath.name wav).

(** The five lines printed at the end. *)
Definition final_prints (args : Args) (info : TranscriptionInfo)
    (out_txt out_srt out_json wav : Path) : list Event :=
  [EvPrint (Str.LF :: Str.lit "Done.");
   EvPrint (Str.lit "Input: " ++ PurePath.name (audio args));
   EvPrint (Str.lit "Detected language: " ++ str_of_option (info_language info));
   EvPrint (Str.lit "Outputs: " ++ PurePath.name out_txt ++ [Str.SPACE]
            ++ PurePath.name out_srt ++ [Str.SPACE] ++ PurePath.name out_json);
   EvPrint (Str.lit "Intermediate wav: " ++ PurePath.name wav)].

End ExportSteps.

(** ** The scenario of the specification *)

Module Scenario.

Definition seg_hello : Segment := mkSegment Float.zero f3_456 (Str.lit " Hello ").
Definition seg_world : Segment := mkSegment f4_0 f9_999 (Str.lit "world").

Definition input : Path := [Str.lit "home"; Str.lit "talk.m4a"].
Definition input_txt : Path := [Str.lit "home"; Str.lit "notes.txt"].
Definition wav : Path := [Str.lit "home"; Str.lit "talk.16k_mono.wav"].

Definition info : TranscriptionInfo := mkInfo (Some (Str.lit "en")) (Some f10_0).

(** A decoder that writes two bytes where it is told to and succeeds. *)
Definition ffmpeg (cmd : list pystr) (files : gmap Path pystr)
  : option (gmap Path pystr * bool) :=
  Some (<[wav := [82; 73]%N]> files, true).

Definition load_model (name : pystr) : bool := true.
Definition load_model_fails (name : pystr) : bool := false.

Definition recognise (name : pystr) (waveform : option pystr)
    (lang : option pystr) : option (Stream * TranscriptionInfo) :=
  Some (Yield seg_hello (Yield seg_world Stop), info).

Definition recognise_silence (name : pystr) (waveform : option pystr)
    (lang : option pystr) : option (Stream * TranscriptionInfo) :=
  Some (Stop, info).

Definition io_fault (p : Path) (data : pystr) : bool := false.
Definition io_failure (p : Path) (data : pystr) : WriteFault := OpenFails.

(** A stand-in for [float.__repr__]. *)
Definition float_repr (x : pyfloat) : pystr := Str.lit "0.0".

Definition files : gmap Path pystr :=
  {[ input := [1; 2; 3]%N; input_txt := [4; 5; 6]%N ]}.

Definition world : World := mkWorld files [].

Definition args : Args := mkArgs input (Str.lit "small") None false.
Definition args_txt : Args := mkArgs input_txt (Str.lit "small") None false.
Definition args_missing : Args :=
  mkArgs [Str.lit "home"; Str.lit "nothing.mp3"] (Str.lit "small") None false.

End Scenario.

(** ** Further vocabulary *)

(** The actions that reach outside the program: the decoder and the
    recognition library. *)
Definition is_external (ev : Event) : bool :=
  match ev with
  | EvRun _ | EvLoadModel _ | EvTranscribe _ _ _ _ => true
  | _ => false
  end.

(** No dot in a run of characters. *)
Definition no_dot (s : pystr) : bool :=
  forallb (fun c => negb (c =? Str.DOT)%N) s.

(** A suffix of one dot followed by at least one character other than
    a dot or a slash, like [.txt]. *)
Definition simple_suffix (sfx : pystr) : bool :=
  match sfx with
  | c :: rest =>
      (c =? Str.DOT)%N && Str.truthy rest && no_dot rest
      && negb (existsb (N.eqb Str.SLASH) rest)
  | [] => false
  end.

(** ** Further cases *)

Module Cases.

(** The float nearest to -0.001 (seconds), a NaN end, and a segment of
    blank text. *)
Definition f_minus_0_001 : pyfloat := S754_finite true 4611686018427388 (-62).
Definition seg_nan : Segment := mkSegment f4_0 S754_nan (Str.lit "lost").
Definition seg_blank : Segment := mkSegment f4_0 f5_0 [Str.SPACE; Str.LF].

(** A segment whose text, once trimmed, has a newline inside. *)
Definition seg_two_lines : Segment :=
  mkSegment f4_0 f5_0 ([Str.SPACE] ++ Str.lit "a" ++ [Str.LF] ++ Str.lit "b" ++ [Str.SPACE]).

(** A decoder that writes nothing and exits with a non-zero status. *)
Definition ffmpeg_fails (cmd : list pystr) (files : gmap Path pystr)
  : option (gmap Path pystr * bool) :=
  Some (files, false).

(** A decoder that is not installed. *)
Definition ffmpeg_missing (cmd : list pystr) (files : gmap Path pystr)
  : option (gmap Path pystr * bool) :=
  None.

(** Writes that fail for the subtitle file of the scenario, and only
    there, at the encoding of the text. *)
Definition io_fault_srt (p : Path) (data : pystr) : bool :=
  bool_decide (p = [Str.lit "home"; Str.lit "talk.srt"]).
Definition io_failure_encode (p : Path) (data : pystr) : WriteFault :=
  EncodeFails.

(** A recognition result whose second segment has a NaN end. *)
Definition recognise_nan (name : pystr) (waveform : option pystr)
    (lang : option pystr) : option (Stream * TranscriptionInfo) :=
  Some (Yield Scenario.seg_hello (Yield seg_nan Stop), Scenario.info).

(** A generator that raises after its first segment. *)
Definition broken_stream : Stream := Yield Scenario.seg_hello Fail.

End Cases.

(** * Screen capture loop (screenbot/capture_click.py) *)

(** [a < b] on strings: by code points, a proper prefix first. *)
Fixpoint str_ltb (a b : pystr) : bool :=
  match a, b with
  | _, [] => false
  | [], _ :: _ => true
  | x :: a', y :: b' =>
      if (x <? y)%N then true
      else if (x =? y)%N then str_ltb a' b'
      else false
  end.

Module Screenbot.

(** A [datetime], by its fields. *)
Record datetime := mkDatetime {
  year : Z;
  month : Z;
  day : Z;
  hour : Z;
  minute : Z;
  second : Z;
  microsecond : Z
}.

(** The fields of a [datetime] are kept in these ranges by the class
    (the length of the month is not needed here). *)
Definition valid_datetime (d : datetime) : Prop :=
  1 <= year d <= 9999 /\ 1 <= month d <= 12 /\ 1 <= day d <= 31 /\
  0 <= hour d <= 23 /\ 0 <= minute d <= 59 /\ 0 <= second d <= 59 /\
  0 <= microsecond d <= 999999.

(** [now.strftime("%Y%m%d_%H%M%S")].  [%Y] is the year as the C library
    writes it: glibc writes its decimal digits without padding, so a
    year below 1000 takes fewer than four characters (C libraries that
    pad to four digits agree from year 1000 on).  The other fields are
    on two digits. *)
Definition strftime_Ymd_HMS (now : datetime) : pystr :=
  Str.of_int (year now) ++ Str.format_0d 2 (month now)
  ++ Str.format_0d 2 (day now) ++ Str.lit "_"
  ++ Str.format_0d 2 (hour now) ++ Str.format_0d 2 (minute now)
  ++ Str.format_0d 2 (second now).

(** [timestamp_name], for the reading [now] of [datetime.now()]. *)
Definition timestamp_name (now : datetime) (counter : Z) : pystr :=
  let base := strftime_Ymd_HMS now in
  let ms := Str.format_0d 3 (microsecond now / 1000) in
  base ++ Str.lit "_" ++ ms ++ Str.lit "_" ++ Str.format_0d 6 counter
  ++ Str.lit ".png".

(** The configuration block. *)
Record Region := mkRegion {
  left : Z;
  top : Z;
  width : Z;
  height : Z
}.

Record Config := mkConfig {
  REGION : Region;
  CLICK_X : Z;
  CLICK_Y : Z;
  INTERVAL : pyfloat;
  OUT_DIR : Path;
  MAX_SHOTS : option Z;
  MAX_SECONDS : option pyfloat
}.

(** 1.2 and 0.1 as floats. *)
Definition f1_2 : pyfloat := S754_finite false 5404319552844595 (-52).
Definition f0_1 : pyfloat := S754_finite false 7205759403792794 (-56).

(** The values in the file, for a home directory. *)
Definition config (home : Path) : Config :=
  {| REGION := mkRegion (-1638) 230 ((-184) - (-1638)) (1079 - 230);
     CLICK_X := -1673;
     CLICK_Y := 192;
     INTERVAL := f1_2;
     OUT_DIR := home ++ [Str.lit "Desktop"; Str.lit "screenbot"; Str.lit "captures"];
     MAX_SHOTS := Some 90;
     MAX_SECONDS := None |}.

(** What the loop does to the outside. *)
Inductive Action :=
| Mkdir (p : Path)
| Say (line : pystr)
| Grab (region : Region)
| SavePng (output : pystr)
| Click (x y : Z)
| Sleep (secs : pyfloat).

(** The exceptions of the libraries: a failed grab, a failed write of
    the picture, the fail-safe of the mouse library. *)
Inductive Fault :=
| ScreenShotError
| SaveError
| FailSafeException.

(** How [main] ends: normally with the number of shots, with an
    exception, or not within the given number of loop turns. *)
Inductive Outcome :=
| Done (counter : Z)
| Aborted (fault : Fault)
| StillRunning.

Section Loop.

Variable cfg : Config.

(** The readings of [time.time()], by call number, and of
    [datetime.now()], by shot number; and whether the grab, the save
    and the click of a shot succeed. *)
Variable clock : nat -> pyfloat.
Variable now : Z -> datetime.
Variable grab_ok : Z -> bool.
Variable save_ok : Z -> bool.
Variable click_ok : Z -> bool.

(** [str(REGION)], a dict of four integers. *)
Definition region_repr (r : Region) : pystr :=
  Str.lit "{'left': " ++ Str.of_int (left r)
  ++ Str.lit ", 'top': " ++ Str.of_int (top r)
  ++ Str.lit ", 'width': " ++ Str.of_int (width r)
  ++ Str.lit ", 'height': " ++ Str.of_int (height r) ++ Str.lit "}".

(** The [while True] loop (lines 96-128), for at most [fuel] turns.
    [ticks] counts the calls of [time.time()] so far; the hot keys are
    off, so nothing changes [paused] and [quit_flag]. *)
Fixpoint loop (fuel : nat) (t0 : pyfloat) (paused quit_flag : bool)
    (counter : Z) (ticks : nat) (done : list Action)
  : list Action * Outcome :=
  match fuel with
  | O => (done, StillRunning)
  | S fuel' =>
      if quit_flag then (done, Done counter)
      else
        let '(stop_time, ticks) :=
          match MAX_SECONDS cfg with
          | Some limit =>
              (Float.leb limit (Float.sub (clock ticks) t0), S ticks)
          | None => (false, ticks)
          end in
        if stop_time
        then (done ++ [Say (Str.LF :: Str.lit "Stopping: reached MAX_SECONDS.")],
              Done counter)
        else
          if (match MAX_SHOTS cfg with
              | Some limit => limit <=? counter
              | None => false
              end)
          then (done ++ [Say (Str.LF :: Str.lit "Stopping: reached MAX_SHOTS.")],
                Done counter)
          else
            if paused
            then loop fuel' t0 paused quit_flag counter ticks
                   (done ++ [Sleep f0_1])
            else
              let start := clock ticks in
              let ticks := S ticks in
              let done := done ++ [Grab (REGION cfg)] in
              if negb (grab_ok counter) then (done, Aborted ScreenShotError)
              else
                let out_path := OUT_DIR cfg ++ [timestamp_name (now counter) counter] in
                let done := done ++ [SavePng (PurePath.to_str out_path)] in
                if negb (save_ok counter) then (done, Aborted SaveError)
                else
                  let done := done ++ [Click (CLICK_X cfg) (CLICK_Y cfg)] in
                  if negb (click_ok counter) then (done, Aborted FailSafeException)
                  else
                    let counter := counter + 1 in
                    let elapsed := Float.sub (clock ticks) start in
                    let ticks := S ticks in
                    let done :=
                      done ++ [Sleep (Float.max Float.zero
                                        (Float.sub (INTERVAL cfg) elapsed))] in
                    loop fuel' t0 paused quit_flag counter ticks done
  end.

(** [main] (lines 56-131), with [ENABLE_HOTKEYS = False]; [interval]
    is [str(INTERVAL)]. *)
Definition main (fuel : nat) (interval : pystr) : list Action * Outcome :=
  let done :=
    [Mkdir (OUT_DIR cfg);
     Say (Str.lit "Running... (pyautogui FAILSAFE enabled: move mouse to a corner to stop)");
     Say (Str.lit "Saving screenshots to: " ++ PurePath.to_str (OUT_DIR cfg));
     Say (Str.lit "REGION = " ++ region_repr (REGION cfg));
     Say (Str.lit "CLICK  = (" ++ Str.of_int (CLICK_X cfg) ++ Str.lit ", "
          ++ Str.of_int (CLICK_Y cfg) ++ Str.lit ")");
     Say (Str.lit "INTERVAL = " ++ interval ++ Str.lit "s")] in
  let paused := false in
  let quit_flag := false in
  let t0 := clock 0 in
  let counter := 0 in
  match loop fuel t0 paused quit_flag counter 1 done with
  | (done, Done counter) =>
      (done ++ [Say (Str.LF :: Str.lit "Done. Captured " ++ Str.of_int counter
                     ++ Str.lit " screenshots.");
                Say (Str.lit "If your clicks/screenshots failed on macOS, check Screen Recording + Accessibility permissions.")],
       Done counter)
  | r => r
  end.

End Loop.

(** The actions of one shot that goes well. *)
Definition shot (cfg : Config) (now : Z -> datetime) (k : Z)
    (sleep : pyfloat) : list Action :=
  [Grab (REGION cfg);
   SavePng (PurePath.to_str (OUT_DIR cfg ++ [timestamp_name (now k) k]));
   Click (CLICK_X cfg) (CLICK_Y cfg);
   Sleep sleep].

Definition is_click (a : Action) : bool :=
  match a with
  | Click _ _ => true
  | _ => false
  end.

(** The fields a file name shows, in the order it shows them: the
    date and time down to the millisecond, then the counter. *)
Definition stamp (d : datetime) (counter : Z) : list Z :=
  [year d; month d; day d; hour d; minute d; second d;
   microsecond d / 1000; counter].

(** The order of two stamps: by the first field that differs. *)
Fixpoint lex_lt (a b : list Z) : Prop :=
  match a, b with
  | x :: a', y :: b' => x < y \/ (x = y /\ lex_lt a' b')
  | _, _ => False
  end.

(** The pause after a shot whose first clock reading has number
    [ticks]: what is left of the interval, never less than nothing. *)
Definition pause_after (cfg : Config) (clock : nat -> pyfloat) (ticks : nat)
  : pyfloat :=
  Float.max Float.zero
    (Float.sub (INTERVAL cfg) (Float.sub (clock (S ticks)) (clock ticks))).

(** The actions of [r] shots in a row that go well, from shot number
    [counter] and clock reading number [ticks]. *)
Fixpoint shots (cfg : Config) (clock : nat -> pyfloat) (now : Z -> datetime)
    (r : nat) (counter : Z) (ticks : nat) : list Action :=
  match r with
  | O => []
  | S r' =>
      shot cfg now counter (pause_after cfg clock ticks)
      ++ shots cfg clock now r' (counter + 1) (S (S ticks))
  end.

(** What [main] does before the loop. *)
Definition header (cfg : Config) (interval : pystr) : list Action :=
  [Mkdir (OUT_DIR cfg);
   Say (Str.lit "Running... (pyautogui FAILSAFE enabled: move mouse to a corner to stop)");
   Say (Str.lit "Saving screenshots to: " ++ PurePath.to_str (OUT_DIR cfg));
   Say (Str.lit "REGION = " ++ region_repr (REGION cfg));
   Say (Str.lit "CLICK  = (" ++ Str.of_int (CLICK_X cfg) ++ Str.lit ", "
        ++ Str.of_int (CLICK_Y cfg) ++ Str.lit ")");
   Say (Str.lit "INTERVAL = " ++ interval ++ Str.lit "s")].

(** The two lines [main] prints after the loop. *)
Definition footer (counter : Z) : list Action :=
  [Say (Str.LF :: Str.lit "Done. Captured " ++ Str.of_int counter
        ++ Str.lit " screenshots.");
   Say (Str.lit "If your clicks/screenshots failed on macOS, check Screen Recording + Accessibility permissions.")].

Definition is_grab (a : Action) : bool :=
  match a with
  | Grab _ => true
  | _ => false
  end.

Definition is_save_action (a : Action) : bool :=
  match a with
  | SavePng _ => true
  | _ => false
  end.

(** A pause is a number, and not a negative one. *)
Definition sleep_ok (a : Action) : Prop :=
  match a with
  | Sleep secs => Float.leb Float.zero secs = true
  | _ => True
  end.

(** What holds of the actions added by the loop from shot number
    [counter] on, whatever the clock and the failures. *)
Definition loop_bounds (n counter : Z) (added : list Action) (out : Outcome)
  : Prop :=
  (length (List.filter is_grab added) <= Z.to_nat (n - counter))%nat /\
  (length (List.filter is_click added)
   <= length (List.filter is_save_action added))%nat /\
  (length (List.filter is_save_action added)
   <= length (List.filter is_grab added))%nat /\
  Forall sleep_ok added /\
  (forall c, out = Done c ->
             counter <= c <= n /\
             Z.of_nat (length (List.filter is_click added)) = c - counter).

(** The path a shot is saved under. *)
Definition shot_path (cfg : Config) (now : Z -> datetime) (k : Z) : pystr :=
  PurePath.to_str (OUT_DIR cfg ++ [timestamp_name (now k) k]).

(** Sample readings: a clock that stands still, a fixed date; a home
    directory; libraries that never fail, and a click that fails at
    shot number 2. *)
Definition sample_now (k : Z) : datetime := mkDatetime 2026 1 27 10 15 30 123456.

(** Two dates a year apart, around the year 1000. *)
Definition year_999 : datetime := mkDatetime 999 12 31 23 59 59 999999.
Definition year_1000 : datetime := mkDatetime 1000 1 1 0 0 0 0.
Definition sample_clock (k : nat) : pyfloat := f4_0.
Definition sample_home : Path := [Str.lit "Users"; Str.lit "me"].
Definition always (k : Z) : bool := true.
Definition fails_at_two (k : Z) : bool := negb (k =? 2).

End Screenbot.

(** * Properties *)

(** ** Decimal rendering *)

Module StrFacts.
Import Str.

Lemma to_N_acc_app a s1 s2 :
  to_N_acc a (s1 ++ s2) = to_N_acc (to_N_acc a s1) s2.
Proof. unfold to_N_acc. apply fold_left_app. Qed.

Lemma to_N_acc_cons a c s :
  to_N_acc a (c :: s) = to_N_acc (10 * a + (c - 48))%N s.
Proof. reflexivity. Qed.

Lemma digits_aux_value fuel : forall n acc,
  (n < 2 ^ N.of_nat fuel)%N ->
  to_N_acc 0 (digits_aux fuel n acc) = to_N_acc n acc.
Proof.
  induction fuel as [|fuel IH]; intros n acc Hn.
  - change (2 ^ N.of_nat 0)%N with 1%N in Hn.
    assert (n = 0%N) as -> by lia. reflexivity.
  - cbn [digits_aux]. destruct (N.ltb_spec n 10) as [Hlt|Hge].
    + rewrite to_N_acc_cons, N.mod_small by lia. f_equal. lia.
    + rewrite IH.
      * rewrite to_N_acc_cons. f_equal.
        pose proof (N.div_mod n 10 ltac:(lia)) as Hdm.
        generalize dependent (n mod 10)%N. generalize dependent (n / 10)%N.
        intros; lia.
      * rewrite Nat2N.inj_succ, N.pow_succ_r' in Hn.
        apply N.Div0.div_lt_upper_bound. lia.
Qed.

Lemma digits_fuel n : (n < 2 ^ N.of_nat (S (N.to_nat (N.log2 n))))%N.
Proof.
  rewrite Nat2N.inj_succ, N2Nat.id.
  destruct n as [|p]; [reflexivity|].
  apply N.log2_spec. lia.
Qed.

Lemma digits_value n : to_N (digits n) = n.
Proof.
  unfold to_N, digits. rewrite digits_aux_value by apply digits_fuel.
  reflexivity.
Qed.

Lemma digits_aux_isdigit fuel : forall n acc,
  Forall (fun c => isdigit c = true) acc ->
  Forall (fun c => isdigit c = true) (digits_aux fuel n acc).
Proof.
  induction fuel as [|fuel IH]; intros n acc Hacc; [exact Hacc|].
  cbn [digits_aux].
  assert (Forall (fun c => isdigit c = true) ((48 + n mod 10)%N :: acc)) as H.
  { constructor; [|exact Hacc]. unfold isdigit.
    pose proof (N.mod_upper_bound n 10 ltac:(lia)) as Hub.
    generalize dependent (n mod 10)%N. intros d Hub.
    apply andb_true_iff. split; apply N.leb_le; lia. }
  destruct (n <? 10)%N; auto.
Qed.

Lemma digits_isdigit n : Forall (fun c => isdigit c = true) (digits n).
Proof. apply digits_aux_isdigit. constructor. Qed.

Lemma digits_nonempty n : (1 <= length (digits n))%nat.
Proof.
  unfold digits. cbn [digits_aux].
  assert (forall fuel m acc, (length acc <= length (digits_aux fuel m acc))%nat) as Hmono.
  { induction fuel as [|fuel IH]; intros m acc; [reflexivity|].
    cbn [digits_aux]. destruct (m <? 10)%N; [cbn; lia|].
    etransitivity; [|apply IH]. cbn. lia. }
  destruct (n <? 10)%N; [cbn; lia|].
  etransitivity; [|apply Hmono]. cbn. lia.
Qed.

(** Numbers below one thousand have at most three digits, and numbers
    below one hundred at most two: checked on each of them. *)
Lemma digits_length_table :
  forallb (fun k => (length (digits (N.of_nat k)) <=? (if (k <? 100)%nat then 2 else 3))%nat)
    (seq 0 1000) = true.
Proof. vm_compute. reflexivity. Qed.

Lemma digits_length_lt_1000 n :
  (n < 1000)%N -> (length (digits n) <= 3)%nat.
Proof.
  intros Hn. pose proof digits_length_table as H.
  rewrite forallb_forall in H.
  specialize (H (N.to_nat n)). rewrite N2Nat.id in H.
  assert (In (N.to_nat n) (seq 0 1000)) as Hin by (apply in_seq; lia).
  apply H in Hin. apply Nat.leb_le in Hin.
  destruct (N.to_nat n <? 100)%nat; lia.
Qed.

Lemma digits_length_lt_100 n :
  (n < 100)%N -> (length (digits n) <= 2)%nat.
Proof.
  intros Hn. pose proof digits_length_table as H.
  rewrite forallb_forall in H.
  specialize (H (N.to_nat n)). rewrite N2Nat.id in H.
  assert (In (N.to_nat n) (seq 0 1000)) as Hin by (apply in_seq; lia).
  apply H in Hin. apply Nat.leb_le in Hin.
  destruct (Nat.ltb_spec (N.to_nat n) 100); lia.
Qed.

Lemma to_N_acc_zeros k s : to_N_acc 0 (replicate k ZERO ++ s) = to_N_acc 0 s.
Proof.
  induction k as [|k IH]; [reflexivity|].
  cbn [replicate app]. rewrite to_N_acc_cons. exact IH.
Qed.

Lemma format_0d_nonneg width z :
  0 <= z -> format_0d width z = replicate (width - length (digits (Z.to_N z))) ZERO ++ digits (Z.to_N z).
Proof.
  intros Hz. unfold format_0d.
  destruct (Z.ltb_spec z 0); [lia|].
  replace (Z.abs_N z) with (Z.to_N z) by (destruct z; try reflexivity; lia).
  reflexivity.
Qed.

Lemma format_0d_decimal width z : 0 <= z -> decimal (format_0d width z) z.
Proof.
  intros Hz. rewrite format_0d_nonneg by exact Hz. split.
  - apply Forall_app. split; [|apply digits_isdigit].
    apply Forall_replicate. reflexivity.
  - unfold to_N. rewrite to_N_acc_zeros. fold (to_N (digits (Z.to_N z))).
    rewrite digits_value. lia.
Qed.

Lemma format_0d_length width z :
  0 <= z ->
  length (format_0d width z) = Nat.max width (length (digits (Z.to_N z))).
Proof.
  intros Hz. rewrite format_0d_nonneg by exact Hz.
  rewrite length_app, length_replicate. lia.
Qed.

Lemma format_0d_2_length z : 0 <= z < 100 -> length (format_0d 2 z) = 2%nat.
Proof.
  intros Hz. rewrite format_0d_length by lia.
  pose proof (digits_length_lt_100 (Z.to_N z) ltac:(lia)). lia.
Qed.

Lemma format_0d_3_length z : 0 <= z < 1000 -> length (format_0d 3 z) = 3%nat.
Proof.
  intros Hz. rewrite format_0d_length by lia.
  pose proof (digits_length_lt_1000 (Z.to_N z) ltac:(lia)). lia.
Qed.

End StrFacts.

(** ** Floats: rounding to milliseconds *)

Module FloatFacts.

(** Rounding a product keeps the sign it was given. *)
Lemma binary_round_aux_sign sx mx ex lx :
  match binary_round_aux prec emax sx mx ex lx with
  | S754_zero s | S754_infinity s | S754_finite s _ _ => s = sx
  | S754_nan => True
  end.
Proof.
  unfold binary_round_aux.
  destruct (shr_fexp prec emax mx ex lx) as [mrs' e'].
  destruct (shr_fexp prec emax _ e' loc_Exact) as [mrs'' e''].
  destruct (shr_m mrs''); [reflexivity| |exact I].
  destruct (e'' <=? emax - prec); reflexivity.
Qed.

Lemma round_half_even_nonneg m e : 0 <= Float.round_half_even m e.
Proof.
  unfold Float.round_half_even.
  destruct (0 <=? e) eqn:He.
  - apply Z.leb_le in He. apply Z.mul_nonneg_nonneg; [lia|].
    apply Z.pow_nonneg. lia.
  - apply Z.leb_gt in He.
    assert (0 < 2 ^ (- e)) as Hd by (apply Z.pow_pos_nonneg; lia).
    assert (0 <= Z.pos m / 2 ^ (- e)) as Hq by (apply Z.div_pos; lia).
    destruct (2 * (Z.pos m mod 2 ^ (- e)) ?= 2 ^ (- e)); [|lia|lia].
    destruct (Z.even _); lia.
Qed.

(** The non-negative floats: zeros of either sign, positive finite
    values and plus infinity. *)
Lemma leb_zero_cases t :
  Float.leb Float.zero t = true ->
  (exists s, t = S754_zero s) \/ t = S754_infinity false
  \/ exists m e, t = S754_finite false m e.
Proof.
  destruct t as [s|[|]| |[|] m e]; cbn; intros H; try discriminate; eauto.
Qed.

Lemma round_mul_nonneg t :
  Float.leb Float.zero t = true ->
  Float.is_finite (Float.mul t Float.f1000) = true ->
  exists ms, Float.round (Float.mul t Float.f1000) = Ok ms /\ 0 <= ms.
Proof.
  intros Hpos Hfin.
  destruct (leb_zero_cases t Hpos) as [[s ->]|[->|(m & e & ->)]].
  - exists 0. split; [reflexivity|lia].
  - discriminate Hfin.
  - unfold Float.mul, Float.f1000, SFmul in *.
    pose proof (binary_round_aux_sign (xorb false false)
                  (Z.pos (m * 8796093022208000)) (e + -43) loc_Exact) as Hs.
    destruct (binary_round_aux prec emax (xorb false false) _ _ loc_Exact)
      as [s'|s'| |s' m' e']; try discriminate Hfin.
    + exists 0. split; [reflexivity|lia].
    + cbn in Hs. subst s'. cbn [Float.round].
      eexists. split; [reflexivity|]. apply round_half_even_nonneg.
Qed.

End FloatFacts.

(** ** C1: subtitle timestamps *)

(** The fields the code computes by reducing [ms] step by step are the
    fields of the direct formulas. *)
Lemma srt_fields_direct ms :
  (ms mod 3600000) mod 60000 = ms mod 60000 /\
  ((ms mod 3600000) mod 60000) mod 1000 = ms mod 1000.
Proof.
  assert ((ms mod 3600000) mod 60000 = ms mod 60000) as H
    by (apply Z.mod_mod_divide; exists 60; reflexivity).
  split; [exact H|].
  rewrite H. apply Z.mod_mod_divide. exists 60. reflexivity.
Qed.

(** C1. For a non-negative number of seconds [t] (whose product with 1000
    is finite, so that [round] returns an integer), [format_srt_time]
    returns [HH:MM:SS,mmm] where, with [ms_total = round(t*1000)], the
    fields are [ms_total // 3600000], [(ms_total % 3600000) // 60000],
    [(ms_total % 60000) // 1000] and [ms_total % 1000], written in decimal
    digits: hours on at least two digits, minutes and seconds on exactly
    two, milliseconds on exactly three; minutes and seconds are in 0..59
    and milliseconds in 0..999. *)
Theorem format_srt_time_fields (t : pyfloat) :
  Float.leb Float.zero t = true ->
  Float.is_finite (Float.mul t Float.f1000) = true ->
  exists ms_total : Z,
    Float.round (Float.mul t Float.f1000) = Ok ms_total /\
    0 <= ms_total /\
    let hours := ms_total / 3600000 in
    let minutes := (ms_total mod 3600000) / 60000 in
    let seconds := (ms_total mod 60000) / 1000 in
    let milliseconds := ms_total mod 1000 in
    let HH := Str.format_0d 2 hours in
    let MM := Str.format_0d 2 minutes in
    let SS := Str.format_0d 2 seconds in
    let mmm := Str.format_0d 3 milliseconds in
    format_srt_time t
    = Ok (HH ++ [Str.COLON] ++ MM ++ [Str.COLON] ++ SS ++ [Str.COMMA] ++ mmm) /\
    (0 <= hours /\ Str.decimal HH hours /\
     length HH = Nat.max 2 (length (Str.digits (Z.to_N hours)))) /\
    (0 <= minutes <= 59 /\ Str.decimal MM minutes /\ length MM = 2%nat) /\
    (0 <= seconds <= 59 /\ Str.decimal SS seconds /\ length SS = 2%nat) /\
    (0 <= milliseconds <= 999 /\ Str.decimal mmm milliseconds /\
     length mmm = 3%nat).
Proof.
  intros Hpos Hfin.
  destruct (FloatFacts.round_mul_nonneg t Hpos Hfin) as (ms & Hround & Hms).
  exists ms. split; [exact Hround|]. split; [exact Hms|].
  cbv zeta.
  destruct (srt_fields_direct ms) as [Hs Hm].
  assert (0 <= ms / 3600000) as Hh by (apply Z.div_pos; lia).
  assert (0 <= ms mod 3600000 / 60000 <= 59) as Hmin
    by (pose proof (Z.mod_pos_bound ms 3600000 ltac:(lia));
        split; [apply Z.div_pos; lia|];
        apply Z.lt_succ_r, Z.div_lt_upper_bound; lia).
  assert (0 <= ms mod 60000 / 1000 <= 59) as Hsec
    by (pose proof (Z.mod_pos_bound ms 60000 ltac:(lia));
        split; [apply Z.div_pos; lia|];
        apply Z.lt_succ_r, Z.div_lt_upper_bound; lia).
  assert (0 <= ms mod 1000 <= 999) as Hmil
    by (pose proof (Z.mod_pos_bound ms 1000 ltac:(lia)); lia).
  split.
  - unfold format_srt_time. rewrite Hround. cbn [mbind Result_bind].
    cbv zeta. rewrite Hm, Hs. reflexivity.
  - repeat split; try lia;
      try (apply StrFacts.format_0d_decimal; lia);
      try (apply StrFacts.format_0d_2_length; lia);
      try (apply StrFacts.format_0d_3_length; lia).
    apply StrFacts.format_0d_length; lia.
Qed.

Example format_srt_time_3_456 :
  format_srt_time f3_456 = Ok (Str.lit "00:00:03,456").
Proof. vm_compute. reflexivity. Qed.

Example format_srt_time_9_999 :
  format_srt_time f9_999 = Ok (Str.lit "00:00:09,999").
Proof. vm_compute. reflexivity. Qed.

(** Hours take as many digits as they need. *)
Example format_srt_time_100_hours :
  format_srt_time f360000_0 = Ok (Str.lit "100:00:00,000").
Proof. vm_compute. reflexivity. Qed.

(** The product of the float nearest to 0.0005 with 1000 is exactly
    0.5, which rounds to the even integer 0. *)
Example format_srt_time_tie :
  Float.mul f0_0005 Float.f1000 = S754_finite false 4503599627370496 (-53) /\
  format_srt_time f0_0005 = Ok (Str.lit "00:00:00,000").
Proof. vm_compute. split; reflexivity. Qed.

(** Beyond the range where the product with 1000 is finite, [round]
    has no integer to return. *)
Example format_srt_time_overflow :
  Float.is_finite (Float.mul f1e306 Float.f1000) = false /\
  format_srt_time f1e306 = Raise OverflowError.
Proof. vm_compute. split; reflexivity. Qed.

(** C1, as worded for every non-negative [t], fails at the float
    nearest to 1e306: it is not negative, its product with 1000 is
    infinite, [round] raises [OverflowError] and no string is
    returned. *)
Lemma format_srt_time_nonneg_overflow :
  Float.leb Float.zero f1e306 = true /\
  Float.is_finite (Float.mul f1e306 Float.f1000) = false /\
  format_srt_time f1e306 = Raise OverflowError /\
  ~ (exists s : pystr, format_srt_time f1e306 = Ok s).
Proof.
  split; [vm_compute; reflexivity|].
  split; [vm_compute; reflexivity|].
  assert (format_srt_time f1e306 = Raise OverflowError) as H
    by (vm_compute; reflexivity).
  split; [exact H|].
  intros [s Hs]. rewrite H in Hs. discriminate Hs.
Qed.

Lemma format_srt_time_fields_witness :
  format_srt_time f3_456 = Ok (Str.lit "00:00:03,456").
Proof.
  destruct (format_srt_time_fields f3_456 eq_refl eq_refl)
    as (ms & Hround & _ & Hfmt & _).
  vm_compute in Hround. injection Hround as <-.
  rewrite Hfmt. vm_compute. reflexivity.
Defined.

(** ** Floats: order *)

Module FloatOrder.

Lemma leb_le x y : Float.leb x y = true <-> Float.le x y.
Proof.
  unfold Float.leb, SFleb, Float.le, Float.key_le, Float.key.
  destruct x as [sx|[|]| |[|] mx ex], y as [sy|[|]| |[|] my ey]; cbn;
    try (split; [discriminate|intros H; exfalso; lia]);
    try (split; [intros _; lia|reflexivity]);
    try (split; [discriminate|tauto]);
    change (Pos.compare_cont Eq mx my) with (mx ?= my)%positive;
    destruct (Z.compare_spec ex ey) as [He|He|He];
    try destruct (Pos.compare_spec mx my) as [Hm|Hm|Hm]; cbn;
    try (split; [discriminate|intros H; exfalso; lia]);
    try (split; [intros _; lia|reflexivity]).
Qed.

Lemma leb_trans x y z :
  Float.leb x y = true -> Float.leb y z = true -> Float.leb x z = true.
Proof.
  rewrite !leb_le. unfold Float.le, Float.key_le.
  destruct (Float.key x) as [[[a1 b1] c1]|], (Float.key y) as [[[a2 b2] c2]|],
    (Float.key z) as [[[a3 b3] c3]|]; try tauto; lia.
Qed.

Lemma leb_refl x : Float.is_nan x = false -> Float.leb x x = true.
Proof.
  intros Hx. apply leb_le. unfold Float.le, Float.key_le.
  destruct x as [s|[|]| |[|] m e]; cbn in *; try discriminate; lia.
Qed.

Lemma ltb_leb x y : Float.ltb x y = true -> Float.leb x y = true.
Proof.
  unfold Float.ltb, Float.leb, SFltb, SFleb.
  destruct (SFcompare x y) as [[| |]|]; congruence.
Qed.

Lemma leb_not_nan x y :
  Float.leb x y = true -> Float.is_nan x = false /\ Float.is_nan y = false.
Proof.
  destruct x as [sx|[|]| |[|] mx ex], y as [sy|[|]| |[|] my ey];
    cbn; intros H; try discriminate H; split; reflexivity.
Qed.

(** [max(a, b)] is at least [a], and is a number when [a] is. *)
Lemma max_ge a b :
  Float.is_nan a = false -> Float.leb a (Float.max a b) = true.
Proof.
  intros Ha. unfold Float.max. destruct (Float.ltb a b) eqn:Hlt.
  - apply ltb_leb. exact Hlt.
  - apply leb_refl. exact Ha.
Qed.

Lemma max_not_nan a b :
  Float.is_nan a = false -> Float.is_nan (Float.max a b) = false.
Proof.
  intros Ha. apply (leb_not_nan a). apply max_ge. exact Ha.
Qed.

(** [max(0.0, x)] is never negative and never NaN. *)
Lemma max_zero_nonneg x : Float.leb Float.zero (Float.max Float.zero x) = true.
Proof. apply max_ge. reflexivity. Qed.

End FloatOrder.

(** ** C2: progress coverage *)

Section Coverage.

Lemma covered_from_app c segs1 segs2 :
  covered_from c (segs1 ++ segs2) = covered_from (covered_from c segs1) segs2.
Proof. unfold covered_from. apply fold_left_app. Qed.

Lemma covered_from_not_nan segs : forall c,
  Float.is_nan c = false -> Float.is_nan (covered_from c segs) = false.
Proof.
  induction segs as [|seg segs IH]; intros c Hc; [exact Hc|].
  cbn. apply IH. apply FloatOrder.max_not_nan. exact Hc.
Qed.

Lemma covered_take_S segs k seg :
  segs !! k = Some seg ->
  covered (take (S k) segs) = Float.max (covered (take k segs)) (end_ seg).
Proof.
  intros Hk. unfold covered.
  rewrite (take_S_r segs k seg Hk), covered_from_app. reflexivity.
Qed.

Lemma covered_step_le segs k :
  Float.leb (covered (take k segs)) (covered (take (S k) segs)) = true.
Proof.
  destruct (segs !! k) as [seg|] eqn:Hk.
  - rewrite (covered_take_S segs k seg Hk).
    apply FloatOrder.max_ge, covered_from_not_nan. reflexivity.
  - apply lookup_ge_None in Hk.
    rewrite !take_ge by lia.
    apply FloatOrder.leb_refl, covered_from_not_nan. reflexivity.
Qed.

Lemma covered_monotone segs j k :
  (j <= k)%nat ->
  Float.leb (covered (take j segs)) (covered (take k segs)) = true.
Proof.
  induction 1 as [|k Hle IH].
  - apply FloatOrder.leb_refl, covered_from_not_nan. reflexivity.
  - eapply FloatOrder.leb_trans; [exact IH|apply covered_step_le].
Qed.

Lemma drain_progress_run segments : forall segs c w,
  drain_progress segments segs c w
  = (mkWorld (fs w) (trace w ++ updates_from c (yielded segments)),
     if exhausted segments
     then Ok (segs ++ yielded segments, covered_from c (yielded segments))
     else Raise ModelError).
Proof.
  induction segments as [| |seg rest IH]; intros segs c w.
  - cbn. rewrite !app_nil_r. destruct w; reflexivity.
  - cbn. rewrite !app_nil_r. destruct w; reflexivity.
  - cbn [drain_progress yielded exhausted updates_from].
    unfold mbind, M_bind, emit. rewrite IH. cbn [fs trace].
    rewrite <- !app_assoc. reflexivity.
Qed.

Lemma updates_from_increments segs : forall c,
  updates_from c segs
  = map (fun k => EvProgress
           (Float.max Float.zero
              (Float.sub (covered_from c (take (S k) segs))
                         (covered_from c (take k segs)))))
      (seq 0 (length segs)).
Proof.
  induction segs as [|seg rest IH]; intros c; [reflexivity|].
  cbn [updates_from length seq map]. f_equal.
  rewrite IH, <- seq_shift, map_map. reflexivity.
Qed.

End Coverage.

(** C2. The loop under the progress bar, started as [main] starts it
    (no segment collected, coverage 0.0), on any segment stream: it
    collects the segments the stream yields; after each consumed segment
    coverage is [max(covered, segment.end)]; coverage never decreases
    between any two points of the stream, whatever the order of the
    [end] values; and each increment passed to the progress bar is at
    least 0. *)
Theorem progress_coverage_monotone (segments : Stream) (w : World) :
  let segs := yielded segments in
  let '(w', r) := drain_progress segments [] Float.zero w in
  r = (if exhausted segments then Ok (segs, covered segs) else Raise ModelError) /\
  fs w' = fs w /\
  trace w' = trace w ++ map (fun k => EvProgress (increment segs k))
                          (seq 0 (length segs)) /\
  (forall k seg, segs !! k = Some seg ->
     covered (take (S k) segs) = Float.max (covered (take k segs)) (end_ seg)) /\
  (forall j k, (j <= k)%nat ->
     Float.leb (covered (take j segs)) (covered (take k segs)) = true) /\
  (forall k, Float.leb Float.zero (increment segs k) = true).
Proof.
  cbv zeta. rewrite drain_progress_run.
  split; [reflexivity|]. split; [reflexivity|]. split.
  - cbn [trace]. f_equal. apply updates_from_increments.
  - split; [|split].
    + intros k seg. apply covered_take_S.
    + intros j k. apply covered_monotone.
    + intros k. apply FloatOrder.max_zero_nonneg.
Qed.

(** Without a known duration the other loop runs: it collects the same
    segments and reports no progress at all. *)
Lemma drain_run segments : forall segs w,
  drain segments segs w
  = (w, if exhausted segments then Ok (segs ++ yielded segments)
        else Raise ModelError).
Proof.
  induction segments as [| |seg rest IH]; intros segs w.
  - cbn. rewrite app_nil_r. reflexivity.
  - reflexivity.
  - cbn [drain yielded exhausted]. rewrite IH, <- app_assoc. reflexivity.
Qed.

(** End values out of order: 5.0, then 3.456, then 9.999. *)
Example coverage_out_of_order :
  let segs := [mkSegment Float.zero f5_0 []; mkSegment Float.zero f3_456 [];
               mkSegment f4_0 f9_999 []] in
  covered (take 1 segs) = f5_0 /\ covered (take 2 segs) = f5_0 /\
  covered (take 3 segs) = f9_999 /\ increment segs 1 = Float.zero.
Proof. vm_compute. repeat split. Qed.

(** ** C3: the text artifact *)

Module StripFacts.
Import Str.

Lemma lstrip_nil_iff s : lstrip s = [] <-> forallb isspace s = true.
Proof.
  induction s as [|c s IH]; [cbn; tauto|].
  cbn. destruct (isspace c); cbn; [exact IH|]. split; discriminate.
Qed.

Lemma lstrip_head s c r : lstrip s = c :: r -> isspace c = false.
Proof.
  induction s as [|x s IH]; [discriminate|].
  cbn. destruct (isspace x) eqn:Hx; [exact IH|].
  intros [= <- _]. exact Hx.
Qed.

Lemma forallb_rev {A} (f : A -> bool) l : forallb f (rev l) = forallb f l.
Proof.
  induction l as [|x l IH]; [reflexivity|].
  cbn. rewrite forallb_app, IH. cbn. rewrite andb_true_r. apply andb_comm.
Qed.

(** The trimmed text is empty exactly when the text is empty or made
    of whitespace only. *)
Lemma strip_nil_iff s : strip s = [] <-> forallb isspace s = true.
Proof.
  unfold strip, rstrip. split.
  - intros H. apply (f_equal (@rev N)) in H. rewrite rev_involutive in H.
    cbn in H. apply lstrip_nil_iff in H. rewrite forallb_rev in H.
    destruct (lstrip s) as [|c r] eqn:Hl; [apply lstrip_nil_iff; exact Hl|].
    apply lstrip_head in Hl. cbn in H. rewrite Hl in H. discriminate.
  - intros H. apply lstrip_nil_iff in H. rewrite H. reflexivity.
Qed.

Lemma truthy_nil_iff s : truthy s = false <-> s = [].
Proof. destruct s; cbn; split; congruence. Qed.

Lemma truthy_strip s : truthy s && truthy (strip s) = truthy (strip s).
Proof. destruct s; reflexivity. Qed.

End StripFacts.

Lemma filter_map_comm {A B} (f : A -> B) (p : B -> bool) l :
  List.filter p (List.map f l) = List.map f (List.filter (fun a => p (f a)) l).
Proof.
  induction l as [|a l IH]; [reflexivity|].
  cbn. destruct (p (f a)); cbn; rewrite IH; reflexivity.
Qed.

Lemma render_text_filter segs :
  render_text segs
  = Str.join [Str.LF]
      (List.filter Str.truthy (List.map (fun seg => Str.strip (text seg)) segs)).
Proof.
  unfold render_text. rewrite filter_map_comm. do 2 f_equal.
  apply List.filter_ext. intros seg. apply StripFacts.truthy_strip.
Qed.

(** C3. The text artifact is the trimmed texts joined with one newline,
    over the segments whose trimmed text is not empty; a segment whose
    text is empty or whitespace-only is skipped entirely: the artifact
    is the same as if the segment were not in the list; and the two
    segments of the scenario give "Hello", a newline, "world". *)
Theorem text_artifact_spec :
  (forall segs,
     render_text segs
     = Str.join [Str.LF]
         (List.filter Str.truthy
            (List.map (fun seg => Str.strip (text seg)) segs))) /\
  (forall seg, Str.strip (text seg) = [] <-> forallb Str.isspace (text seg) = true) /\
  (forall segs1 seg segs2,
     forallb Str.isspace (text seg) = true ->
     render_text (segs1 ++ seg :: segs2) = render_text (segs1 ++ segs2)) /\
  render_text [mkSegment Float.zero f3_456 (Str.lit " Hello ");
               mkSegment f4_0 f9_999 (Str.lit "world")]
  = Str.lit "Hello" ++ [Str.LF] ++ Str.lit "world".
Proof.
  split; [exact render_text_filter|].
  split; [intros seg; apply StripFacts.strip_nil_iff|].
  split; [|reflexivity].
  intros segs1 seg segs2 Hblank.
  apply StripFacts.strip_nil_iff in Hblank.
  rewrite !render_text_filter, !map_app, !List.filter_app.
  cbn [List.map List.filter]. rewrite Hblank. reflexivity.
Qed.

Lemma text_artifact_spec_witness :
  render_text [mkSegment Float.zero f3_456 (Str.lit " Hello ");
               mkSegment Float.zero f3_456 [Str.SPACE; Str.LF];
               mkSegment f4_0 f9_999 (Str.lit "world")]
  = Str.lit "Hello" ++ [Str.LF] ++ Str.lit "world".
Proof.
  destruct text_artifact_spec as (_ & _ & Hskip & Hscenario).
  etransitivity; [|exact Hscenario].
  exact (Hskip [mkSegment Float.zero f3_456 (Str.lit " Hello ")]
           (mkSegment Float.zero f3_456 [Str.SPACE; Str.LF])
           [mkSegment f4_0 f9_999 (Str.lit "world")] eq_refl).
Defined.

(** ** C4: the subtitle artifact *)

Lemma of_int_decimal z : 0 <= z -> Str.decimal (Str.of_int z) z.
Proof.
  intros Hz. unfold Str.of_int. destruct (Z.ltb_spec z 0); [lia|].
  split; [apply StrFacts.digits_isdigit|].
  rewrite StrFacts.digits_value. lia.
Qed.

Lemma srt_loop_inv segs : forall i acc srt_lines,
  srt_loop i segs acc = Ok srt_lines ->
  exists blocks,
    srt_lines = acc ++ blocks /\
    length blocks = (4 * length segs)%nat /\
    forall k seg, segs !! k = Some seg ->
      exists t0 t1,
        format_srt_time (start seg) = Ok t0 /\
        format_srt_time (end_ seg) = Ok t1 /\
        blocks !! (4 * k)%nat = Some (Str.of_int (i + Z.of_nat k)) /\
        blocks !! (4 * k + 1)%nat = Some (t0 ++ Str.lit " --> " ++ t1) /\
        blocks !! (4 * k + 2)%nat = Some (Str.strip (text seg)) /\
        blocks !! (4 * k + 3)%nat = Some [].
Proof.
  induction segs as [|seg rest IH]; intros i acc srt_lines Hrun.
  - cbn in Hrun. injection Hrun as <-. exists []. rewrite app_nil_r.
    split; [reflexivity|]. split; [reflexivity|].
    intros k seg Hk. rewrite lookup_nil in Hk. discriminate.
  - cbn [srt_loop] in Hrun. cbv zeta in Hrun.
    destruct (format_srt_time (start seg)) as [t0|e0] eqn:H0; [|discriminate].
    destruct (format_srt_time (end_ seg)) as [t1|e1] eqn:H1; [|discriminate].
    cbn [mbind Result_bind] in Hrun.
    rewrite <- !app_assoc in Hrun. cbn [app] in Hrun.
    destruct (IH _ _ _ Hrun) as (blocks & -> & Hlen & Hblocks).
    exists ([Str.of_int i; t0 ++ Str.lit " --> " ++ t1; Str.strip (text seg); []]
            ++ blocks).
    split; [rewrite <- app_assoc; reflexivity|].
    split; [rewrite length_app; cbn [length]; lia|].
    intros [|k] seg' Hk.
    + injection Hk as <-. exists t0, t1. rewrite Z.add_0_r.
      repeat split; try assumption; reflexivity.
    + cbn in Hk. destruct (Hblocks k seg' Hk) as (u0 & u1 & Hu0 & Hu1 & Ha & Hb & Hc & Hd).
      exists u0, u1. split; [exact Hu0|]. split; [exact Hu1|].
      replace (i + Z.of_nat (S k)) with (i + 1 + Z.of_nat k) by lia.
      replace (4 * S k)%nat with (4 + 4 * k)%nat by lia.
      replace (4 + 4 * k + 1)%nat with (4 + (4 * k + 1))%nat by lia.
      replace (4 + 4 * k + 2)%nat with (4 + (4 * k + 2))%nat by lia.
      replace (4 + 4 * k + 3)%nat with (4 + (4 * k + 3))%nat by lia.
      repeat split; assumption.
Qed.

Lemma srt_loop_total segs : forall i acc,
  Forall (fun seg => exists t0 t1, format_srt_time (start seg) = Ok t0 /\
                                   format_srt_time (end_ seg) = Ok t1) segs ->
  exists srt_lines, srt_loop i segs acc = Ok srt_lines.
Proof.
  induction segs as [|seg rest IH]; intros i acc Hall.
  - eexists. reflexivity.
  - inversion Hall as [|? ? (t0 & t1 & H0 & H1) Hrest]; subst.
    cbn [srt_loop]. cbv zeta. rewrite H0, H1. cbn [mbind Result_bind].
    apply IH. exact Hrest.
Qed.

Ltac no_newline_step lem :=
  repeat match goal with
         | |- Forall _ (_ ++ _) => apply Forall_app; split
         | |- Forall _ (_ :: _) => apply List.Forall_cons; [discriminate|]
         | |- Forall _ [] => apply List.Forall_nil
         | |- Forall _ (Str.lit _) => cbn [Str.lit]
         | |- _ => apply lem
         end.

Lemma digits_no_newline n : no_newline (Str.digits n).
Proof.
  eapply Forall_impl; [apply StrFacts.digits_isdigit|].
  cbn. intros c Hc ->. discriminate Hc.
Qed.

Lemma of_int_no_newline z : no_newline (Str.of_int z).
Proof.
  unfold Str.of_int. destruct (z <? 0); [constructor; [discriminate|]|];
    apply digits_no_newline.
Qed.

Lemma format_0d_no_newline width z : no_newline (Str.format_0d width z).
Proof.
  unfold Str.format_0d, no_newline.
  destruct (z <? 0); [constructor; [discriminate|]|];
    (apply Forall_app; split; [|apply digits_no_newline]);
    apply Forall_replicate; discriminate.
Qed.

Lemma format_srt_time_no_newline t s :
  format_srt_time t = Ok s -> no_newline s.
Proof.
  unfold format_srt_time.
  destruct (Float.round _) as [ms|e]; [|discriminate].
  cbn [mbind Result_bind]. cbv zeta. intros [= <-]. unfold no_newline.
  no_newline_step format_0d_no_newline.
Qed.

Lemma srt_loop_no_newline segs : forall i acc srt_lines,
  srt_loop i segs acc = Ok srt_lines ->
  Forall no_newline acc ->
  Forall (fun seg => no_newline (Str.strip (text seg))) segs ->
  Forall no_newline srt_lines.
Proof.
  induction segs as [|seg rest IH]; intros i acc srt_lines Hrun Hacc Hsegs.
  - cbn in Hrun. injection Hrun as <-. exact Hacc.
  - cbn [srt_loop] in Hrun. cbv zeta in Hrun.
    destruct (format_srt_time (start seg)) as [t0|e0] eqn:H0; [|discriminate].
    destruct (format_srt_time (end_ seg)) as [t1|e1] eqn:H1; [|discriminate].
    cbn [mbind Result_bind] in Hrun.
    inversion Hsegs as [|? ? Hseg Hrest]; subst.
    apply (IH _ _ _ Hrun); [|exact Hrest].
    pose proof (format_srt_time_no_newline _ _ H0) as Ht0.
    pose proof (format_srt_time_no_newline _ _ H1) as Ht1.
    repeat (apply Forall_app; split); try exact Hacc;
      (apply List.Forall_cons; [|apply List.Forall_nil]).
    + apply of_int_no_newline.
    + unfold no_newline in *. no_newline_step Ht0; exact Ht1.
    + exact Hseg.
    + apply List.Forall_nil.
Qed.

(** Splitting on the separator gives back what was joined, when there
    is something to join and no item contains the separator. *)
Lemma split_no_sep sep s :
  Forall (fun c => c <> sep) s -> Str.split sep s = [s].
Proof.
  induction 1 as [|c s Hc Hs IH]; [reflexivity|].
  cbn [Str.split]. destruct (N.eqb_spec c sep); [contradiction|].
  rewrite IH. reflexivity.
Qed.

Lemma split_app_sep sep s rest :
  Forall (fun c => c <> sep) s ->
  Str.split sep (s ++ sep :: rest) = s :: Str.split sep rest.
Proof.
  induction 1 as [|c s Hc Hs IH].
  - cbn [app Str.split]. rewrite N.eqb_refl. reflexivity.
  - cbn [app Str.split]. destruct (N.eqb_spec c sep); [contradiction|].
    rewrite IH. reflexivity.
Qed.

Lemma split_join sep items :
  items <> [] ->
  Forall (Forall (fun c => c <> sep)) items ->
  Str.split sep (Str.join [sep] items) = items.
Proof.
  intros Hne Hall. induction Hall as [|x items Hx Hall IH]; [congruence|].
  destruct items as [|y items].
  - cbn [Str.join]. apply split_no_sep. exact Hx.
  - change (Str.join [sep] (x :: y :: items))
      with (x ++ sep :: Str.join [sep] (y :: items)).
    rewrite split_app_sep by exact Hx. rewrite IH by discriminate.
    reflexivity.
Qed.

Lemma split_nonempty sep s : Str.split sep s <> [].
Proof.
  destruct s as [|c s]; cbn [Str.split]; [discriminate|].
  destruct (c =? sep)%N; [discriminate|].
  destruct (Str.split sep s); discriminate.
Qed.

Lemma split_app sep s rest :
  Str.split sep (s ++ sep :: rest) = Str.split sep s ++ Str.split sep rest.
Proof.
  induction s as [|c s IH].
  - cbn [app Str.split]. rewrite N.eqb_refl. reflexivity.
  - cbn [app Str.split]. rewrite IH.
    destruct (c =? sep)%N; [reflexivity|].
    pose proof (split_nonempty sep s) as Hne.
    destruct (Str.split sep s) as [|w ws]; [congruence|reflexivity].
Qed.

(** Cutting a join at its separators gives the pieces of every item,
    in order. *)
Lemma split_join_concat sep items :
  items <> [] ->
  Str.split sep (Str.join [sep] items) = concat (List.map (Str.split sep) items).
Proof.
  intros Hne. induction items as [|x items IH]; [congruence|].
  destruct items as [|y items].
  - cbn [Str.join List.map concat]. rewrite app_nil_r. reflexivity.
  - change (Str.join [sep] (x :: y :: items))
      with (x ++ sep :: Str.join [sep] (y :: items)).
    rewrite split_app, IH by discriminate. reflexivity.
Qed.

(** C4, amended. When the subtitle lines are rendered for a segment
    list, [srt_lines] has exactly four entries per segment, in the
    order of the list and whatever the trimmed text is: for the segment
    at position [k] (from 0), the decimal index [k + 1], the timing line
    [<formatted start> --> <formatted end>], the trimmed text and an
    empty string.  The artifact is these entries joined by newlines:
    when no trimmed text has a newline inside, its lines are these
    entries, four per segment; in general its lines are the lines of
    the entries, so that a trimmed text with newlines inside takes
    several. *)
Theorem srt_artifact_blocks (segs : list Segment) (srt_lines : list pystr) :
  render_srt_lines segs = Ok srt_lines ->
  length srt_lines = (4 * length segs)%nat /\
  (forall k seg, segs !! k = Some seg ->
    exists t0 t1,
      format_srt_time (start seg) = Ok t0 /\
      format_srt_time (end_ seg) = Ok t1 /\
      srt_lines !! (4 * k)%nat = Some (Str.of_int (Z.of_nat k + 1)) /\
      Str.decimal (Str.of_int (Z.of_nat k + 1)) (Z.of_nat k + 1) /\
      srt_lines !! (4 * k + 1)%nat = Some (t0 ++ Str.lit " --> " ++ t1) /\
      srt_lines !! (4 * k + 2)%nat = Some (Str.strip (text seg)) /\
      srt_lines !! (4 * k + 3)%nat = Some []) /\
  (segs <> [] ->
   Forall (fun seg => no_newline (Str.strip (text seg))) segs ->
   Str.split Str.LF (Str.join [Str.LF] srt_lines) = srt_lines) /\
  (segs <> [] ->
   Str.split Str.LF (Str.join [Str.LF] srt_lines)
   = concat (List.map (Str.split Str.LF) srt_lines)).
Proof.
  intros Hrun. unfold render_srt_lines in Hrun.
  pose proof (srt_loop_no_newline _ _ _ _ Hrun (List.Forall_nil _)) as Hnl.
  destruct (srt_loop_inv _ _ _ _ Hrun) as (blocks & -> & Hlen & Hblocks).
  cbn [app] in *. split; [exact Hlen|]. split; [|split].
  - intros k seg Hk.
    destruct (Hblocks k seg Hk) as (t0 & t1 & H0 & H1 & Ha & Hb & Hc & Hd).
    exists t0, t1. rewrite (Z.add_comm (Z.of_nat k) 1).
    pose proof (of_int_decimal (1 + Z.of_nat k) ltac:(lia)) as Hidx.
    repeat split; try assumption; apply Hidx.
  - intros Hne Htexts. apply split_join; [|apply Hnl; exact Htexts].
    intros ->. destruct segs; [congruence|discriminate Hlen].
  - intros Hne. apply split_join_concat.
    intros ->. destruct segs; [congruence|discriminate Hlen].
Qed.

(** C4, as worded for the lines of the artifact, fails for a segment
    whose trimmed text has a newline inside: one segment gives four
    entries, but the artifact has five lines; the third is only the
    beginning of the trimmed text and the fourth is not blank. *)
Lemma srt_artifact_inner_newline :
  Str.strip (text Cases.seg_two_lines) = Str.lit "a" ++ [Str.LF] ++ Str.lit "b" /\
  render_srt_lines [Cases.seg_two_lines]
  = Ok [Str.lit "1"; Str.lit "00:00:04,000 --> 00:00:05,000";
        Str.lit "a" ++ [Str.LF] ++ Str.lit "b"; []] /\
  Str.split Str.LF
    (Str.join [Str.LF]
       [Str.lit "1"; Str.lit "00:00:04,000 --> 00:00:05,000";
        Str.lit "a" ++ [Str.LF] ++ Str.lit "b"; []])
  = [Str.lit "1"; Str.lit "00:00:04,000 --> 00:00:05,000";
     Str.lit "a"; Str.lit "b"; []].
Proof. vm_compute. repeat split; reflexivity. Qed.

(** ** Paths: replacing the extension *)

Module PathFacts.
Import PurePath.

Lemma name_stem_suffix nm : nm = stem_of_name nm ++ suffix_of_name nm.
Proof.
  unfold stem_of_name, suffix_of_name.
  destruct ((0 <? rfind Str.DOT nm) && (rfind Str.DOT nm <? Z.of_nat (length nm) - 1)).
  - symmetry. apply take_drop.
  - symmetry. apply app_nil_r.
Qed.

Lemma with_suffix_stem p sfx :
  valid_suffix sfx = true -> name p <> [] ->
  with_suffix p sfx = Ok (removelast p ++ [stem p ++ sfx]).
Proof.
  unfold valid_suffix, with_suffix. intros Hv Hname.
  apply andb_true_iff in Hv as [Hv Hdot].
  apply andb_true_iff in Hv as [Hslash Hstart].
  apply negb_true_iff in Hslash, Hdot. rewrite Hslash, Hstart, Hdot.
  rewrite andb_false_r. cbn [orb].
  destruct (name p) as [|c nm] eqn:Hn; [congruence|].
  cbn [Str.truthy negb]. unfold stem. rewrite Hn.
  unfold stem_of_name, suffix_of_name.
  destruct ((0 <? rfind Str.DOT (c :: nm))
            && (rfind Str.DOT (c :: nm) <? Z.of_nat (length (c :: nm)) - 1)) eqn:Hi.
  - apply andb_true_iff in Hi as [Hi1 Hi2].
    apply Z.ltb_lt in Hi1, Hi2.
    destruct (drop (Z.to_nat (rfind Str.DOT (c :: nm))) (c :: nm)) as [|d r] eqn:Hd.
    + apply (f_equal (@length N)) in Hd. rewrite length_drop in Hd.
      cbn [length] in *. lia.
    + cbn [Str.truthy negb]. rewrite <- Hd, length_drop.
      replace (length (c :: nm) - (length (c :: nm) - Z.to_nat (rfind Str.DOT (c :: nm))))%nat
        with (Z.to_nat (rfind Str.DOT (c :: nm))) by lia.
      reflexivity.
  - reflexivity.
Qed.

Lemma with_suffix_name p sfx q : with_suffix p sfx = Ok q -> name p <> [].
Proof.
  unfold with_suffix.
  destruct (existsb _ sfx); [discriminate|].
  destruct (_ || _); [discriminate|].
  destruct (name p); [discriminate|]. discriminate.
Qed.

Lemma name_nonempty_path p : name p <> [] -> p <> [].
Proof. intros H ->. apply H. reflexivity. Qed.

(** Replacing the suffix by itself gives the path back. *)
Lemma replace_same_suffix p :
  name p <> [] -> removelast p ++ [stem p ++ suffix p] = p.
Proof.
  intros Hn. unfold stem, suffix. rewrite <- name_stem_suffix.
  symmetry. apply app_removelast_last. apply name_nonempty_path. exact Hn.
Qed.

(** Two different suffixes give two different paths. *)
Lemma replace_suffix_inj p sfx1 sfx2 :
  removelast p ++ [stem p ++ sfx1] = removelast p ++ [stem p ++ sfx2] ->
  sfx1 = sfx2.
Proof.
  intros H. apply app_inv_head in H. injection H as H.
  apply app_inv_head in H. exact H.
Qed.

End PathFacts.

(** ** The run of [main], step by step *)

(** A failed write raises, records nothing, and touches no other
    path. *)
Lemma failed_write_shape fault p w :
  exists files e, failed_write fault p w = (mkWorld files (trace w), Raise e).
Proof. destruct fault, w; eexists; eexists; reflexivity. Qed.

Lemma failed_write_not_ok fault p w w' : failed_write fault p w <> (w', Ok tt).
Proof. destruct fault; discriminate. Qed.

Lemma failed_write_frame fault p w q :
  q <> p -> fs (fst (failed_write fault p w)) !! q = fs w !! q.
Proof.
  intros Hne. destruct fault; cbn [failed_write fst fs];
    [reflexivity|apply lookup_insert_ne; congruence..].
Qed.

(** In a goal about a failed write: its world and its exception. *)
Ltac failed_write_case :=
  match goal with
  | |- context [failed_write ?f ?p ?w0] =>
      let files := fresh "files" in
      let e := fresh "e" in
      let H := fresh "Hfw" in
      destruct (failed_write_shape f p w0) as (files & e & H);
      rewrite H; cbn [trace]
  end.

Section PipelineFacts.

Variable ffmpeg :
  list pystr -> gmap Path pystr -> option (gmap Path pystr * bool).
Variable load_model : pystr -> bool.
Variable recognise :
  pystr -> option pystr -> option pystr -> option (Stream * TranscriptionInfo).
Variable io_fault : Path -> pystr -> bool.
Variable io_failure : Path -> pystr -> WriteFault.
Variable float_repr : pyfloat -> pystr.

#[local] Abbreviation main' := (main ffmpeg load_model recognise io_fault io_failure float_repr).
#[local] Abbreviation export' := (export io_fault io_failure float_repr).

(** Every way [main] can go, up to the export steps. *)
Lemma main_run (args : Args) (w : World) :
  main' args w =
  match fs w !! audio args with
  | None => (w, Raise FileNotFoundError)
  | Some _ =>
      match PurePath.with_suffix (audio args) (Str.lit ".16k_mono.wav") with
      | Raise e => (w, Raise e)
      | Ok wav =>
          let cmd := ffmpeg_cmd (audio args) wav in
          let t1 := trace w ++ [EvRun cmd] in
          match ffmpeg cmd (fs w) with
          | None => (w, Raise FileNotFoundError)
          | Some (fs1, false) => (mkWorld fs1 t1, Raise CalledProcessError)
          | Some (fs1, true) =>
              let t2 := t1 ++ [EvLoadModel (model args)] in
              if load_model (model args) then
                let t3 := t2 ++ [EvTranscribe (PurePath.to_str wav) 5 true
                                   (language args)] in
                match recognise (model args) (fs1 !! wav) (language args) with
                | None => (mkWorld fs1 t3, Raise ModelError)
                | Some (segments, info) =>
                    let segs := yielded segments in
                    let t4 := t3 ++ progress_events info segs in
                    if exhausted segments
                    then export' args info segs wav (mkWorld fs1 t4)
                    else (mkWorld fs1 t4, Raise ModelError)
                end
              else (mkWorld fs1 t2, Raise ModelError)
          end
      end
  end.
Proof.
  unfold main, path_exists, to_wav_16k_mono, run, WhisperModel, transcribe.
  unfold mbind, M_bind, mret, M_ret, lift, raise, emit. cbn [fs trace].
  destruct (fs w !! audio args) as [content|] eqn:Hin.
  - rewrite bool_decide_true by (exists content; reflexivity). cbn [negb].
    destruct (PurePath.with_suffix (audio args) (Str.lit ".16k_mono.wav"))
      as [wav|e]; [|reflexivity].
    fold (ffmpeg_cmd (audio args) wav). cbv zeta.
    destruct (ffmpeg (ffmpeg_cmd (audio args) wav) (fs w)) as [[fs1 [|]]|];
      [|reflexivity..].
    cbn [fs trace].
    destruct (load_model (model args)); [|reflexivity].
    cbn [fs trace].
    destruct (recognise (model args) (fs1 !! wav) (language args))
      as [[segments info]|]; [|reflexivity].
    fold (total_duration info). unfold progress_events.
    destruct (Float.ltb Float.zero (total_duration info)).
    + rewrite drain_progress_run. cbn [fs trace app].
      rewrite updates_from_increments. fold covered_from.
      destruct (exhausted segments); reflexivity.
    + rewrite drain_run. rewrite app_nil_r.
      destruct (exhausted segments); reflexivity.
  - rewrite bool_decide_false by (intros [x Hx]; discriminate). reflexivity.
Qed.

Lemma with_suffix_output input sfx :
  PurePath.valid_suffix sfx = true -> PurePath.name input <> [] ->
  PurePath.with_suffix input sfx = Ok (output_path input sfx).
Proof. apply PathFacts.with_suffix_stem. Qed.

(** Every way the export steps can go, for an input with a name. *)
Lemma export_run (args : Args) (info : TranscriptionInfo)
    (segs : list Segment) (wav : Path) (w : World) :
  PurePath.name (audio args) <> [] ->
  let out_txt := output_path (audio args) (Str.lit ".txt") in
  let out_srt := output_path (audio args) (Str.lit ".srt") in
  let out_json := output_path (audio args) (Str.lit ".json") in
  let text := render_text segs in
  let json := Json.dumps float_repr (render_data info args segs) in
  export' args info segs wav w =
  if io_fault out_txt text
  then failed_write (io_failure out_txt text) out_txt w
  else
    let fs1 := <[out_txt := text]> (fs w) in
    let t1 := trace w ++ [EvWrite out_txt text] in
    match render_srt_lines segs with
    | Raise e => (mkWorld fs1 t1, Raise e)
    | Ok srt_lines =>
        let srt := Str.join [Str.LF] srt_lines in
        if io_fault out_srt srt
        then failed_write (io_failure out_srt srt) out_srt (mkWorld fs1 t1)
        else
          let fs2 := <[out_srt := srt]> fs1 in
          let t2 := t1 ++ [EvWrite out_srt srt] in
          if io_fault out_json json
          then failed_write (io_failure out_json json) out_json (mkWorld fs2 t2)
          else (mkWorld (<[out_json := json]> fs2)
                  (t2 ++ EvWrite out_json json
                      :: final_prints args info out_txt out_srt out_json wav),
                Ok tt)
    end.
Proof.
  intros Hname. cbv zeta. unfold export.
  rewrite !with_suffix_output by (reflexivity || exact Hname).
  unfold write_text, print, emit, lift, mbind, M_bind. cbn [fs trace].
  destruct (io_fault _ (render_text segs));
    [destruct (io_failure _ (render_text segs)); reflexivity|].
  destruct (render_srt_lines segs) as [srt_lines|e]; [|reflexivity].
  destruct (io_fault _ (Str.join [Str.LF] srt_lines));
    [destruct (io_failure _ (Str.join [Str.LF] srt_lines)); reflexivity|].
  cbn [fs trace].
  destruct (io_fault _ (Json.dumps float_repr _));
    [destruct (io_failure _ (Json.dumps float_repr _)); reflexivity|].
  cbn [fs trace]. unfold final_prints.
  rewrite <- !app_assoc. reflexivity.
Qed.

(** What an export that ends normally has done. *)
Lemma export_ok args info segs wav w w' :
  PurePath.name (audio args) <> [] ->
  export' args info segs wav w = (w', Ok tt) ->
  let out_txt := output_path (audio args) (Str.lit ".txt") in
  let out_srt := output_path (audio args) (Str.lit ".srt") in
  let out_json := output_path (audio args) (Str.lit ".json") in
  let text := render_text segs in
  let json := Json.dumps float_repr (render_data info args segs) in
  exists srt_lines,
    render_srt_lines segs = Ok srt_lines /\
    let srt := Str.join [Str.LF] srt_lines in
    fs w' = <[out_json := json]> (<[out_srt := srt]> (<[out_txt := text]> (fs w))) /\
    trace w' = trace w ++ [EvWrite out_txt text; EvWrite out_srt srt;
                           EvWrite out_json json]
                       ++ final_prints args info out_txt out_srt out_json wav.
Proof.
  intros Hname Hrun. rewrite export_run in Hrun by exact Hname.
  cbv zeta in *.
  destruct (io_fault _ (render_text segs));
    [destruct (failed_write_not_ok _ _ _ _ Hrun)|].
  destruct (render_srt_lines segs) as [srt_lines|e]; [|discriminate].
  destruct (io_fault _ (Str.join [Str.LF] srt_lines));
    [destruct (failed_write_not_ok _ _ _ _ Hrun)|].
  destruct (io_fault _ (Json.dumps float_repr _));
    [destruct (failed_write_not_ok _ _ _ _ Hrun)|].
  injection Hrun as <-. exists srt_lines. split; [reflexivity|].
  cbn [fs trace]. split; [reflexivity|].
  rewrite <- !app_assoc. reflexivity.
Qed.

(** However the export steps end, they touch no path other than the
    three artifact paths. *)
Lemma export_fs_frame args info segs wav w p :
  PurePath.name (audio args) <> [] ->
  p <> output_path (audio args) (Str.lit ".txt") ->
  p <> output_path (audio args) (Str.lit ".srt") ->
  p <> output_path (audio args) (Str.lit ".json") ->
  fs (fst (export' args info segs wav w)) !! p = fs w !! p.
Proof.
  intros Hname Htxt Hsrt Hjson. rewrite export_run by exact Hname.
  cbv zeta.
  destruct (io_fault _ (render_text segs));
    [apply failed_write_frame; exact Htxt|].
  destruct (render_srt_lines segs) as [srt_lines|e];
    [|cbn [fst fs]; rewrite lookup_insert_ne by congruence; reflexivity].
  destruct (io_fault _ (Str.join [Str.LF] srt_lines));
    [rewrite failed_write_frame by exact Hsrt; cbn [fs];
     rewrite lookup_insert_ne by congruence; reflexivity|].
  destruct (io_fault _ (Json.dumps float_repr _));
    [rewrite failed_write_frame by exact Hjson|]; cbn [fst fs];
    rewrite !lookup_insert_ne by congruence; reflexivity.
Qed.

(** A run that ends normally: what happened on the way. *)
Lemma main_ok args w w' :
  main' args w = (w', Ok tt) ->
  let input := audio args in
  let wav := output_path input (Str.lit ".16k_mono.wav") in
  let out_txt := output_path input (Str.lit ".txt") in
  let out_srt := output_path input (Str.lit ".srt") in
  let out_json := output_path input (Str.lit ".json") in
  exists fs1 segments info srt_lines,
    is_Some (fs w !! input) /\
    PurePath.name input <> [] /\
    ffmpeg (ffmpeg_cmd input wav) (fs w) = Some (fs1, true) /\
    load_model (model args) = true /\
    recognise (model args) (fs1 !! wav) (language args) = Some (segments, info) /\
    exhausted segments = true /\
    let segs := yielded segments in
    render_srt_lines segs = Ok srt_lines /\
    let text := render_text segs in
    let srt := Str.join [Str.LF] srt_lines in
    let json := Json.dumps float_repr (render_data info args segs) in
    fs w' = <[out_json := json]> (<[out_srt := srt]> (<[out_txt := text]> fs1)) /\
    trace w' = trace w
               ++ [EvRun (ffmpeg_cmd input wav); EvLoadModel (model args);
                   EvTranscribe (PurePath.to_str wav) 5 true (language args)]
               ++ progress_events info segs
               ++ [EvWrite out_txt text; EvWrite out_srt srt; EvWrite out_json json]
               ++ final_prints args info out_txt out_srt out_json wav.
Proof.
  intros Hrun. rewrite main_run in Hrun. cbv zeta.
  destruct (fs w !! audio args) as [content|] eqn:Hin; [|discriminate].
  destruct (PurePath.with_suffix (audio args) (Str.lit ".16k_mono.wav"))
    as [wav|e] eqn:Hwav; [|discriminate].
  pose proof (PathFacts.with_suffix_name _ _ _ Hwav) as Hname.
  rewrite with_suffix_output in Hwav by (reflexivity || exact Hname).
  injection Hwav as <-. cbv zeta in Hrun.
  destruct (ffmpeg _ (fs w)) as [[fs1 [|]]|] eqn:Hff; [|discriminate..].
  destruct (load_model (model args)) eqn:Hload; [|discriminate].
  destruct (recognise (model args) _ (language args)) as [[segments info]|] eqn:Hrec;
    [|discriminate].
  destruct (exhausted segments) eqn:Hex; [|discriminate].
  apply export_ok in Hrun; [|exact Hname].
  destruct Hrun as (srt_lines & Hsrt & Hfs & Htr). cbn [fs trace] in Hfs, Htr.
  exists fs1, segments, info, srt_lines.
  repeat (split; [first [eexists; reflexivity | assumption | reflexivity]|]).
  rewrite Htr, <- !app_assoc. reflexivity.
Qed.

Lemma output_path_inj input sfx1 sfx2 :
  output_path input sfx1 = output_path input sfx2 -> sfx1 = sfx2.
Proof. apply PathFacts.replace_suffix_inj. Qed.

Lemma output_path_ne input sfx1 sfx2 :
  sfx1 <> sfx2 -> output_path input sfx1 <> output_path input sfx2.
Proof. intros Hne Heq. apply Hne. exact (output_path_inj _ _ _ Heq). Qed.

(** The three files after the three writes. *)
Lemma exported_lookup (input : Path) (text srt json : pystr)
    (fs1 : gmap Path pystr) :
  let fs3 := <[output_path input (Str.lit ".json") := json]>
               (<[output_path input (Str.lit ".srt") := srt]>
                  (<[output_path input (Str.lit ".txt") := text]> fs1)) in
  fs3 !! output_path input (Str.lit ".txt") = Some text /\
  fs3 !! output_path input (Str.lit ".srt") = Some srt /\
  fs3 !! output_path input (Str.lit ".json") = Some json /\
  forall p,
    p <> output_path input (Str.lit ".txt") ->
    p <> output_path input (Str.lit ".srt") ->
    p <> output_path input (Str.lit ".json") ->
    fs3 !! p = fs1 !! p.
Proof.
  cbv zeta. repeat split.
  - rewrite !lookup_insert_ne by (apply output_path_ne; discriminate).
    apply lookup_insert_eq.
  - rewrite lookup_insert_ne by (apply output_path_ne; discriminate).
    apply lookup_insert_eq.
  - apply lookup_insert_eq.
  - intros p H1 H2 H3. rewrite !lookup_insert_ne by congruence. reflexivity.
Qed.

(** ** C5: no segments *)

(** C5. When the stream yields no segment and ends normally (the input
    exists, the decoder and the model succeed, no write fails), [main]
    ends without an exception, with exit status 0; the text file is
    empty, the subtitle file is empty (no block), and the structured
    file is the serialized object whose ["segments"] is the empty
    list. *)
Theorem empty_segments_run (args : Args) (w : World)
    (fs1 : gmap Path pystr) (segments : Stream) (info : TranscriptionInfo) :
  let input := audio args in
  let wav := output_path input (Str.lit ".16k_mono.wav") in
  is_Some (fs w !! input) ->
  PurePath.name input <> [] ->
  ffmpeg (ffmpeg_cmd input wav) (fs w) = Some (fs1, true) ->
  load_model (model args) = true ->
  recognise (model args) (fs1 !! wav) (language args) = Some (segments, info) ->
  exhausted segments = true ->
  yielded segments = [] ->
  (forall p data, io_fault p data = false) ->
  exists w',
    main' args w = (w', Ok tt) /\
    exit_status (snd (main' args w)) = 0 /\
    fs w' !! output_path input (Str.lit ".txt") = Some [] /\
    fs w' !! output_path input (Str.lit ".srt") = Some [] /\
    render_srt_lines (yielded segments) = Ok [] /\
    fs w' !! output_path input (Str.lit ".json")
    = Some (Json.dumps float_repr
              (JDict [(Str.lit "detected_language",
                       json_of_option JStr (info_language info));
                      (Str.lit "duration",
                       json_of_option JFloat (info_duration info));
                      (Str.lit "model", JStr (model args));
                      (Str.lit "segments", JList [])])).
Proof.
  cbv zeta. intros [content Hin] Hname Hff Hload Hrec Hex Hnone Hio.
  rewrite main_run, Hin.
  rewrite with_suffix_output by (reflexivity || exact Hname).
  cbv zeta. rewrite Hff, Hload, Hrec, Hex, Hnone.
  rewrite export_run by exact Hname. cbv zeta.
  rewrite !Hio. cbn [render_srt_lines srt_loop]. rewrite !Hio.
  eexists. split; [reflexivity|]. split; [reflexivity|].
  cbn [fs].
  pose proof (exported_lookup (audio args) (render_text []) (Str.join [Str.LF] [])
                (Json.dumps float_repr (render_data info args [])) fs1)
    as (Htxt & Hsrt & Hjson & _).
  split; [exact Htxt|]. split; [exact Hsrt|]. split; [reflexivity|exact Hjson].
Qed.

(** ** C7: missing input *)

(** C7. If the input file does not exist, [main] raises
    [FileNotFoundError] (the usage error of the specification; exit
    status 1) and leaves the world as it was: no subprocess was
    started, no model was loaded or invoked, no file was created. *)
Theorem missing_input_fails (args : Args) (w : World) :
  fs w !! audio args = None ->
  main' args w = (w, Raise FileNotFoundError) /\
  exit_status (snd (main' args w)) <> 0.
Proof.
  intros Hin. rewrite main_run, Hin. split; [reflexivity|discriminate].
Qed.

(** ** C8: model failure *)

Lemma progress_events_no_write info segs :
  forallb (fun ev => negb (is_write ev)) (progress_events info segs) = true.
Proof.
  unfold progress_events.
  destruct (Float.ltb Float.zero (total_duration info)); [|reflexivity].
  apply forallb_forall. intros ev Hev. apply in_map_iff in Hev.
  destruct Hev as (k & <- & _). reflexivity.
Qed.

(** C8. If the model fails to load, or [transcribe] raises, or the
    segment generator raises before it is exhausted, [main] ends with
    that exception, the files are as the decoder left them, and no
    write happened. *)
Theorem model_failure_no_export (args : Args) (w : World)
    (fs1 : gmap Path pystr) :
  let input := audio args in
  let wav := output_path input (Str.lit ".16k_mono.wav") in
  is_Some (fs w !! input) ->
  PurePath.name input <> [] ->
  ffmpeg (ffmpeg_cmd input wav) (fs w) = Some (fs1, true) ->
  (load_model (model args) = false \/
   (load_model (model args) = true /\
    recognise (model args) (fs1 !! wav) (language args) = None) \/
   (load_model (model args) = true /\
    exists segments info,
      recognise (model args) (fs1 !! wav) (language args) = Some (segments, info) /\
      exhausted segments = false)) ->
  exists w' evs,
    main' args w = (w', Raise ModelError) /\
    exit_status (snd (main' args w)) <> 0 /\
    fs w' = fs1 /\
    trace w' = trace w ++ evs /\
    forallb (fun ev => negb (is_write ev)) evs = true.
Proof.
  cbv zeta. intros [content Hin] Hname Hff Hcase.
  rewrite main_run, Hin.
  rewrite with_suffix_output by (reflexivity || exact Hname).
  cbv zeta. rewrite Hff.
  destruct Hcase as [Hload|[[Hload Hrec]|(Hload & segments & info & Hrec & Hex)]];
    rewrite Hload; try rewrite Hrec; try rewrite Hex;
    eexists; eexists;
    (split; [reflexivity|]); (split; [discriminate|]);
    (split; [reflexivity|]); cbn [trace];
    (split; [rewrite <- !app_assoc; reflexivity|]).
  - reflexivity.
  - reflexivity.
  - cbn [forallb is_write negb andb app]. apply progress_events_no_write.
Qed.

(** Every write of a run comes after the model has returned its
    metadata and the segment generator is exhausted. *)
Lemma writes_after_segments (args : Args) (w : World) (evs : list Event) :
  trace (fst (main' args w)) = trace w ++ evs ->
  existsb is_write evs = true ->
  exists fs1 segments info,
    ffmpeg (ffmpeg_cmd (audio args)
              (output_path (audio args) (Str.lit ".16k_mono.wav"))) (fs w)
    = Some (fs1, true) /\
    recognise (model args)
      (fs1 !! output_path (audio args) (Str.lit ".16k_mono.wav")) (language args)
    = Some (segments, info) /\
    exhausted segments = true.
Proof.
  intros Htr Hw. rewrite main_run in Htr.
  assert (forall b (evs' : list Event),
             trace w ++ evs' = trace w ++ evs ->
             forallb (fun ev => negb (is_write ev)) evs' = true -> b) as Hno.
  { intros b evs' Heq Hall. apply app_inv_head in Heq. subst evs'.
    exfalso. apply existsb_exists in Hw as (ev & Hev & Hwr).
    rewrite forallb_forall in Hall. specialize (Hall ev Hev).
    rewrite Hwr in Hall. discriminate. }
  destruct (fs w !! audio args) as [content|] eqn:Hin;
    [|apply (Hno _ []); [cbn [fst trace]; rewrite app_nil_r; exact Htr|reflexivity]].
  destruct (PurePath.with_suffix (audio args) (Str.lit ".16k_mono.wav"))
    as [wav|e] eqn:Hwav;
    [|apply (Hno _ []); [cbn [fst trace]; rewrite app_nil_r; exact Htr|reflexivity]].
  pose proof (PathFacts.with_suffix_name _ _ _ Hwav) as Hname.
  rewrite with_suffix_output in Hwav by (reflexivity || exact Hname).
  injection Hwav as <-. cbv zeta in Htr.
  destruct (ffmpeg _ (fs w)) as [[fs1 [|]]|] eqn:Hff;
    [|eapply Hno; [cbn [fst trace] in Htr; exact Htr|reflexivity]
     |apply (Hno _ []); [cbn [fst trace]; rewrite app_nil_r; exact Htr|reflexivity]].
  destruct (load_model (model args));
    [|eapply Hno; [cbn [fst trace] in Htr; rewrite <- !app_assoc in Htr; exact Htr
                  |reflexivity]].
  destruct (recognise (model args) _ (language args)) as [[segments info]|] eqn:Hrec;
    [|eapply Hno; [cbn [fst trace] in Htr; rewrite <- !app_assoc in Htr; exact Htr
                  |reflexivity]].
  destruct (exhausted segments) eqn:Hex.
  - exists fs1, segments, info. repeat split; assumption || reflexivity.
  - eapply Hno; [cbn [fst trace] in Htr; rewrite <- !app_assoc in Htr; exact Htr|].
    cbn [forallb is_write negb andb app]. apply progress_events_no_write.
Qed.

(** ** C9: the [--keep_wav] flag *)

(** Whatever happens after the decoder has run, [main] leaves the
    waveform file as the decoder left it. *)
Lemma wav_retained (args : Args) (w : World) (fs1 : gmap Path pystr)
    (ok : bool) :
  let input := audio args in
  let wav := output_path input (Str.lit ".16k_mono.wav") in
  is_Some (fs w !! input) ->
  PurePath.name input <> [] ->
  ffmpeg (ffmpeg_cmd input wav) (fs w) = Some (fs1, ok) ->
  fs (fst (main' args w)) !! wav = fs1 !! wav.
Proof.
  cbv zeta. intros [content Hin] Hname Hff.
  rewrite main_run, Hin.
  rewrite with_suffix_output by (reflexivity || exact Hname).
  cbv zeta. rewrite Hff. destruct ok; [|reflexivity].
  destruct (load_model (model args)); [|reflexivity].
  destruct (recognise (model args) _ (language args)) as [[segments info]|];
    [|reflexivity].
  destruct (exhausted segments); [|reflexivity].
  rewrite export_fs_frame;
    [reflexivity|exact Hname|apply output_path_ne; discriminate..].
Qed.

(** C9. Two runs that differ only in [--keep_wav] are the same run:
    same actions, same files, same outcome; and in both the waveform
    file is, at the end, as the decoder left it. *)
Theorem keep_wav_no_effect (input : Path) (m : pystr) (l : option pystr)
    (w : World) :
  main' (mkArgs input m l true) w = main' (mkArgs input m l false) w /\
  forall (b : bool) (fs1 : gmap Path pystr) (ok : bool),
    let wav := output_path input (Str.lit ".16k_mono.wav") in
    is_Some (fs w !! input) ->
    PurePath.name input <> [] ->
    ffmpeg (ffmpeg_cmd input wav) (fs w) = Some (fs1, ok) ->
    fs (fst (main' (mkArgs input m l b) w)) !! wav = fs1 !! wav.
Proof.
  split; [reflexivity|].
  intros b fs1 ok wav Hin Hname Hff.
  exact (wav_retained (mkArgs input m l b) w fs1 ok Hin Hname Hff).
Qed.

(** ** C10: output paths *)

Lemma output_path_same_suffix input :
  PurePath.name input <> [] ->
  output_path input (PurePath.suffix input) = input.
Proof. apply PathFacts.replace_same_suffix. Qed.

Lemma output_path_not_appended input sfx :
  PurePath.suffix input <> [] ->
  output_path input sfx <> removelast input ++ [PurePath.name input ++ sfx].
Proof.
  intros Hsfx Heq. unfold output_path in Heq.
  apply app_inv_head in Heq. injection Heq as Heq.
  apply (f_equal (@length N)) in Heq. rewrite !length_app in Heq.
  pose proof (PathFacts.name_stem_suffix (PurePath.name input)) as Hn.
  apply (f_equal (@length N)) in Hn. rewrite length_app in Hn.
  fold (PurePath.stem input) in Hn. fold (PurePath.suffix input) in Hn.
  destruct (PurePath.suffix input); [congruence|cbn [length] in Hn; lia].
Qed.

(** C10. After a run that ends normally, each artifact is at the
    input's path with the final suffix replaced: the name is the
    input's stem followed by [.txt], [.srt] or [.json], which for an
    input with a suffix is not the input's name followed by it.  So an
    input whose own suffix is one of the three is overwritten by the
    corresponding artifact.  Every path other than the three has the
    content the decoder left. *)
Theorem outputs_replace_extension (args : Args) (w w' : World) :
  main' args w = (w', Ok tt) ->
  let input := audio args in
  let wav := output_path input (Str.lit ".16k_mono.wav") in
  let out_txt := output_path input (Str.lit ".txt") in
  let out_srt := output_path input (Str.lit ".srt") in
  let out_json := output_path input (Str.lit ".json") in
  exists fs1 segments info srt_lines,
    ffmpeg (ffmpeg_cmd input wav) (fs w) = Some (fs1, true) /\
    recognise (model args) (fs1 !! wav) (language args) = Some (segments, info) /\
    render_srt_lines (yielded segments) = Ok srt_lines /\
    let text := render_text (yielded segments) in
    let srt := Str.join [Str.LF] srt_lines in
    let json := Json.dumps float_repr (render_data info args (yielded segments)) in
    (PurePath.name input = PurePath.stem input ++ PurePath.suffix input /\
     PurePath.with_suffix input (Str.lit ".txt") = Ok out_txt /\
     PurePath.with_suffix input (Str.lit ".srt") = Ok out_srt /\
     PurePath.with_suffix input (Str.lit ".json") = Ok out_json /\
     (PurePath.suffix input <> [] ->
      forall sfx, output_path input sfx
                  <> removelast input ++ [PurePath.name input ++ sfx])) /\
    (fs w' !! out_txt = Some text /\
     fs w' !! out_srt = Some srt /\
     fs w' !! out_json = Some json) /\
    (PurePath.suffix input = Str.lit ".txt" ->
     out_txt = input /\ fs w' !! input = Some text) /\
    (PurePath.suffix input = Str.lit ".srt" ->
     out_srt = input /\ fs w' !! input = Some srt) /\
    (PurePath.suffix input = Str.lit ".json" ->
     out_json = input /\ fs w' !! input = Some json) /\
    (forall p, p <> out_txt -> p <> out_srt -> p <> out_json ->
               fs w' !! p = fs1 !! p).
Proof.
  intros Hrun. cbv zeta.
  destruct (main_ok args w w' Hrun)
    as (fs1 & segments & info & srt_lines & Hin & Hname & Hff & Hload & Hrec
        & Hex & Hsrt & Hfs & Htr).
  cbv zeta in Hfs.
  exists fs1, segments, info, srt_lines.
  split; [exact Hff|]. split; [exact Hrec|]. split; [exact Hsrt|].
  pose proof (exported_lookup (audio args) (render_text (yielded segments))
                (Str.join [Str.LF] srt_lines)
                (Json.dumps float_repr (render_data info args (yielded segments)))
                fs1) as Hlook.
  cbv zeta in Hlook. rewrite <- Hfs in Hlook.
  destruct Hlook as (Htxt & Hsrtf & Hjson & Hframe).
  split; [|split; [|split; [|split; [|split]]]].
  - split; [apply PathFacts.name_stem_suffix|].
    repeat (split; [apply with_suffix_output; [reflexivity|exact Hname]|]).
    intros Hsfx sfx. apply output_path_not_appended. exact Hsfx.
  - repeat split; assumption.
  - intros Hs. rewrite <- Hs at 1. rewrite output_path_same_suffix by exact Hname.
    split; [reflexivity|].
    rewrite <- (output_path_same_suffix (audio args) Hname) at 1.
    rewrite Hs. exact Htxt.
  - intros Hs. rewrite <- Hs at 1. rewrite output_path_same_suffix by exact Hname.
    split; [reflexivity|].
    rewrite <- (output_path_same_suffix (audio args) Hname) at 1.
    rewrite Hs. exact Hsrtf.
  - intros Hs. rewrite <- Hs at 1. rewrite output_path_same_suffix by exact Hname.
    split; [reflexivity|].
    rewrite <- (output_path_same_suffix (audio args) Hname) at 1.
    rewrite Hs. exact Hjson.
  - exact Hframe.
Qed.

End PipelineFacts.

(** ** C6: the structured artifact *)

Lemma map_lookup {A B} (f : A -> B) (l : list A) (k : nat) :
  List.map f l !! k = f <$> l !! k.
Proof.
  revert k. induction l as [|a l IH]; intros [|k]; try reflexivity.
  cbn. apply IH.
Qed.

(** A character that is neither a control character, nor the quote,
    nor the backslash is written as it is. *)
Lemma escape_char_plain c :
  (32 <= c)%N -> c <> 34%N -> c <> 92%N -> Json.escape_char c = [c].
Proof.
  intros Hc Hq Hb. unfold Json.escape_char.
  repeat match goal with
         | |- context [(c =? ?k)%N] => destruct (N.eqb_spec c k); [lia|]
         end.
  destruct (N.ltb_spec c 32); [lia|reflexivity].
Qed.

Lemma encode_basestring_plain s :
  Forall (fun c => (32 <= c)%N /\ c <> 34%N /\ c <> 92%N) s ->
  Json.encode_basestring s = Str.QUOTE :: s ++ [Str.QUOTE].
Proof.
  intros Hs. unfold Json.encode_basestring. do 2 f_equal.
  induction Hs as [|c s (Hc & Hq & Hb) Hs IH]; [reflexivity|].
  cbn [flat_map]. rewrite escape_char_plain, IH by assumption. reflexivity.
Qed.

(** C6. The structured artifact is the serialization of one object
    with the fields ["detected_language"], ["duration"], ["model"] and
    ["segments"], in that order; ["segments"] lists one object per
    segment, in order, with the fields ["start"], ["end"] and ["text"]
    holding the segment's start, its end and its trimmed text.  It is
    written on several lines, with two spaces of indentation, and every
    character above U+007F of a string is written as it is. *)
Theorem structured_artifact (float_repr : pyfloat -> pystr)
    (info : TranscriptionInfo) (args : Args) (segs : list Segment) :
  let data := render_data info args segs in
  let language_value := json_of_option JStr (info_language info) in
  let duration_value := json_of_option JFloat (info_duration info) in
  exists entries,
    data = JDict [(Str.lit "detected_language", language_value);
                  (Str.lit "duration", duration_value);
                  (Str.lit "model", JStr (model args));
                  (Str.lit "segments", JList entries)] /\
    length entries = length segs /\
    (forall k seg, segs !! k = Some seg ->
       entries !! k
       = Some (JDict [(Str.lit "start", JFloat (start seg));
                      (Str.lit "end", JFloat (end_ seg));
                      (Str.lit "text", JStr (Str.strip (text seg)))])) /\
    Json.dumps float_repr data
    = Str.lit "{" ++ Str.LF :: Str.lit "  "
      ++ Json.encode_basestring (Str.lit "detected_language") ++ Str.lit ": "
      ++ Json.iterencode float_repr 1 language_value
      ++ Str.COMMA :: Str.LF :: Str.lit "  "
      ++ Json.encode_basestring (Str.lit "duration") ++ Str.lit ": "
      ++ Json.iterencode float_repr 1 duration_value
      ++ Str.COMMA :: Str.LF :: Str.lit "  "
      ++ Json.encode_basestring (Str.lit "model") ++ Str.lit ": "
      ++ Json.encode_basestring (model args)
      ++ Str.COMMA :: Str.LF :: Str.lit "  "
      ++ Json.encode_basestring (Str.lit "segments") ++ Str.lit ": "
      ++ Json.iterencode float_repr 1 (JList entries)
      ++ Str.LF :: Str.lit "}" /\
    (forall c, (128 <= c)%N -> Json.escape_char c = [c]) /\
    (forall s, Forall (fun c => (128 <= c)%N) s ->
               Json.encode_basestring s = Str.QUOTE :: s ++ [Str.QUOTE]).
Proof.
  cbv zeta. exists (List.map segment_entry segs).
  split; [reflexivity|]. split; [apply length_map|]. split; [|split; [|split]].
  - intros k seg Hk. rewrite map_lookup, Hk. reflexivity.
  - unfold Json.dumps, render_data. cbn [Json.iterencode].
    cbn [List.map Str.join]. rewrite <- !app_assoc. reflexivity.
  - intros c Hc. apply escape_char_plain; lia.
  - intros s Hs. apply encode_basestring_plain.
    eapply Forall_impl; [exact Hs|]. cbn. intros c Hc. lia.
Qed.

(** ** The scenario, run *)

Lemma progress_coverage_monotone_witness :
  Float.leb (covered (take 1 [Scenario.seg_hello; Scenario.seg_world]))
            (covered (take 2 [Scenario.seg_hello; Scenario.seg_world])) = true.
Proof.
  pose proof (progress_coverage_monotone
                (Yield Scenario.seg_hello (Yield Scenario.seg_world Stop))
                Scenario.world) as H.
  cbv zeta in H.
  destruct (drain_progress _ _ _ _) as [w' r].
  destruct H as (_ & _ & _ & _ & Hmono & _).
  apply (Hmono 1%nat 2%nat). lia.
Defined.

Lemma srt_artifact_blocks_witness :
  exists srt_lines,
    render_srt_lines [Scenario.seg_hello; Scenario.seg_world] = Ok srt_lines /\
    length srt_lines = 8%nat /\
    srt_lines !! 4%nat = Some (Str.lit "2") /\
    srt_lines !! 5%nat = Some (Str.lit "00:00:04,000 --> 00:00:09,999") /\
    srt_lines !! 6%nat = Some (Str.lit "world") /\
    srt_lines !! 7%nat = Some [] /\
    Str.split Str.LF (Str.join [Str.LF] srt_lines) = srt_lines.
Proof.
  assert (exists srt_lines,
             render_srt_lines [Scenario.seg_hello; Scenario.seg_world] = Ok srt_lines)
    as [srt_lines Hrun] by (eexists; vm_compute; reflexivity).
  exists srt_lines. split; [exact Hrun|].
  destruct (srt_artifact_blocks _ _ Hrun) as (Hlen & Hblocks & Hsplit & _).
  split; [exact Hlen|].
  destruct (Hblocks 1%nat Scenario.seg_world eq_refl)
    as (t0 & t1 & H0 & H1 & Ha & _ & Hb & Hc & Hd).
  vm_compute in H0. injection H0 as <-.
  vm_compute in H1. injection H1 as <-.
  repeat (split; [assumption|]).
  apply Hsplit; [discriminate|].
  repeat constructor; vm_compute; repeat constructor; discriminate.
Defined.

Lemma empty_segments_run_witness :
  exists w',
    main Scenario.ffmpeg Scenario.load_model Scenario.recognise_silence
      Scenario.io_fault Scenario.io_failure Scenario.float_repr Scenario.args Scenario.world
    = (w', Ok tt) /\
    fs w' !! [Str.lit "home"; Str.lit "talk.txt"] = Some [] /\
    fs w' !! [Str.lit "home"; Str.lit "talk.srt"] = Some [].
Proof.
  destruct (empty_segments_run Scenario.ffmpeg Scenario.load_model
              Scenario.recognise_silence Scenario.io_fault Scenario.io_failure Scenario.float_repr
              Scenario.args Scenario.world
              (<[Scenario.wav := [82; 73]%N]> Scenario.files) Stop Scenario.info)
    as (w' & Hrun & _ & Htxt & Hsrt & _).
  - exists [1; 2; 3]%N. vm_compute. reflexivity.
  - discriminate.
  - reflexivity.
  - reflexivity.
  - reflexivity.
  - reflexivity.
  - reflexivity.
  - reflexivity.
  - exists w'. split; [exact Hrun|]. split; [exact Htxt|exact Hsrt].
Defined.

Lemma missing_input_fails_witness :
  main Scenario.ffmpeg Scenario.load_model Scenario.recognise
    Scenario.io_fault Scenario.io_failure Scenario.float_repr Scenario.args_missing Scenario.world
  = (Scenario.world, Raise FileNotFoundError).
Proof.
  apply (missing_input_fails Scenario.ffmpeg Scenario.load_model
           Scenario.recognise Scenario.io_fault Scenario.io_failure Scenario.float_repr
           Scenario.args_missing Scenario.world).
  vm_compute. reflexivity.
Defined.

Lemma model_failure_no_export_witness :
  exists w',
    main Scenario.ffmpeg Scenario.load_model_fails Scenario.recognise
      Scenario.io_fault Scenario.io_failure Scenario.float_repr Scenario.args Scenario.world
    = (w', Raise ModelError) /\
    fs w' = <[Scenario.wav := [82; 73]%N]> Scenario.files.
Proof.
  destruct (model_failure_no_export Scenario.ffmpeg Scenario.load_model_fails
              Scenario.recognise Scenario.io_fault Scenario.io_failure Scenario.float_repr
              Scenario.args Scenario.world
              (<[Scenario.wav := [82; 73]%N]> Scenario.files))
    as (w' & evs & Hrun & _ & Hfs & _).
  - exists [1; 2; 3]%N. vm_compute. reflexivity.
  - discriminate.
  - reflexivity.
  - left. reflexivity.
  - exists w'. split; [exact Hrun|exact Hfs].
Defined.

Lemma keep_wav_no_effect_witness :
  fs (fst (main Scenario.ffmpeg Scenario.load_model Scenario.recognise
             Scenario.io_fault Scenario.io_failure Scenario.float_repr
             (mkArgs Scenario.input (Str.lit "small") None true) Scenario.world))
  !! Scenario.wav = Some [82; 73]%N.
Proof.
  destruct (keep_wav_no_effect Scenario.ffmpeg Scenario.load_model
              Scenario.recognise Scenario.io_fault Scenario.io_failure Scenario.float_repr
              Scenario.input (Str.lit "small") None Scenario.world)
    as [_ Hkept].
  etransitivity;
    [apply (Hkept true (<[Scenario.wav := [82; 73]%N]> Scenario.files) true)|].
  - exists [1; 2; 3]%N. vm_compute. reflexivity.
  - discriminate.
  - reflexivity.
  - apply lookup_insert_eq.
Defined.

Lemma outputs_replace_extension_witness :
  fs (fst (main Scenario.ffmpeg Scenario.load_model Scenario.recognise
             Scenario.io_fault Scenario.io_failure Scenario.float_repr Scenario.args_txt
             Scenario.world))
  !! Scenario.input_txt = Some (Str.lit "Hello" ++ [Str.LF] ++ Str.lit "world").
Proof.
  pose proof (outputs_replace_extension Scenario.ffmpeg Scenario.load_model
                Scenario.recognise Scenario.io_fault Scenario.io_failure Scenario.float_repr
                Scenario.args_txt Scenario.world
                (fst (main Scenario.ffmpeg Scenario.load_model Scenario.recognise
                        Scenario.io_fault Scenario.io_failure Scenario.float_repr Scenario.args_txt
                        Scenario.world))) as H.
  destruct H as (fs1 & segments & info & srt_lines & _ & Hrec & _ & _ & _ & Htxt & _).
  - vm_compute. reflexivity.
  - injection Hrec as <- <-.
    destruct (Htxt eq_refl) as [_ Hin]. exact Hin.
Defined.

Lemma structured_artifact_witness :
  exists entries,
    Json.get (Str.lit "segments")
      match render_data Scenario.info Scenario.args
              [Scenario.seg_hello; Scenario.seg_world] with
      | JDict items => items
      | _ => []
      end = Some (JList entries) /\
    entries !! 1%nat
    = Some (JDict [(Str.lit "start", JFloat f4_0);
                   (Str.lit "end", JFloat f9_999);
                   (Str.lit "text", JStr (Str.lit "world"))]).
Proof.
  destruct (structured_artifact Scenario.float_repr Scenario.info Scenario.args
              [Scenario.seg_hello; Scenario.seg_world])
    as (entries & Hdata & _ & Hentry & _).
  exists entries. rewrite Hdata. split; [reflexivity|].
  exact (Hentry 1%nat Scenario.seg_world eq_refl).
Defined.

(** * More of the program *)

(** ** Paths: the last dot *)

Module RfindFacts.
Import PurePath.

Lemma rfind_from_none c s : forall i,
  forallb (fun x => negb (x =? c)%N) s = true -> rfind_from c s i = -1.
Proof.
  induction s as [|x s IH]; intros i Hs; [reflexivity|].
  cbn in Hs. apply andb_true_iff in Hs as [Hx Hs].
  cbn [rfind_from]. rewrite (IH _ Hs). cbn.
  apply negb_true_iff in Hx. rewrite Hx. reflexivity.
Qed.

Lemma rfind_from_last c pre rest : forall i,
  0 <= i ->
  forallb (fun x => negb (x =? c)%N) rest = true ->
  rfind_from c (pre ++ c :: rest) i = i + Z.of_nat (length pre).
Proof.
  induction pre as [|x pre IH]; intros i Hi Hrest.
  - cbn [app rfind_from length]. rewrite (rfind_from_none _ _ _ Hrest).
    cbn. rewrite N.eqb_refl. lia.
  - cbn [app rfind_from length]. rewrite IH by (lia || exact Hrest).
    destruct (Z.eqb_spec (i + 1 + Z.of_nat (length pre)) (-1)); lia.
Qed.

(** Where [rfind] finds the character, it is the last one. *)
Lemma rfind_from_found c s : forall i r,
  0 <= i -> rfind_from c s i = r -> r <> -1 ->
  exists pre rest,
    s = pre ++ c :: rest /\
    forallb (fun x => negb (x =? c)%N) rest = true /\
    r = i + Z.of_nat (length pre).
Proof.
  induction s as [|x s IH]; intros i r Hi Hr Hne.
  - cbn in Hr. congruence.
  - cbn [rfind_from] in Hr.
    destruct (Z.eqb_spec (rfind_from c s (i + 1)) (-1)) as [Hnone|Hsome].
    + destruct (N.eqb_spec x c) as [->|Hx]; [|congruence].
      exists [], s. split; [reflexivity|]. split; [|cbn; lia].
      clear -Hnone Hi. revert i Hi Hnone.
      induction s as [|y s IH]; intros i Hi Hnone; [reflexivity|].
      cbn [rfind_from] in Hnone.
      destruct (Z.eqb_spec (rfind_from c s (i + 1 + 1)) (-1)) as [Hn|Hs]; [|lia].
      destruct (N.eqb_spec y c) as [->|Hy]; [lia|].
      cbn. apply N.eqb_neq in Hy. rewrite Hy. cbn.
      apply (IH (i + 1)); [lia|exact Hn].
    + destruct (IH (i + 1) r ltac:(lia) Hr Hne) as (pre & rest & -> & Hrest & ->).
      exists (x :: pre), rest. split; [reflexivity|]. split; [exact Hrest|].
      cbn [length]. lia.
Qed.

(** The suffix of a name is empty, or one dot followed by at least one
    character and no other dot. *)
Lemma suffix_simple nm :
  suffix_of_name nm = [] \/
  exists rest, suffix_of_name nm = Str.DOT :: rest /\ rest <> [] /\
               no_dot rest = true.
Proof.
  unfold suffix_of_name, rfind.
  destruct ((0 <? rfind_from Str.DOT nm 0)
            && (rfind_from Str.DOT nm 0 <? Z.of_nat (length nm) - 1)) eqn:Hc;
    [|left; reflexivity].
  apply andb_true_iff in Hc as [H1 H2]. apply Z.ltb_lt in H1, H2.
  destruct (rfind_from_found Str.DOT nm 0 _ ltac:(lia) eq_refl ltac:(lia))
    as (pre & rest & Hnm & Hrest & Hr).
  right. exists rest. rewrite Hr in *. subst nm.
  replace (Z.to_nat (0 + Z.of_nat (length pre))) with (length pre) by lia.
  rewrite drop_app_length. split; [reflexivity|]. split; [|exact Hrest].
  intros ->. rewrite length_app in H2. cbn [length] in H2. lia.
Qed.

(** The name made of a stem and a simple suffix has that suffix and
    that stem. *)
Lemma suffix_of_stem_suffix stem sfx :
  stem <> [] -> simple_suffix sfx = true ->
  suffix_of_name (stem ++ sfx) = sfx /\ stem_of_name (stem ++ sfx) = stem.
Proof.
  intros Hstem Hs. destruct sfx as [|c rest]; [discriminate|].
  cbn [simple_suffix] in Hs.
  apply andb_true_iff in Hs as [Hs _].
  apply andb_true_iff in Hs as [Hs Hnodot].
  apply andb_true_iff in Hs as [Hc Hrest].
  apply N.eqb_eq in Hc. subst c.
  unfold suffix_of_name, stem_of_name, rfind.
  rewrite rfind_from_last by (lia || exact Hnodot).
  assert (0 < length stem)%nat as Hlen by (destruct stem; [congruence|cbn; lia]).
  assert (0 < length rest)%nat as Hlr by (destruct rest; [discriminate|cbn; lia]).
  replace ((0 <? 0 + Z.of_nat (length stem))
           && (0 + Z.of_nat (length stem)
               <? Z.of_nat (length (stem ++ Str.DOT :: rest)) - 1)) with true.
  - replace (Z.to_nat (0 + Z.of_nat (length stem))) with (length stem) by lia.
    rewrite drop_app_length, take_app_length. split; reflexivity.
  - symmetry. apply andb_true_iff. split; apply Z.ltb_lt; [lia|].
    rewrite length_app. cbn [length]. lia.
Qed.

Lemma stem_nonempty nm : nm <> [] -> stem_of_name nm <> [].
Proof.
  intros Hnm. unfold stem_of_name.
  destruct ((0 <? rfind Str.DOT nm)
            && (rfind Str.DOT nm <? Z.of_nat (length nm) - 1)) eqn:Hc;
    [|exact Hnm].
  apply andb_true_iff in Hc as [H1 H2]. apply Z.ltb_lt in H1, H2.
  intros Hk. apply (f_equal (@length N)) in Hk.
  rewrite length_take in Hk. cbn [length] in Hk. lia.
Qed.

End RfindFacts.

(** ** The waveform path and the artifact paths *)

Lemma output_path_name input sfx :
  PurePath.name (output_path input sfx) = PurePath.stem input ++ sfx.
Proof. unfold output_path, PurePath.name. apply last_last. Qed.

Lemma output_path_parent input sfx :
  removelast (output_path input sfx) = removelast input.
Proof. unfold output_path. apply removelast_last. Qed.

(** The decoder's output path is never the input, nor one of the
    three artifacts: with [-y] the decoder overwrites what is at that
    path, and the export overwrites what is at its three paths, but
    neither touches the other's file, and the decoder never replaces
    its own input.  The waveform's own suffix is [.wav]. *)
Theorem waveform_path_fresh (input : Path) :
  PurePath.name input <> [] ->
  let wav := output_path input (Str.lit ".16k_mono.wav") in
  PurePath.with_suffix input (Str.lit ".16k_mono.wav") = Ok wav /\
  wav <> input /\
  wav <> output_path input (Str.lit ".txt") /\
  wav <> output_path input (Str.lit ".srt") /\
  wav <> output_path input (Str.lit ".json") /\
  PurePath.suffix wav = Str.lit ".wav" /\
  PurePath.stem wav = PurePath.stem input ++ Str.lit ".16k_mono".
Proof.
  intros Hname. cbv zeta.
  split; [apply PathFacts.with_suffix_stem; [reflexivity|exact Hname]|].
  split.
  - intros Heq. apply (f_equal PurePath.name) in Heq.
    rewrite output_path_name in Heq.
    rewrite (PathFacts.name_stem_suffix (PurePath.name input)) in Heq.
    fold (PurePath.stem input) in Heq. apply app_inv_head in Heq.
    destruct (RfindFacts.suffix_simple (PurePath.name input))
      as [Hnil|(rest & Hs & _ & Hnodot)];
      rewrite <- Heq in *; [discriminate Hnil|].
    injection Hs as <-. discriminate Hnodot.
  - repeat (split; [apply output_path_ne; discriminate|]).
    unfold PurePath.suffix, PurePath.stem. rewrite output_path_name.
    change (Str.lit ".16k_mono.wav") with (Str.lit ".16k_mono" ++ Str.lit ".wav").
    rewrite app_assoc.
    apply RfindFacts.suffix_of_stem_suffix; [|reflexivity].
    intros Hk. apply app_eq_nil in Hk as [_ Hk]. discriminate Hk.
Qed.

Lemma waveform_path_fresh_witness :
  output_path Scenario.input (Str.lit ".16k_mono.wav") <> Scenario.input /\
  PurePath.suffix (output_path Scenario.input (Str.lit ".16k_mono.wav"))
  = Str.lit ".wav".
Proof.
  destruct (waveform_path_fresh Scenario.input ltac:(discriminate))
    as (_ & Hne & _ & _ & _ & Hsfx & _).
  split; [exact Hne|exact Hsfx].
Defined.

(** An artifact path has the suffix it was given and the input's stem,
    so the paths derived from an artifact are the paths derived from
    the input: run on [talk.srt], the program writes [talk.txt],
    [talk.srt] and [talk.json] again. *)
Theorem artifact_paths_stable (input : Path) (sfx sfx' : pystr) :
  PurePath.name input <> [] ->
  simple_suffix sfx = true ->
  PurePath.valid_suffix sfx' = true ->
  PurePath.suffix (output_path input sfx) = sfx /\
  PurePath.stem (output_path input sfx) = PurePath.stem input /\
  PurePath.with_suffix (output_path input sfx) sfx'
  = Ok (output_path input sfx').
Proof.
  intros Hname Hsfx Hvalid.
  assert (PurePath.stem input <> []) as Hstem
    by (apply RfindFacts.stem_nonempty; exact Hname).
  destruct (RfindFacts.suffix_of_stem_suffix _ _ Hstem Hsfx) as [Hs Ht].
  assert (PurePath.stem (output_path input sfx) = PurePath.stem input) as Hst
    by (unfold PurePath.stem at 1; rewrite output_path_name; exact Ht).
  split; [unfold PurePath.suffix; rewrite output_path_name; exact Hs|].
  split; [exact Hst|].
  rewrite PathFacts.with_suffix_stem; [|exact Hvalid|].
  - rewrite output_path_parent, Hst. reflexivity.
  - rewrite output_path_name. intros Hk.
    apply app_eq_nil in Hk as [Hk _]. exact (Hstem Hk).
Qed.

Lemma artifact_paths_stable_witness :
  PurePath.with_suffix [Str.lit "home"; Str.lit "talk.srt"] (Str.lit ".json")
  = Ok [Str.lit "home"; Str.lit "talk.json"].
Proof.
  destruct (artifact_paths_stable Scenario.input (Str.lit ".srt") (Str.lit ".json")
              ltac:(discriminate) eq_refl eq_refl) as (_ & _ & H).
  exact H.
Defined.

(** ** Timestamps: every sign, every failure *)

(** [format_srt_time] on any float whose product with 1000 rounds to
    an integer, negative ones included: the four fields recombine to
    that integer, minutes, seconds and milliseconds are in range
    whatever the sign (floor division), and a negative total gives
    negative hours, written with a minus sign. *)
Theorem format_srt_time_any_sign (t : pyfloat) (ms_total : Z) :
  Float.round (Float.mul t Float.f1000) = Ok ms_total ->
  let h := ms_total / 3600000 in
  let m := (ms_total mod 3600000) / 60000 in
  let s := (ms_total mod 60000) / 1000 in
  let ms := ms_total mod 1000 in
  format_srt_time t
  = Ok (Str.format_0d 2 h ++ [Str.COLON] ++ Str.format_0d 2 m ++ [Str.COLON]
        ++ Str.format_0d 2 s ++ [Str.COMMA] ++ Str.format_0d 3 ms) /\
  ms_total = 3600000 * h + 60000 * m + 1000 * s + ms /\
  0 <= m <= 59 /\ 0 <= s <= 59 /\ 0 <= ms <= 999 /\
  (ms_total < 0 ->
   h < 0 /\ exists d, Str.format_0d 2 h = Str.MINUS :: d /\ d <> []).
Proof.
  intros Hround. cbv zeta.
  destruct (srt_fields_direct ms_total) as [Hs Hm].
  split.
  - unfold format_srt_time. rewrite Hround. cbn [mbind Result_bind].
    cbv zeta. rewrite Hm, Hs. reflexivity.
  - pose proof (Z.div_mod ms_total 3600000 ltac:(lia)) as E1.
    pose proof (Z.mod_pos_bound ms_total 3600000 ltac:(lia)) as B1.
    pose proof (Z.div_mod (ms_total mod 3600000) 60000 ltac:(lia)) as E2.
    pose proof (Z.mod_pos_bound (ms_total mod 3600000) 60000 ltac:(lia)) as B2.
    pose proof (Z.div_mod ((ms_total mod 3600000) mod 60000) 1000 ltac:(lia)) as E3.
    pose proof (Z.mod_pos_bound ((ms_total mod 3600000) mod 60000) 1000 ltac:(lia)) as B3.
    rewrite Hm in E3, B3. rewrite Hs in E2, E3, B2.
    assert (0 <= ms_total mod 3600000 / 60000 <= 59) as Rm
      by (split; [apply Z.div_pos; lia|];
          apply Z.lt_succ_r, Z.div_lt_upper_bound; lia).
    assert (0 <= ms_total mod 60000 / 1000 <= 59) as Rs
      by (split; [apply Z.div_pos; lia|];
          apply Z.lt_succ_r, Z.div_lt_upper_bound; lia).
    split; [lia|]. split; [exact Rm|]. split; [exact Rs|]. split; [lia|].
    intros Hneg.
    assert (ms_total / 3600000 < 0) as Hh
      by (apply Z.div_lt_upper_bound; lia).
    split; [exact Hh|].
    unfold Str.format_0d. destruct (Z.ltb_spec (ms_total / 3600000) 0); [|lia].
    eexists. split; [reflexivity|].
    intros Hk. apply app_eq_nil in Hk as [_ Hk].
    pose proof (StrFacts.digits_nonempty (Z.abs_N (ms_total / 3600000))) as Hd.
    rewrite Hk in Hd. cbn in Hd. lia.
Qed.

Lemma format_srt_time_any_sign_witness :
  format_srt_time Cases.f_minus_0_001 = Ok (Str.lit "-1:59:59,999").
Proof.
  destruct (format_srt_time_any_sign Cases.f_minus_0_001 (-1) eq_refl)
    as (Hfmt & _).
  rewrite Hfmt. vm_compute. reflexivity.
Defined.

(** [format_srt_time] fails exactly when the product with 1000 is not
    a finite number: with [ValueError] when it is NaN, as for a NaN
    argument, and with [OverflowError] when it is infinite, as for an
    infinite argument. *)
Lemma format_srt_time_errors (t : pyfloat) :
  (Float.is_finite (Float.mul t Float.f1000) = true <->
   exists s, format_srt_time t = Ok s) /\
  (Float.mul t Float.f1000 = S754_nan <-> format_srt_time t = Raise ValueError) /\
  ((exists sign, Float.mul t Float.f1000 = S754_infinity sign) <->
   format_srt_time t = Raise OverflowError) /\
  (t = S754_nan -> format_srt_time t = Raise ValueError) /\
  (forall sign, t = S754_infinity sign -> format_srt_time t = Raise OverflowError).
Proof.
  unfold format_srt_time.
  split; [|split; [|split; [|split]]].
  - destruct (Float.mul t Float.f1000) as [s|s| |s m e]; cbn;
      (split; [intros H|intros [x Hx]]);
      first [discriminate | reflexivity | eexists; reflexivity].
  - destruct (Float.mul t Float.f1000) as [s|s| |s m e]; cbn;
      split; intros H; first [discriminate | reflexivity].
  - destruct (Float.mul t Float.f1000) as [s|s| |s m e]; cbn;
      (split; [intros [x Hx]|intros H]);
      first [discriminate | reflexivity | eexists; reflexivity].
  - intros ->. reflexivity.
  - intros sign ->. destruct sign; reflexivity.
Qed.


Lemma srt_loop_renders_iff (segs : list Segment) : forall acc i,
  ((exists srt_lines, srt_loop i segs acc = Ok srt_lines) <->
   Forall (fun seg =>
             Float.is_finite (Float.mul (start seg) Float.f1000) = true /\
             Float.is_finite (Float.mul (end_ seg) Float.f1000) = true) segs) /\
  (forall e, srt_loop i segs acc = Raise e ->
             e = ValueError \/ e = OverflowError).
Proof.
  induction segs as [|seg rest IH]; intros acc i.
  - split; [split; [constructor|eexists; reflexivity]|discriminate].
  - cbn [srt_loop]. cbv zeta.
    destruct (format_srt_time_errors (start seg)) as (Hs1 & Hs2 & Hs3 & _).
    destruct (format_srt_time_errors (end_ seg)) as (He1 & He2 & He3 & _).
    destruct (format_srt_time (start seg)) as [t0|e0] eqn:H0.
    + destruct (format_srt_time (end_ seg)) as [t1|e1] eqn:H1.
      * cbn [mbind Result_bind]. destruct (IH ((((acc ++ [Str.of_int i])
                    ++ [t0 ++ Str.lit " --> " ++ t1]) ++ [Str.strip (text seg)])
                    ++ [[]]) (i + 1)) as [[IH1 IH2] IH3].
        split; [split|exact IH3].
        -- intros Hok. constructor; [|apply IH1; exact Hok].
           split; [apply Hs1|apply He1]; eexists; reflexivity.
        -- intros Hall. inversion Hall; subst. apply IH2. assumption.
      * cbn [mbind Result_bind]. split; [split|].
        -- intros [x Hx]. discriminate.
        -- intros Hall. inversion Hall as [|? ? [_ Hfin] _]; subst.
           apply He1 in Hfin as [x Hx]. discriminate.
        -- intros e [= <-].
           destruct (Float.mul (end_ seg) Float.f1000) as [s|s| |s m e] eqn:Hm;
             cbn in H1; unfold format_srt_time in H1; rewrite Hm in H1;
             cbn in H1; first [discriminate | injection H1 as <-; tauto].
    + cbn [mbind Result_bind]. split; [split|].
      * intros [x Hx]. discriminate.
      * intros Hall. inversion Hall as [|? ? [Hfin _] _]; subst.
        apply Hs1 in Hfin as [x Hx]. discriminate.
      * intros e [= <-].
        destruct (Float.mul (start seg) Float.f1000) as [s|s| |s m e] eqn:Hm;
          unfold format_srt_time in H0; rewrite Hm in H0;
          cbn in H0; first [discriminate | injection H0 as <-; tauto].
Qed.


(** The subtitle lines can be rendered exactly when every start and
    every end, times 1000, is a finite number; otherwise rendering
    raises [ValueError] (a NaN) or [OverflowError] (an infinity), and
    no line list is produced. *)
Theorem srt_renders_iff_finite (segs : list Segment) :
  ((exists srt_lines, render_srt_lines segs = Ok srt_lines) <->
   Forall (fun seg =>
             Float.is_finite (Float.mul (start seg) Float.f1000) = true /\
             Float.is_finite (Float.mul (end_ seg) Float.f1000) = true) segs) /\
  (forall e, render_srt_lines segs = Raise e ->
             e = ValueError \/ e = OverflowError).
Proof. exact (srt_loop_renders_iff segs [] 1). Qed.

Lemma srt_renders_iff_finite_cases (segs : list Segment) :
  ((exists srt_lines, render_srt_lines segs = Ok srt_lines) <->
   Forall (fun seg =>
             Float.is_finite (Float.mul (start seg) Float.f1000) = true /\
             Float.is_finite (Float.mul (end_ seg) Float.f1000) = true) segs) /\
  (forall e, render_srt_lines segs = Raise e ->
             e = ValueError \/ e = OverflowError).
Proof. exact (srt_loop_renders_iff segs [] 1). Qed.

Lemma srt_renders_iff_finite_witness :
  render_srt_lines [Scenario.seg_hello; Cases.seg_nan] = Raise ValueError.
Proof.
  destruct (srt_renders_iff_finite [Scenario.seg_hello; Cases.seg_nan])
    as [_ Herr].
  destruct (render_srt_lines [Scenario.seg_hello; Cases.seg_nan]) as [l|e] eqn:Hr.
  - vm_compute in Hr. discriminate Hr.
  - destruct (Herr e eq_refl) as [->| ->]; [reflexivity|].
    vm_compute in Hr. discriminate Hr.
Defined.

(** ** More runs of [main] *)

Lemma progress_events_filter (f : Event -> bool) info segs :
  (forall n, f (EvProgress n) = false) ->
  List.filter f (progress_events info segs) = [].
Proof.
  intros Hf. unfold progress_events.
  destruct (Float.ltb Float.zero (total_duration info)); [|reflexivity].
  induction (seq 0 (length segs)) as [|k ks IH]; [reflexivity|].
  cbn [List.map List.filter]. rewrite Hf. exact IH.
Qed.

Section MoreRuns.

Variable ffmpeg :
  list pystr -> gmap Path pystr -> option (gmap Path pystr * bool).
Variable load_model : pystr -> bool.
Variable recognise :
  pystr -> option pystr -> option pystr -> option (Stream * TranscriptionInfo).
Variable io_fault : Path -> pystr -> bool.
Variable io_failure : Path -> pystr -> WriteFault.
Variable float_repr : pyfloat -> pystr.

#[local] Abbreviation run_main := (main ffmpeg load_model recognise io_fault io_failure float_repr).

(** When the decoder exits with a non-zero status, [main] ends with
    [CalledProcessError] right after that one command: the model is
    neither loaded nor invoked and nothing is written; the files are
    whatever the decoder left. *)
Theorem decoder_failure_stops_run (args : Args) (w : World)
    (fs1 : gmap Path pystr) :
  let input := audio args in
  let wav := output_path input (Str.lit ".16k_mono.wav") in
  let cmd := [Str.lit "ffmpeg"; Str.lit "-y"; Str.lit "-i"; PurePath.to_str input;
              Str.lit "-ar"; Str.lit "16000"; Str.lit "-ac"; Str.lit "1";
              Str.lit "-c:a"; Str.lit "pcm_s16le"; PurePath.to_str wav] in
  is_Some (fs w !! input) ->
  PurePath.name input <> [] ->
  ffmpeg cmd (fs w) = Some (fs1, false) ->
  run_main args w
  = (mkWorld fs1 (trace w ++ [EvRun cmd]), Raise CalledProcessError) /\
  exit_status (snd (run_main args w)) <> 0.
Proof.
  cbv zeta. intros [content Hin] Hname Hff.
  rewrite main_run, Hin.
  rewrite with_suffix_output by (reflexivity || exact Hname).
  cbv zeta. unfold ffmpeg_cmd. rewrite Hff.
  split; [reflexivity|discriminate].
Qed.

(** Whatever the outcome of a run, what it did outside the program is
    a prefix of: the decoder command, the model load, the transcribe
    call (beam size 5, voice-activity filter on, the language of the
    command line); what it wrote is a prefix of: the text, the
    subtitle, the structured artifact, each at most once and in that
    order; and the run ends normally exactly when all three were
    written. *)
Theorem run_actions_in_order (args : Args) (w : World) :
  let input := audio args in
  let wav := output_path input (Str.lit ".16k_mono.wav") in
  exists evs text srt json,
    trace (fst (run_main args w)) = trace w ++ evs /\
    List.filter is_external evs
      `prefix_of` [EvRun (ffmpeg_cmd input wav); EvLoadModel (model args);
                   EvTranscribe (PurePath.to_str wav) 5 true (language args)] /\
    List.filter is_write evs
      `prefix_of` [EvWrite (output_path input (Str.lit ".txt")) text;
                   EvWrite (output_path input (Str.lit ".srt")) srt;
                   EvWrite (output_path input (Str.lit ".json")) json] /\
    (snd (run_main args w) = Ok tt <->
     List.filter is_write evs
     = [EvWrite (output_path input (Str.lit ".txt")) text;
        EvWrite (output_path input (Str.lit ".srt")) srt;
        EvWrite (output_path input (Str.lit ".json")) json]).
Proof.
  cbv zeta. rewrite main_run.
  destruct (fs w !! audio args) as [content|] eqn:Hin.
  2:{ exists [], [], [], []. cbn [fst snd trace List.filter].
      rewrite app_nil_r. repeat split; try apply prefix_nil; discriminate. }
  destruct (PurePath.with_suffix (audio args) (Str.lit ".16k_mono.wav"))
    as [wav|e] eqn:Hwav.
  2:{ exists [], [], [], []. cbn [fst snd trace List.filter].
      rewrite app_nil_r. repeat split; try apply prefix_nil; discriminate. }
  pose proof (PathFacts.with_suffix_name _ _ _ Hwav) as Hname.
  rewrite with_suffix_output in Hwav by (reflexivity || exact Hname).
  injection Hwav as <-. cbv zeta.
  pose proof (progress_events_filter is_external) as Hpe.
  pose proof (progress_events_filter is_write) as Hpw.
  destruct (ffmpeg _ (fs w)) as [[fs1 [|]]|].
  3:{ exists [], [], [], []. cbn [fst snd trace List.filter].
      rewrite app_nil_r. repeat split; try apply prefix_nil; discriminate. }
  2:{ exists [EvRun (ffmpeg_cmd (audio args)
                       (output_path (audio args) (Str.lit ".16k_mono.wav")))],
        [], [], [].
      cbn [fst snd trace List.filter is_external is_write].
      repeat split; try apply prefix_nil; try discriminate.
      eexists; reflexivity. }
  destruct (load_model (model args)).
  2:{ eexists [_; _], [], [], [].
      cbn [fst snd trace]. rewrite <- app_assoc.
      split; [reflexivity|].
      cbn [app List.filter is_external is_write].
      repeat split; try apply prefix_nil; try discriminate.
      eexists; reflexivity. }
  destruct (recognise (model args) _ (language args)) as [[segments info]|].
  2:{ eexists [_; _; _], [], [], [].
      cbn [fst snd trace]. rewrite <- !app_assoc.
      split; [reflexivity|].
      cbn [app List.filter is_external is_write].
      repeat split; try apply prefix_nil; try discriminate.
      eexists; reflexivity. }
  destruct (exhausted segments).
  2:{ eexists ([_; _; _] ++ progress_events info (yielded segments)), [], [], [].
      cbn [fst snd trace]. rewrite <- !app_assoc.
      split; [reflexivity|].
      rewrite !List.filter_app, Hpe, Hpw by reflexivity.
      cbn [app List.filter is_external is_write].
      repeat split; try apply prefix_nil; try discriminate.
      eexists; reflexivity. }
  rewrite export_run by exact Hname. cbv zeta.
  set (text := render_text (yielded segments)).
  set (json := Json.dumps float_repr (render_data info args (yielded segments))).
  destruct (io_fault _ text).
  { failed_write_case.
    eexists ([_; _; _] ++ progress_events info (yielded segments)), [], [], [].
    cbn [fst snd trace]. rewrite <- !app_assoc.
    split; [reflexivity|].
    rewrite !List.filter_app, Hpe, Hpw by reflexivity.
    cbn [app List.filter is_external is_write].
    repeat split; try apply prefix_nil; try discriminate.
    eexists; reflexivity. }
  destruct (render_srt_lines (yielded segments)) as [srt_lines|e].
  2:{ eexists (([_; _; _] ++ progress_events info (yielded segments)) ++ [_]),
        text, [], [].
      cbn [fst snd trace]. rewrite <- !app_assoc.
      split; [reflexivity|].
      rewrite !List.filter_app, Hpe, Hpw by reflexivity.
      cbn [app List.filter is_external is_write].
      repeat split; try discriminate; eexists; reflexivity. }
  destruct (io_fault _ (Str.join [Str.LF] srt_lines)).
  { failed_write_case.
    eexists (([_; _; _] ++ progress_events info (yielded segments)) ++ [_]),
      text, [], [].
    cbn [fst snd trace]. rewrite <- !app_assoc.
    split; [reflexivity|].
    rewrite !List.filter_app, Hpe, Hpw by reflexivity.
    cbn [app List.filter is_external is_write].
    repeat split; try discriminate; eexists; reflexivity. }
  destruct (io_fault _ json).
  { failed_write_case.
    eexists (([_; _; _] ++ progress_events info (yielded segments)) ++ [_; _]),
      text, (Str.join [Str.LF] srt_lines), [].
    cbn [fst snd trace]. rewrite <- !app_assoc.
    split; [reflexivity|].
    rewrite !List.filter_app, Hpe, Hpw by reflexivity.
    cbn [app List.filter is_external is_write].
    repeat split; try discriminate; eexists; reflexivity. }
  eexists (([_; _; _] ++ progress_events info (yielded segments))
           ++ [_; _; _] ++ final_prints _ _ _ _ _ _),
    text, (Str.join [Str.LF] srt_lines), json.
  cbn [fst snd trace]. rewrite <- !app_assoc.
  split; [reflexivity|].
  rewrite !List.filter_app, Hpe, Hpw by reflexivity.
  cbn [app List.filter is_external is_write final_prints].
  repeat split; eexists; reflexivity.
Qed.

(** A timestamp that cannot be formatted is met only after the text
    artifact is on disk: the run then ends with the exception of
    [format_srt_time], the text file is written, and the subtitle and
    structured files are as the decoder left them. *)
Theorem bad_timestamp_leaves_text_only (args : Args) (w : World)
    (fs1 : gmap Path pystr) (segments : Stream) (info : TranscriptionInfo)
    (e : Exn) :
  let input := audio args in
  let wav := output_path input (Str.lit ".16k_mono.wav") in
  let out_txt := output_path input (Str.lit ".txt") in
  let text := render_text (yielded segments) in
  is_Some (fs w !! input) ->
  PurePath.name input <> [] ->
  ffmpeg (ffmpeg_cmd input wav) (fs w) = Some (fs1, true) ->
  load_model (model args) = true ->
  recognise (model args) (fs1 !! wav) (language args) = Some (segments, info) ->
  exhausted segments = true ->
  io_fault out_txt text = false ->
  render_srt_lines (yielded segments) = Raise e ->
  exists w',
    run_main args w = (w', Raise e) /\
    (e = ValueError \/ e = OverflowError) /\
    fs w' = <[out_txt := text]> fs1 /\
    fs w' !! out_txt = Some text /\
    fs w' !! output_path input (Str.lit ".srt")
    = fs1 !! output_path input (Str.lit ".srt") /\
    fs w' !! output_path input (Str.lit ".json")
    = fs1 !! output_path input (Str.lit ".json").
Proof.
  cbv zeta. intros [content Hin] Hname Hff Hload Hrec Hex Hio Hsrt.
  rewrite main_run, Hin.
  rewrite with_suffix_output by (reflexivity || exact Hname).
  cbv zeta. rewrite Hff, Hload, Hrec, Hex.
  rewrite export_run by exact Hname. cbv zeta. rewrite Hio, Hsrt.
  eexists. split; [reflexivity|].
  split; [exact (proj2 (srt_renders_iff_finite_cases _) e Hsrt)|].
  cbn [fs]. split; [reflexivity|].
  split; [apply lookup_insert_eq|].
  split; rewrite lookup_insert_ne by (apply output_path_ne; discriminate);
    reflexivity.
Qed.

(** When the decoder cannot be started, [main] ends with
    [FileNotFoundError], the exception it raises itself for a missing
    input, although the input exists; nothing has run, no model was
    loaded and nothing was written. *)
Theorem decoder_missing_stops_run (args : Args) (w : World) :
  let input := audio args in
  let wav := output_path input (Str.lit ".16k_mono.wav") in
  is_Some (fs w !! input) ->
  PurePath.name input <> [] ->
  ffmpeg (ffmpeg_cmd input wav) (fs w) = None ->
  run_main args w = (w, Raise FileNotFoundError) /\
  exit_status (snd (run_main args w)) <> 0.
Proof.
  cbv zeta. intros [content Hin] Hname Hff.
  rewrite main_run, Hin.
  rewrite with_suffix_output by (reflexivity || exact Hname).
  cbv zeta. rewrite Hff.
  split; [reflexivity|discriminate].
Qed.

(** When the write of the subtitle artifact fails, [main] ends there
    with [OSError] or [UnicodeEncodeError]: the text artifact is
    complete, the structured artifact's path is as the decoder left it,
    the only recorded write is the text, nothing is printed; and the
    subtitle path is untouched when the file could not be opened, empty
    when the text could not be encoded, and holds what got through when
    writing failed. *)
Theorem subtitle_write_failure (args : Args) (w : World)
    (fs1 : gmap Path pystr) (segments : Stream) (info : TranscriptionInfo)
    (srt_lines : list pystr) :
  let input := audio args in
  let wav := output_path input (Str.lit ".16k_mono.wav") in
  let out_txt := output_path input (Str.lit ".txt") in
  let out_srt := output_path input (Str.lit ".srt") in
  let out_json := output_path input (Str.lit ".json") in
  let text := render_text (yielded segments) in
  let srt := Str.join [Str.LF] srt_lines in
  is_Some (fs w !! input) ->
  PurePath.name input <> [] ->
  ffmpeg (ffmpeg_cmd input wav) (fs w) = Some (fs1, true) ->
  load_model (model args) = true ->
  recognise (model args) (fs1 !! wav) (language args) = Some (segments, info) ->
  exhausted segments = true ->
  io_fault out_txt text = false ->
  render_srt_lines (yielded segments) = Ok srt_lines ->
  io_fault out_srt srt = true ->
  exists w' e,
    run_main args w = (w', Raise e) /\
    (e = OSError \/ e = UnicodeEncodeError) /\
    fs w' !! out_txt = Some text /\
    fs w' !! out_json = fs1 !! out_json /\
    match io_failure out_srt srt with
    | OpenFails => fs w' !! out_srt = fs1 !! out_srt /\ e = OSError
    | EncodeFails => fs w' !! out_srt = Some [] /\ e = UnicodeEncodeError
    | WriteFails written => fs w' !! out_srt = Some written /\ e = OSError
    end /\
    trace w'
    = trace w
      ++ [EvRun (ffmpeg_cmd input wav); EvLoadModel (model args);
          EvTranscribe (PurePath.to_str wav) 5 true (language args)]
      ++ progress_events info (yielded segments)
      ++ [EvWrite out_txt text].
Proof.
  cbv zeta. intros [content Hin] Hname Hff Hload Hrec Hex Hio Hsrt Hfault.
  rewrite main_run, Hin.
  rewrite with_suffix_output by (reflexivity || exact Hname).
  cbv zeta. rewrite Hff, Hload, Hrec, Hex.
  rewrite export_run by exact Hname. cbv zeta. rewrite Hio, Hsrt, Hfault.
  assert (output_path (audio args) (Str.lit ".txt")
          <> output_path (audio args) (Str.lit ".srt")) as Hts
    by (apply output_path_ne; discriminate).
  assert (output_path (audio args) (Str.lit ".json")
          <> output_path (audio args) (Str.lit ".txt")) as Hjt
    by (apply output_path_ne; discriminate).
  assert (output_path (audio args) (Str.lit ".json")
          <> output_path (audio args) (Str.lit ".srt")) as Hjs
    by (apply output_path_ne; discriminate).
  destruct (io_failure _ (Str.join [Str.LF] srt_lines)) as [| |written];
    cbn [failed_write]; eexists; eexists;
    (split; [reflexivity|]); cbn [fs trace].
  - split; [left; reflexivity|].
    split; [apply lookup_insert_eq|].
    split; [apply lookup_insert_ne; congruence|].
    split; [|rewrite <- !app_assoc; reflexivity].
    split; [apply lookup_insert_ne; congruence|reflexivity].
  - split; [right; reflexivity|].
    split; [rewrite lookup_insert_ne by congruence; apply lookup_insert_eq|].
    split; [rewrite !lookup_insert_ne by congruence; reflexivity|].
    split; [|rewrite <- !app_assoc; reflexivity].
    split; [apply lookup_insert_eq|reflexivity].
  - split; [left; reflexivity|].
    split; [rewrite lookup_insert_ne by congruence; apply lookup_insert_eq|].
    split; [rewrite !lookup_insert_ne by congruence; reflexivity|].
    split; [|rewrite <- !app_assoc; reflexivity].
    split; [apply lookup_insert_eq|reflexivity].
Qed.

End MoreRuns.

Lemma decoder_missing_stops_run_witness :
  main Cases.ffmpeg_missing Scenario.load_model Scenario.recognise
    Scenario.io_fault Scenario.io_failure Scenario.float_repr
    Scenario.args Scenario.world
  = (Scenario.world, Raise FileNotFoundError).
Proof.
  destruct (decoder_missing_stops_run Cases.ffmpeg_missing Scenario.load_model
              Scenario.recognise Scenario.io_fault Scenario.io_failure
              Scenario.float_repr Scenario.args Scenario.world) as [Hrun _].
  - exists [1; 2; 3]%N. vm_compute. reflexivity.
  - discriminate.
  - reflexivity.
  - exact Hrun.
Defined.

Lemma subtitle_write_failure_witness :
  exists w',
    main Scenario.ffmpeg Scenario.load_model Scenario.recognise
      Cases.io_fault_srt Cases.io_failure_encode Scenario.float_repr
      Scenario.args Scenario.world
    = (w', Raise UnicodeEncodeError) /\
    fs w' !! [Str.lit "home"; Str.lit "talk.txt"]
    = Some (Str.lit "Hello" ++ [Str.LF] ++ Str.lit "world") /\
    fs w' !! [Str.lit "home"; Str.lit "talk.srt"] = Some [] /\
    fs w' !! [Str.lit "home"; Str.lit "talk.json"] = None.
Proof.
  assert (exists srt_lines,
             render_srt_lines [Scenario.seg_hello; Scenario.seg_world] = Ok srt_lines)
    as [srt_lines Hsrt] by (eexists; vm_compute; reflexivity).
  destruct (subtitle_write_failure Scenario.ffmpeg Scenario.load_model
              Scenario.recognise Cases.io_fault_srt Cases.io_failure_encode
              Scenario.float_repr Scenario.args Scenario.world
              (<[Scenario.wav := [82; 73]%N]> Scenario.files)
              (Yield Scenario.seg_hello (Yield Scenario.seg_world Stop))
              Scenario.info srt_lines)
    as (w' & e & Hrun & _ & Htxt & Hjson & [Hfile ->] & _).
  - exists [1; 2; 3]%N. vm_compute. reflexivity.
  - discriminate.
  - reflexivity.
  - reflexivity.
  - reflexivity.
  - reflexivity.
  - vm_compute. reflexivity.
  - exact Hsrt.
  - vm_compute. reflexivity.
  - exists w'. split; [exact Hrun|]. split; [exact Htxt|].
    split; [exact Hfile|].
    etransitivity; [exact Hjson|]. vm_compute. reflexivity.
Defined.

Lemma decoder_failure_stops_run_witness :
  snd (main Cases.ffmpeg_fails Scenario.load_model Scenario.recognise
         Scenario.io_fault Scenario.io_failure Scenario.float_repr Scenario.args Scenario.world)
  = Raise CalledProcessError.
Proof.
  destruct (decoder_failure_stops_run Cases.ffmpeg_fails Scenario.load_model
              Scenario.recognise Scenario.io_fault Scenario.io_failure Scenario.float_repr
              Scenario.args Scenario.world Scenario.files) as [Hrun _].
  - exists [1; 2; 3]%N. vm_compute. reflexivity.
  - discriminate.
  - reflexivity.
  - rewrite Hrun. reflexivity.
Defined.

Lemma bad_timestamp_leaves_text_only_witness :
  exists w',
    main Scenario.ffmpeg Scenario.load_model Cases.recognise_nan
      Scenario.io_fault Scenario.io_failure Scenario.float_repr Scenario.args Scenario.world
    = (w', Raise ValueError) /\
    fs w' !! [Str.lit "home"; Str.lit "talk.txt"]
    = Some (Str.lit "Hello" ++ [Str.LF] ++ Str.lit "lost") /\
    fs w' !! [Str.lit "home"; Str.lit "talk.srt"] = None.
Proof.
  destruct (bad_timestamp_leaves_text_only Scenario.ffmpeg Scenario.load_model
              Cases.recognise_nan Scenario.io_fault Scenario.io_failure Scenario.float_repr
              Scenario.args Scenario.world
              (<[Scenario.wav := [82; 73]%N]> Scenario.files)
              (Yield Scenario.seg_hello (Yield Cases.seg_nan Stop))
              Scenario.info ValueError)
    as (w' & Hrun & _ & _ & Htxt & Hsrt & _).
  - exists [1; 2; 3]%N. vm_compute. reflexivity.
  - discriminate.
  - reflexivity.
  - reflexivity.
  - reflexivity.
  - reflexivity.
  - reflexivity.
  - vm_compute. reflexivity.
  - exists w'. split; [exact Hrun|]. split; [exact Htxt|].
    etransitivity; [exact Hsrt|]. vm_compute. reflexivity.
Defined.

(** ** The text artifact: when it is empty *)

Lemma join_nil_iff sep items :
  Forall (fun item => item <> []) items ->
  (Str.join sep items = [] <-> items = []).
Proof.
  intros Hall. split; [|intros ->; reflexivity].
  destruct Hall as [|x items Hx Hall]; [reflexivity|].
  destruct items as [|y items]; cbn [Str.join]; [congruence|].
  intros Hk. apply app_eq_nil in Hk as [Hk _]. congruence.
Qed.

(** The text artifact is empty exactly when every segment's text is
    empty or whitespace only (in particular when there is no segment);
    otherwise it begins with the trimmed text of the first segment
    that is not blank. *)
Theorem text_artifact_empty_iff (segs : list Segment) :
  (render_text segs = [] <->
   Forall (fun seg => forallb Str.isspace (text seg) = true) segs) /\
  (forall blanks seg rest,
     segs = blanks ++ seg :: rest ->
     Forall (fun b => forallb Str.isspace (text b) = true) blanks ->
     forallb Str.isspace (text seg) = false ->
     exists tail, render_text segs = Str.strip (text seg) ++ tail /\
                  Str.strip (text seg) <> []).
Proof.
  split.
  - rewrite render_text_filter, join_nil_iff.
    + induction segs as [|seg segs IH]; [cbn; split; constructor|].
      cbn [List.map List.filter].
      destruct (Str.truthy (Str.strip (text seg))) eqn:Ht.
      * split; [discriminate|]. intros Hall. inversion Hall as [|? ? Hb _]; subst.
        apply StripFacts.strip_nil_iff in Hb. rewrite Hb in Ht. discriminate.
      * apply StripFacts.truthy_nil_iff, StripFacts.strip_nil_iff in Ht.
        rewrite IH. split; [intros H; constructor; assumption|].
        intros Hall. inversion Hall; assumption.
    + apply Forall_forall. intros item Hin. apply list_elem_of_In in Hin.
      apply filter_In in Hin as [_ Hin]. destruct item; [discriminate|congruence].
  - intros blanks seg rest -> Hblanks Hseg.
    assert (Str.strip (text seg) <> []) as Hne.
    { intros Hk. apply StripFacts.strip_nil_iff in Hk. congruence. }
    rewrite render_text_filter, map_app, List.filter_app.
    replace (List.filter Str.truthy
               (List.map (fun s => Str.strip (text s)) blanks)) with (@nil pystr).
    + cbn [app List.map List.filter].
      destruct (Str.strip (text seg)) as [|c s] eqn:Hs; [congruence|].
      cbn [Str.truthy]. rewrite <- Hs.
      destruct (List.filter Str.truthy
                  (List.map (fun s => Str.strip (text s)) rest)) as [|y ys].
      * exists []. rewrite app_nil_r. split; [reflexivity|]. rewrite Hs. discriminate.
      * eexists. split; [reflexivity|]. rewrite Hs. discriminate.
    + symmetry. induction Hblanks as [|b blanks Hb Hblanks IH]; [reflexivity|].
      cbn [List.map List.filter].
      apply StripFacts.strip_nil_iff in Hb. rewrite Hb. exact IH.
Qed.

Lemma text_artifact_empty_iff_witness :
  render_text [Cases.seg_blank; Cases.seg_blank] = [] /\
  exists tail,
    render_text [Cases.seg_blank; Scenario.seg_world; Scenario.seg_hello]
    = Str.lit "world" ++ tail.
Proof.
  split.
  - apply (text_artifact_empty_iff [Cases.seg_blank; Cases.seg_blank]).
    repeat constructor.
  - destruct (text_artifact_empty_iff
                [Cases.seg_blank; Scenario.seg_world; Scenario.seg_hello])
      as [_ Hfirst].
    destruct (Hfirst [Cases.seg_blank] Scenario.seg_world [Scenario.seg_hello]
                eq_refl ltac:(repeat constructor) eq_refl) as (tail & Htail & _).
    exists tail. exact Htail.
Defined.

(** ** The structured artifact: strings stay on their line *)

Lemma hexdigit_printable n : (n < 16)%N -> (32 <= Json.hexdigit n)%N.
Proof. intros Hn. unfold Json.hexdigit. destruct (n <? 10)%N; lia. Qed.

Lemma escape_char_printable c :
  Forall (fun x => (32 <= x)%N) (Json.escape_char c) /\
  Json.escape_char c <> [].
Proof.
  unfold Json.escape_char.
  repeat match goal with
         | |- context [(c =? ?k)%N] =>
             destruct (N.eqb_spec c k);
             [split; [repeat constructor; lia|discriminate]|]
         end.
  destruct (N.ltb_spec c 32).
  - split; [|discriminate].
    repeat constructor; try lia.
    + apply hexdigit_printable. apply N.Div0.div_lt_upper_bound. lia.
    + apply hexdigit_printable.
      pose proof (N.mod_upper_bound c 16 ltac:(lia)) as Hm. exact Hm.
  - split; [repeat constructor; lia|discriminate].
Qed.

Lemma hexdigit_not_quote n : Json.hexdigit n <> Str.QUOTE.
Proof. unfold Json.hexdigit, Str.QUOTE. destruct (n <? 10)%N; lia. Qed.

(** A quote in the escape of one character is the second character of
    the pair backslash, quote. *)
Lemma escape_char_quote c k :
  Json.escape_char c !! k = Some Str.QUOTE ->
  exists j, k = S j /\ Json.escape_char c !! j = Some 92%N.
Proof.
  unfold Json.escape_char.
  destruct (N.eqb_spec c 92);
    [intros Hk; do 2 (destruct k as [|k]; [discriminate Hk|]); discriminate Hk|].
  destruct (N.eqb_spec c 34).
  { intros Hk. destruct k as [|[|k]]; [discriminate Hk| |discriminate Hk].
    exists 0%nat. split; reflexivity. }
  destruct (N.eqb_spec c 8);
    [intros Hk; do 2 (destruct k as [|k]; [discriminate Hk|]); discriminate Hk|].
  destruct (N.eqb_spec c 12);
    [intros Hk; do 2 (destruct k as [|k]; [discriminate Hk|]); discriminate Hk|].
  destruct (N.eqb_spec c 10);
    [intros Hk; do 2 (destruct k as [|k]; [discriminate Hk|]); discriminate Hk|].
  destruct (N.eqb_spec c 13);
    [intros Hk; do 2 (destruct k as [|k]; [discriminate Hk|]); discriminate Hk|].
  destruct (N.eqb_spec c 9);
    [intros Hk; do 2 (destruct k as [|k]; [discriminate Hk|]); discriminate Hk|].
  destruct (N.ltb_spec c 32).
  - intros Hk. do 4 (destruct k as [|k]; [discriminate Hk|]).
    destruct k as [|k];
      [injection Hk as Hk; exfalso; exact (hexdigit_not_quote _ Hk)|].
    destruct k as [|k];
      [injection Hk as Hk; exfalso; exact (hexdigit_not_quote _ Hk)|].
    discriminate Hk.
  - intros Hk. destruct k as [|k]; [|discriminate Hk].
    injection Hk as Hk. unfold Str.QUOTE in Hk. congruence.
Qed.

(** Whatever the characters of a string, newlines and other control
    characters included, its JSON form is a quote, characters from
    U+0020 on, and a quote: a segment text never breaks the line it is
    written on.  The only quote inside follows a backslash. *)
Theorem json_string_one_line (s : pystr) :
  exists body,
    Json.encode_basestring s = Str.QUOTE :: body ++ [Str.QUOTE] /\
    Forall (fun c => (32 <= c)%N) body /\
    (length s <= length body)%nat /\
    (forall k, body !! k = Some Str.QUOTE ->
               exists j, k = S j /\ body !! j = Some 92%N).
Proof.
  exists (flat_map Json.escape_char s).
  split; [reflexivity|]. split; [|split].
  - induction s as [|c s IH]; [constructor|].
    cbn [flat_map]. apply Forall_app. split; [apply escape_char_printable|exact IH].
  - induction s as [|c s IH]; [reflexivity|].
    cbn [flat_map length]. rewrite length_app.
    destruct (escape_char_printable c) as [_ Hne].
    destruct (Json.escape_char c); [congruence|cbn [length]; lia].
  - induction s as [|c s IH]; intros k Hk; [cbn in Hk; discriminate|].
    cbn [flat_map] in Hk.
    destruct (decide (k < length (Json.escape_char c))%nat) as [Hlt|Hge].
    + rewrite lookup_app_l in Hk by exact Hlt.
      destruct (escape_char_quote c k Hk) as (j & -> & Hj).
      exists j. split; [reflexivity|].
      cbn [flat_map]. rewrite lookup_app_l; [exact Hj|].
      apply lookup_lt_Some in Hj. exact Hj.
    + rewrite lookup_app_r in Hk by lia.
      destruct (IH _ Hk) as (j & Hkj & Hj).
      exists (length (Json.escape_char c) + j)%nat. split; [lia|].
      cbn [flat_map]. rewrite lookup_app_r by lia.
      replace (length (Json.escape_char c) + j - length (Json.escape_char c))%nat
        with j by lia.
      exact Hj.
Qed.

(** ** Coverage is the largest end seen *)

(** Of two numbers, one is at most the other. *)
Lemma ltb_false_leb x y :
  Float.is_nan x = false -> Float.is_nan y = false ->
  Float.ltb x y = false -> Float.leb y x = true.
Proof.
  unfold Float.ltb, Float.leb, SFltb, SFleb.
  destruct x as [sx|[|]| |[|] mx ex], y as [sy|[|]| |[|] my ey]; cbn;
    intros Hx Hy H; try reflexivity; try discriminate;
    change (Pos.compare_cont Eq mx my) with (mx ?= my)%positive in *;
    change (Pos.compare_cont Eq my mx) with (my ?= mx)%positive in *;
    destruct (Z.compare_spec ex ey), (Z.compare_spec ey ex);
    try (exfalso; lia); cbn in *; try reflexivity; try discriminate;
    destruct (Pos.compare_spec mx my), (Pos.compare_spec my mx);
    try (exfalso; lia); cbn in *; try reflexivity; discriminate.
Qed.

Lemma max_ge_right a b :
  Float.is_nan a = false -> Float.is_nan b = false ->
  Float.leb b (Float.max a b) = true.
Proof.
  intros Ha Hb. unfold Float.max. destruct (Float.ltb a b) eqn:Hlt.
  - apply FloatOrder.leb_refl. exact Hb.
  - apply ltb_false_leb; assumption.
Qed.

Lemma covered_from_ge c segs :
  Float.is_nan c = false -> Float.leb c (covered_from c segs) = true.
Proof.
  revert c. induction segs as [|seg segs IH]; intros c Hc.
  - apply FloatOrder.leb_refl. exact Hc.
  - cbn. eapply FloatOrder.leb_trans; [apply FloatOrder.max_ge; exact Hc|].
    apply IH. apply FloatOrder.max_not_nan. exact Hc.
Qed.

Lemma covered_from_bounds c segs :
  Float.is_nan c = false ->
  (covered_from c segs = c \/
   exists seg, In seg segs /\ covered_from c segs = end_ seg) /\
  (forall seg, In seg segs -> Float.is_nan (end_ seg) = false ->
               Float.leb (end_ seg) (covered_from c segs) = true).
Proof.
  revert c. induction segs as [|seg segs IH]; intros c Hc.
  - split; [left; reflexivity|intros seg []].
  - pose proof (FloatOrder.max_not_nan c (end_ seg) Hc) as Hm.
    destruct (IH _ Hm) as [Hval Hub]. cbn [covered_from fold_left] in *.
    fold (covered_from (Float.max c (end_ seg)) segs) in *. split.
    + destruct Hval as [Hval|(s & Hin & Hval)].
      * rewrite Hval. unfold Float.max. destruct (Float.ltb c (end_ seg));
          [right; exists seg; split; [left; reflexivity|reflexivity]|left; reflexivity].
      * right. exists s. split; [right; exact Hin|exact Hval].
    + intros s [<-|Hin] Hs.
      * apply (FloatOrder.leb_trans _ (Float.max c (end_ seg)));
          [apply max_ge_right; assumption|].
        apply covered_from_ge. exact Hm.
      * apply Hub; assumption.
Qed.

(** The coverage after any run of segments is 0.0 or the [end] of one
    of them, is never negative and never NaN, and is at least every
    [end] that is a number: it is the largest end seen so far, NaN
    ends being ignored. *)
Theorem coverage_is_largest_end (segs : list Segment) :
  (covered segs = Float.zero \/
   exists seg, In seg segs /\ covered segs = end_ seg) /\
  Float.leb Float.zero (covered segs) = true /\
  Float.is_nan (covered segs) = false /\
  (forall seg, In seg segs -> Float.is_nan (end_ seg) = false ->
               Float.leb (end_ seg) (covered segs) = true).
Proof.
  destruct (covered_from_bounds Float.zero segs eq_refl) as [Hval Hub].
  split; [exact Hval|]. split; [apply covered_from_ge; reflexivity|].
  split; [apply covered_from_not_nan; reflexivity|exact Hub].
Qed.

(** ** With and without the progress bar *)

(** The two loops of [main] collect the same segments in the same
    order and end the same way; neither touches a file; the loop
    without the bar leaves no trace, and the loop with the bar adds
    one progress update per segment the stream yielded. *)
Theorem progress_bar_collects_same (segments : Stream) (w : World) :
  let '(w1, r1) := drain_progress segments [] Float.zero w in
  let '(w2, r2) := drain segments [] w in
  w2 = w /\ fs w1 = fs w /\
  (exists updates, trace w1 = trace w ++ List.map EvProgress updates /\
                   length updates = length (yielded segments)) /\
  r2 = match r1 with
       | Ok (segs, _) => Ok segs
       | Raise e => Raise e
       end /\
  (r2 = Ok (yielded segments) \/ r2 = Raise ModelError) /\
  (exhausted segments = true <-> r2 = Ok (yielded segments)).
Proof.
  rewrite drain_progress_run, drain_run. cbn [app].
  split; [reflexivity|]. split; [reflexivity|]. split; [|split; [|split]].
  - exists (List.map (increment (yielded segments)) (seq 0 (length (yielded segments)))).
    cbn [trace]. rewrite updates_from_increments, map_map.
    split; [reflexivity|]. rewrite length_map, length_seq. reflexivity.
  - destruct (exhausted segments); reflexivity.
  - destruct (exhausted segments); [left|right]; reflexivity.
  - destruct (exhausted segments); split; congruence.
Qed.

(** ** Trimming *)

Lemma lstrip_split s :
  exists lead, s = lead ++ Str.lstrip s /\ forallb Str.isspace lead = true.
Proof.
  induction s as [|c s (lead & Hs & Hl)]; [exists []; split; reflexivity|].
  cbn [Str.lstrip]. destruct (Str.isspace c) eqn:Hc.
  - exists (c :: lead). cbn. rewrite Hc, Hl. split; [f_equal; exact Hs|reflexivity].
  - exists []. split; reflexivity.
Qed.

Lemma lstrip_fixed s :
  match s with
  | [] => True
  | c :: _ => Str.isspace c = false
  end -> Str.lstrip s = s.
Proof. destruct s as [|c s]; [reflexivity|]. cbn. intros ->. reflexivity. Qed.

(** [strip] removes a run of whitespace at each end and nothing else:
    the text is the removed head, the trimmed text and the removed
    tail; the trimmed text, when not empty, begins and ends with a
    character that is not whitespace; trimming twice changes nothing. *)
Theorem strip_shape (s : pystr) :
  (exists lead trail,
     s = lead ++ Str.strip s ++ trail /\
     forallb Str.isspace lead = true /\
     forallb Str.isspace trail = true) /\
  (Str.strip s = [] \/
   exists first body last_,
     (Str.strip s = [first] \/ Str.strip s = first :: body ++ [last_]) /\
     Str.isspace first = false /\ Str.isspace last_ = false) /\
  Str.strip (Str.strip s) = Str.strip s.
Proof.
  destruct (lstrip_split s) as (lead & Hs & Hlead).
  destruct (lstrip_split (rev (Str.lstrip s))) as (rtrail & Hr & Htrail).
  assert (Str.lstrip s = Str.strip s ++ rev rtrail) as Hmid.
  { unfold Str.strip, Str.rstrip.
    rewrite <- (rev_involutive (Str.lstrip s)) at 1.
    rewrite Hr at 1. apply rev_app_distr. }
  assert (match Str.strip s with
          | [] => True
          | c :: _ => Str.isspace c = false
          end) as Hfirst.
  { destruct (Str.strip s) as [|c r] eqn:Hst; [exact I|].
    destruct (Str.lstrip s) as [|c' r'] eqn:Hl.
    - destruct (rev rtrail); discriminate Hmid.
    - injection Hmid as -> _. exact (StripFacts.lstrip_head _ _ _ Hl). }
  assert (match rev (Str.strip s) with
          | [] => True
          | c :: _ => Str.isspace c = false
          end) as Hlast.
  { unfold Str.strip, Str.rstrip. rewrite rev_involutive.
    destruct (Str.lstrip (rev (Str.lstrip s))) as [|c r] eqn:Hl; [exact I|].
    exact (StripFacts.lstrip_head _ _ _ Hl). }
  split; [|split].
  - exists lead, (rev rtrail). split; [rewrite <- Hmid; exact Hs|].
    split; [exact Hlead|]. rewrite StripFacts.forallb_rev. exact Htrail.
  - destruct (Str.strip s) as [|c r] eqn:Hst; [left; reflexivity|right].
    destruct (rev (c :: r)) as [|l rr] eqn:Hrev.
    + apply (f_equal (@rev N)) in Hrev. rewrite rev_involutive in Hrev.
      discriminate Hrev.
    + apply (f_equal (@rev N)) in Hrev. rewrite rev_involutive in Hrev.
      cbn [rev] in Hrev.
      destruct (rev rr) as [|c' body] eqn:Hb.
      * injection Hrev as -> ->. exists l, [], l.
        split; [left; reflexivity|]. split; assumption.
      * injection Hrev as -> ->. exists c', body, l.
        split; [right; reflexivity|]. split; assumption.
  - unfold Str.strip at 1. rewrite (lstrip_fixed _ Hfirst).
    unfold Str.rstrip. rewrite (lstrip_fixed _ Hlast). apply rev_involutive.
Qed.

(** ** Runs and files *)

Lemma output_path_is_input input sfx :
  PurePath.name input <> [] ->
  output_path input sfx = input -> PurePath.suffix input = sfx.
Proof.
  intros Hname Heq. apply (f_equal PurePath.name) in Heq.
  rewrite output_path_name in Heq.
  rewrite (PathFacts.name_stem_suffix (PurePath.name input)) in Heq.
  apply app_inv_head in Heq. symmetry. exact Heq.
Qed.


Section RunsOnFiles.

Variable ffmpeg :
  list pystr -> gmap Path pystr -> option (gmap Path pystr * bool).
Variable load_model : pystr -> bool.
Variable recognise :
  pystr -> option pystr -> option pystr -> option (Stream * TranscriptionInfo).
Variable io_fault : Path -> pystr -> bool.
Variable io_failure : Path -> pystr -> WriteFault.
Variable float_repr : pyfloat -> pystr.

#[local] Abbreviation run_on := (main ffmpeg load_model recognise io_fault io_failure float_repr).


(** Whatever the outcome of a run, an input whose suffix is none of
    [.txt], [.srt], [.json] holds at the end what the decoder left
    there: the program itself never writes to it. *)
Theorem input_kept_unless_artifact_suffix (args : Args) (w : World)
    (fs1 : gmap Path pystr) (ok : bool) :
  let input := audio args in
  let wav := output_path input (Str.lit ".16k_mono.wav") in
  is_Some (fs w !! input) ->
  PurePath.name input <> [] ->
  ffmpeg (ffmpeg_cmd input wav) (fs w) = Some (fs1, ok) ->
  PurePath.suffix input <> Str.lit ".txt" ->
  PurePath.suffix input <> Str.lit ".srt" ->
  PurePath.suffix input <> Str.lit ".json" ->
  fs (fst (run_on args w)) !! input = fs1 !! input.
Proof.
  cbv zeta. intros [content Hin] Hname Hff Htxt Hsrt Hjson.
  rewrite main_run, Hin.
  rewrite with_suffix_output by (reflexivity || exact Hname).
  cbv zeta. rewrite Hff. destruct ok; [|reflexivity].
  destruct (load_model (model args)); [|reflexivity].
  destruct (recognise (model args) _ (language args)) as [[segments info]|];
    [|reflexivity].
  destruct (exhausted segments); [|reflexivity].
  rewrite export_fs_frame; [reflexivity|exact Hname|..];
    intros Heq; symmetry in Heq;
    apply (output_path_is_input _ _ Hname) in Heq; congruence.
Qed.

End RunsOnFiles.


Lemma input_kept_unless_artifact_suffix_witness :
  fs (fst (main Scenario.ffmpeg Scenario.load_model Scenario.recognise
             Scenario.io_fault Scenario.io_failure Scenario.float_repr Scenario.args Scenario.world))
  !! Scenario.input = Some [1; 2; 3]%N.
Proof.
  etransitivity;
    [apply (input_kept_unless_artifact_suffix Scenario.ffmpeg Scenario.load_model
              Scenario.recognise Scenario.io_fault Scenario.io_failure Scenario.float_repr
              Scenario.args Scenario.world
              (<[Scenario.wav := [82; 73]%N]> Scenario.files) true)|].
  - exists [1; 2; 3]%N. vm_compute. reflexivity.
  - discriminate.
  - reflexivity.
  - discriminate.
  - discriminate.
  - discriminate.
  - vm_compute. reflexivity.
Defined.

(** * Screen capture loop: properties *)

(** ** Fixed-width decimal fields *)

Module WidthFacts.
Import Str.

Lemma digits_aux_length_le fuel : forall n acc k,
  (1 <= k)%nat -> (n < 10 ^ N.of_nat k)%N ->
  (length (digits_aux fuel n acc) <= length acc + k)%nat.
Proof.
  induction fuel as [|fuel IH]; intros n acc k Hk Hn; [cbn; lia|].
  cbn [digits_aux]. destruct (N.ltb_spec n 10) as [Hlt|Hge]; [cbn [length]; lia|].
  destruct k as [|[|k]]; [lia| |].
  - change (10 ^ N.of_nat 1)%N with 10%N in Hn. lia.
  - etransitivity; [apply (IH _ _ (S k)); [lia|]|cbn [length]; lia].
    rewrite Nat2N.inj_succ, N.pow_succ_r' in Hn.
    apply N.Div0.div_lt_upper_bound. exact Hn.
Qed.

Lemma digits_length_le n k :
  (1 <= k)%nat -> (n < 10 ^ N.of_nat k)%N -> (length (digits n) <= k)%nat.
Proof. intros Hk Hn. apply (digits_aux_length_le _ n [] k Hk Hn). Qed.

(** A number below [10^w] fills exactly [w] characters. *)
Lemma format_0d_width w z :
  (1 <= w)%nat -> 0 <= z < 10 ^ Z.of_nat w -> length (format_0d w z) = w.
Proof.
  intros Hw Hz. rewrite StrFacts.format_0d_length by lia.
  assert (length (digits (Z.to_N z)) <= w)%nat; [|lia].
  apply digits_length_le; [exact Hw|].
  assert (Z.of_N (Z.to_N z) < Z.of_N (10 ^ N.of_nat w)); [|lia].
  rewrite Z2N.id, N2Z.inj_pow, nat_N_Z by lia. cbn. lia.
Qed.

Lemma to_N_acc_shift s : forall a,
  to_N_acc a s = (a * 10 ^ N.of_nat (length s) + to_N_acc 0 s)%N.
Proof.
  induction s as [|c s IH]; intros a.
  - cbn. lia.
  - rewrite !StrFacts.to_N_acc_cons. rewrite IH. rewrite (IH (10 * 0 + (c - 48))%N).
    cbn [length]. rewrite Nat2N.inj_succ, N.pow_succ_r'. lia.
Qed.

Lemma to_N_bound s :
  Forall (fun c => isdigit c = true) s ->
  (to_N s < 10 ^ N.of_nat (length s))%N.
Proof.
  unfold to_N. induction 1 as [|c s Hc Hs IH]; [cbn; lia|].
  rewrite StrFacts.to_N_acc_cons, to_N_acc_shift.
  cbn [length]. rewrite Nat2N.inj_succ, N.pow_succ_r'.
  unfold isdigit in Hc. apply andb_true_iff in Hc as [H1 H2].
  apply N.leb_le in H1, H2.
  assert (10 * 0 + (c - 48) <= 9)%N as Hd by lia.
  nia.
Qed.

(** Between two runs of digits of the same length, the order of the
    strings is the order of the numbers. *)
Lemma digits_order s1 : forall s2,
  length s1 = length s2 ->
  Forall (fun c => isdigit c = true) s1 ->
  Forall (fun c => isdigit c = true) s2 ->
  (to_N s1 < to_N s2)%N -> str_ltb s1 s2 = true.
Proof.
  induction s1 as [|c1 s1 IH]; intros [|c2 s2] Hlen H1 H2 Hlt;
    try discriminate Hlen.
  - cbn in Hlt. lia.
  - injection Hlen as Hlen.
    inversion H1 as [|? ? Hc1 Hs1]; inversion H2 as [|? ? Hc2 Hs2]; subst.
    cbn [str_ltb]. destruct (N.ltb_spec c1 c2) as [|Hge]; [reflexivity|].
    pose proof (to_N_bound s1 Hs1) as B1. pose proof (to_N_bound s2 Hs2) as B2.
    unfold to_N in *. rewrite !StrFacts.to_N_acc_cons in Hlt.
    rewrite (to_N_acc_shift s1), (to_N_acc_shift s2) in Hlt.
    rewrite <- Hlen in *.
    unfold isdigit in Hc1, Hc2.
    apply andb_true_iff in Hc1 as [L1 U1]. apply andb_true_iff in Hc2 as [L2 U2].
    apply N.leb_le in L1, U1, L2, U2.
    destruct (N.eqb_spec c1 c2) as [->|Hne].
    + apply IH; try assumption. unfold to_N. lia.
    + exfalso. assert (c2 + 1 <= c1)%N as Hgt by lia.
      set (p := (10 ^ N.of_nat (length s1))%N) in *.
      assert ((10 * 0 + (c2 - 48) + 1) * p <= (10 * 0 + (c1 - 48)) * p)%N
        by (apply N.mul_le_mono_r; lia).
      nia.
Qed.

Lemma format_0d_order w a b :
  (1 <= w)%nat -> 0 <= a -> a < b -> b < 10 ^ Z.of_nat w ->
  str_ltb (format_0d w a) (format_0d w b) = true.
Proof.
  intros Hw Ha Hab Hb.
  destruct (StrFacts.format_0d_decimal w a ltac:(lia)) as [Da Va].
  destruct (StrFacts.format_0d_decimal w b ltac:(lia)) as [Db Vb].
  apply digits_order; try assumption; [|lia].
  rewrite !format_0d_width by lia. reflexivity.
Qed.

Lemma str_ltb_app_same p : forall a b, str_ltb (p ++ a) (p ++ b) = str_ltb a b.
Proof.
  induction p as [|c p IH]; intros a b; [reflexivity|].
  cbn [app str_ltb]. rewrite N.ltb_irrefl, N.eqb_refl. apply IH.
Qed.

Lemma str_ltb_app_lt a : forall a' x x',
  length a = length a' -> str_ltb a a' = true ->
  str_ltb (a ++ x) (a' ++ x') = true.
Proof.
  induction a as [|c a IH]; intros [|c' a'] x x' Hlen Hlt;
    try discriminate Hlen; [discriminate Hlt|].
  injection Hlen as Hlen. cbn [app str_ltb] in *.
  destruct (c <? c')%N; [reflexivity|].
  destruct (c =? c')%N; [|discriminate Hlt]. apply IH; assumption.
Qed.

Lemma str_ltb_irrefl a : str_ltb a a = false.
Proof.
  induction a as [|c a IH]; [reflexivity|].
  cbn. rewrite N.ltb_irrefl, N.eqb_refl. exact IH.
Qed.

Lemma str_ltb_asym a : forall b, str_ltb a b = true -> str_ltb b a = false.
Proof.
  induction a as [|c a IH]; intros [|c' b] H; try reflexivity; try discriminate H.
  cbn [str_ltb] in *.
  destruct (N.lt_trichotomy c c') as [Hlt|[->|Hgt]].
  - replace (c' <? c)%N with false by (symmetry; apply N.ltb_ge; lia).
    replace (c' =? c)%N with false by (symmetry; apply N.eqb_neq; lia).
    reflexivity.
  - rewrite N.ltb_irrefl, N.eqb_refl in *. apply IH. exact H.
  - replace (c <? c')%N with false in H by (symmetry; apply N.ltb_ge; lia).
    replace (c =? c')%N with false in H by (symmetry; apply N.eqb_neq; lia).
    discriminate H.
Qed.

(** One field of a stamp: a smaller value, or the same value and a
    smaller rest, gives a smaller string. *)
Lemma field_order w a a' rest rest' :
  (1 <= w)%nat -> 0 <= a < 10 ^ Z.of_nat w -> 0 <= a' < 10 ^ Z.of_nat w ->
  a < a' \/ (a = a' /\ str_ltb rest rest' = true) ->
  str_ltb (format_0d w a ++ rest) (format_0d w a' ++ rest') = true.
Proof.
  intros Hw Ha Ha' [Hlt|[-> Hrest]].
  - apply str_ltb_app_lt; [rewrite !format_0d_width by lia; reflexivity|].
    apply format_0d_order; lia.
  - rewrite str_ltb_app_same. exact Hrest.
Qed.

End WidthFacts.

(** ** File names of the screenshots *)

Module NameFacts.
Import Screenbot.

(** From 1000 on, a year written without padding has its four digits
    or more. *)
Lemma of_int_four_digits y : 1000 <= y -> Str.of_int y = Str.format_0d 4 y.
Proof.
  intros Hy. rewrite StrFacts.format_0d_nonneg by lia.
  unfold Str.of_int. destruct (Z.ltb_spec y 0); [lia|].
  replace (Z.abs_N y) with (Z.to_N y) by (destruct y; try reflexivity; lia).
  assert (4 <= length (Str.digits (Z.to_N y)))%nat as Hlen.
  { destruct (Nat.le_gt_cases 4 (length (Str.digits (Z.to_N y)))) as [Hge|Hlt];
      [exact Hge|exfalso].
    pose proof (WidthFacts.to_N_bound _ (StrFacts.digits_isdigit (Z.to_N y))) as B.
    rewrite StrFacts.digits_value in B.
    assert (10 ^ N.of_nat (length (Str.digits (Z.to_N y))) <= 10 ^ 3)%N as P
      by (apply N.pow_le_mono_r; lia).
    change (10 ^ 3)%N with 1000%N in P. lia. }
  replace (4 - length (Str.digits (Z.to_N y)))%nat with 0%nat by lia.
  reflexivity.
Qed.

Lemma name_form d c :
  1000 <= year d ->
  timestamp_name d c
  = Str.format_0d 4 (year d) ++ Str.format_0d 2 (month d)
    ++ Str.format_0d 2 (day d) ++ Str.lit "_"
    ++ Str.format_0d 2 (hour d) ++ Str.format_0d 2 (minute d)
    ++ Str.format_0d 2 (second d) ++ Str.lit "_"
    ++ Str.format_0d 3 (microsecond d / 1000) ++ Str.lit "_"
    ++ Str.format_0d 6 c ++ Str.lit ".png".
Proof.
  intros Hy. unfold timestamp_name, strftime_Ymd_HMS.
  rewrite of_int_four_digits by exact Hy.
  rewrite <- !app_assoc. reflexivity.
Qed.

(** Whatever the width of the year, a name ends with the counter on
    six digits and the extension: equal names have equal counters. *)
Lemma name_counter_inj d1 c1 d2 c2 :
  0 <= c1 < 1000000 -> 0 <= c2 < 1000000 ->
  timestamp_name d1 c1 = timestamp_name d2 c2 -> c1 = c2.
Proof.
  intros Hc1 Hc2. unfold timestamp_name. cbv zeta.
  rewrite !(app_assoc (strftime_Ymd_HMS _)).
  rewrite !(app_assoc (_ ++ Str.lit "_")).
  rewrite !(app_assoc (_ ++ Str.format_0d 3 _)).
  intros Heq. apply app_inj_2 in Heq as [_ Heq].
  - apply app_inv_tail in Heq.
    destruct (StrFacts.format_0d_decimal 6 c1 ltac:(lia)) as [_ V1].
    destruct (StrFacts.format_0d_decimal 6 c2 ltac:(lia)) as [_ V2].
    rewrite Heq in V1. lia.
  - rewrite !length_app, !WidthFacts.format_0d_width by (try (cbn; lia); lia).
    reflexivity.
Qed.

Lemma millis_range d :
  valid_datetime d -> 0 <= microsecond d / 1000 <= 999.
Proof.
  intros (_ & _ & _ & _ & _ & _ & Hus).
  split; [apply Z.div_pos; lia|].
  apply Z.lt_succ_r, Z.div_lt_upper_bound; lia.
Qed.

Lemma lex_lt_total a : forall b,
  length a = length b -> lex_lt a b \/ a = b \/ lex_lt b a.
Proof.
  induction a as [|x a IH]; intros [|y b] Hlen; try discriminate Hlen.
  - right; left; reflexivity.
  - injection Hlen as Hlen. cbn [lex_lt].
    destruct (Z.lt_trichotomy x y) as [H|[->|H]]; [left; left; exact H| |right; right; left; exact H].
    destruct (IH b Hlen) as [H|[->|H]].
    + left. right. split; [reflexivity|exact H].
    + right. left. reflexivity.
    + right. right. right. split; [reflexivity|exact H].
Qed.

Lemma name_of_stamp d1 c1 d2 c2 :
  stamp d1 c1 = stamp d2 c2 -> timestamp_name d1 c1 = timestamp_name d2 c2.
Proof.
  unfold stamp. intros [= HY HM HD Hh Hm Hs Hms Hc].
  unfold timestamp_name, strftime_Ymd_HMS.
  rewrite HY, HM, HD, Hh, Hm, Hs, Hms, Hc. reflexivity.
Qed.

Lemma name_order d1 c1 d2 c2 :
  valid_datetime d1 -> valid_datetime d2 ->
  1000 <= year d1 -> 1000 <= year d2 ->
  0 <= c1 < 1000000 -> 0 <= c2 < 1000000 ->
  lex_lt (stamp d1 c1) (stamp d2 c2) ->
  str_ltb (timestamp_name d1 c1) (timestamp_name d2 c2) = true.
Proof.
  intros V1 V2 Y1 Y2 Hc1 Hc2 Hlt.
  pose proof (millis_range d1 V1) as Hm1. pose proof (millis_range d2 V2) as Hm2.
  destruct V1 as (HY1 & HM1 & HD1 & Hh1 & Hmi1 & Hs1 & _).
  destruct V2 as (HY2 & HM2 & HD2 & Hh2 & Hmi2 & Hs2 & _).
  rewrite !name_form by assumption. cbn [stamp lex_lt] in Hlt.
  repeat match goal with
         | Hlt : ?a < ?b \/ (?a = ?b /\ _)
           |- str_ltb (Str.format_0d ?w ?a ++ _) (Str.format_0d ?w ?b ++ _) = true =>
             apply WidthFacts.field_order;
             [lia | cbn; lia | cbn; lia |];
             destruct Hlt as [Hlt|[? Hlt]];
             [left; exact Hlt | right; split; [assumption|]]
         | |- str_ltb (Str.lit "_" ++ _) (Str.lit "_" ++ _) = true =>
             rewrite WidthFacts.str_ltb_app_same
         end.
  contradiction.
Qed.

End NameFacts.

(** From the year 1000 on and for counters below one million, the
    file names sort as time does: one name is before another, as
    strings, exactly when its date and time to the millisecond, then
    its counter, are; two names are equal exactly when those are; and
    every name has thirty characters. *)
Theorem timestamp_name_sortable (d1 d2 : Screenbot.datetime) (c1 c2 : Z) :
  Screenbot.valid_datetime d1 -> Screenbot.valid_datetime d2 ->
  1000 <= Screenbot.year d1 -> 1000 <= Screenbot.year d2 ->
  0 <= c1 < 1000000 -> 0 <= c2 < 1000000 ->
  (str_ltb (Screenbot.timestamp_name d1 c1) (Screenbot.timestamp_name d2 c2) = true
   <-> Screenbot.lex_lt (Screenbot.stamp d1 c1) (Screenbot.stamp d2 c2)) /\
  (Screenbot.timestamp_name d1 c1 = Screenbot.timestamp_name d2 c2
   <-> Screenbot.stamp d1 c1 = Screenbot.stamp d2 c2) /\
  length (Screenbot.timestamp_name d1 c1) = 30%nat.
Proof.
  intros V1 V2 Y1 Y2 Hc1 Hc2.
  assert (forall da ca db cb,
             Screenbot.valid_datetime da -> Screenbot.valid_datetime db ->
             1000 <= Screenbot.year da -> 1000 <= Screenbot.year db ->
             0 <= ca < 1000000 -> 0 <= cb < 1000000 ->
             Screenbot.timestamp_name da ca = Screenbot.timestamp_name db cb ->
             Screenbot.stamp da ca = Screenbot.stamp db cb) as Hinj.
  { intros da ca db cb Va Vb Ya Yb Hca Hcb Heq.
    destruct (NameFacts.lex_lt_total (Screenbot.stamp da ca) (Screenbot.stamp db cb)
                eq_refl) as [H|[H|H]]; [|exact H|].
    - apply (NameFacts.name_order _ _ _ _ Va Vb Ya Yb Hca Hcb) in H.
      rewrite Heq, WidthFacts.str_ltb_irrefl in H. discriminate H.
    - apply (NameFacts.name_order _ _ _ _ Vb Va Yb Ya Hcb Hca) in H.
      rewrite Heq, WidthFacts.str_ltb_irrefl in H. discriminate H. }
  split; [|split].
  - split; [|apply NameFacts.name_order; assumption].
    intros Hlt.
    destruct (NameFacts.lex_lt_total (Screenbot.stamp d1 c1) (Screenbot.stamp d2 c2)
                eq_refl) as [H|[H|H]]; [exact H| |].
    + apply NameFacts.name_of_stamp in H.
      rewrite H, WidthFacts.str_ltb_irrefl in Hlt. discriminate Hlt.
    + apply (NameFacts.name_order _ _ _ _ V2 V1 Y2 Y1 Hc2 Hc1) in H.
      apply WidthFacts.str_ltb_asym in H. congruence.
  - split; [apply Hinj; assumption|apply NameFacts.name_of_stamp].
  - pose proof (NameFacts.millis_range d1 V1) as Hm1.
    destruct V1 as (HY1 & HM1 & HD1 & Hh1 & Hmi1 & Hs1 & _).
    rewrite NameFacts.name_form, !length_app by exact Y1.
    rewrite !WidthFacts.format_0d_width by (try (cbn; lia); lia).
    reflexivity.
Qed.

Lemma timestamp_name_sortable_witness :
  Screenbot.timestamp_name (Screenbot.sample_now 0) 1
  = Str.lit "20260127_101530_123_000001.png" /\
  str_ltb (Screenbot.timestamp_name (Screenbot.sample_now 0) 1)
          (Screenbot.timestamp_name (Screenbot.sample_now 1) 2) = true.
Proof.
  split; [vm_compute; reflexivity|].
  apply (timestamp_name_sortable (Screenbot.sample_now 0) (Screenbot.sample_now 1) 1 2);
    try (unfold Screenbot.valid_datetime; cbn; lia); lia.
Defined.

(** Before the year 1000 the year has fewer than four characters and
    the order is lost: a name of the last second of 999 has 29
    characters and sorts after a name of the first second of 1000. *)
Example timestamp_name_before_year_1000 :
  Screenbot.timestamp_name Screenbot.year_999 0
  = Str.lit "9991231_235959_999_000000.png" /\
  length (Screenbot.timestamp_name Screenbot.year_999 0) = 29%nat /\
  str_ltb (Screenbot.timestamp_name Screenbot.year_1000 1)
          (Screenbot.timestamp_name Screenbot.year_999 0) = true.
Proof. vm_compute. repeat split; reflexivity. Qed.

(** Past 999999 the counter needs a seventh digit and the order is
    lost: at the same instant, shot 1000000 sorts before shot 999999. *)
Example timestamp_name_past_six_digits :
  str_ltb (Screenbot.timestamp_name (Screenbot.sample_now 0) 1000000)
          (Screenbot.timestamp_name (Screenbot.sample_now 0) 999999) = true.
Proof. vm_compute. reflexivity. Qed.

(** ** The capture loop *)

Section LoopFacts.
Import Screenbot.

Variable cfg : Config.
Variable clock : nat -> pyfloat.
Variable now : Z -> datetime.
Variable grab_ok save_ok click_ok : Z -> bool.

#[local] Abbreviation run_loop := (loop cfg clock now grab_ok save_ok click_ok).
#[local] Abbreviation run_bot := (Screenbot.main cfg clock now grab_ok save_ok click_ok).

Lemma main_unfold fuel interval :
  run_bot fuel interval
  = match run_loop fuel (clock 0) false false 0 1%nat (header cfg interval) with
    | (done, Done counter) => (done ++ footer counter, Done counter)
    | r => r
    end.
Proof. reflexivity. Qed.

(** Shots that go well, one after the other, until the count is
    reached. *)
Lemma loop_shots (n : Z) :
  MAX_SHOTS cfg = Some n -> MAX_SECONDS cfg = None ->
  forall (r fuel : nat) t0 counter ticks done,
    counter = n - Z.of_nat r ->
    (r < fuel)%nat ->
    (forall k, counter <= k < n ->
               grab_ok k = true /\ save_ok k = true /\ click_ok k = true) ->
    run_loop fuel t0 false false counter ticks done
    = (done ++ shots cfg clock now r counter ticks
            ++ [Say (Str.LF :: Str.lit "Stopping: reached MAX_SHOTS.")],
       Done n).
Proof.
  intros Hshots Hsecs. induction r as [|r IH];
    intros fuel t0 counter ticks done Hc Hfuel Hok.
  - destruct fuel as [|fuel]; [lia|].
    cbn [loop shots app]. rewrite Hshots, Hsecs.
    replace (n <=? counter) with true by (symmetry; apply Z.leb_le; lia).
    replace counter with n by lia. reflexivity.
  - destruct fuel as [|fuel]; [lia|].
    cbn [loop]. rewrite Hshots, Hsecs.
    replace (n <=? counter) with false by (symmetry; apply Z.leb_gt; lia).
    destruct (Hok counter ltac:(lia)) as (Hg & Hs & Hcl).
    rewrite Hg, Hs, Hcl. cbn [negb].
    rewrite (IH fuel) by (try lia; intros k Hk; apply Hok; lia).
    cbn [shots shot pause_after]. unfold pause_after.
    rewrite <- !app_assoc. reflexivity.
Qed.

(** When every grab, save and click goes well, [main] takes exactly
    [MAX_SHOTS] shots, numbered from 0, each one a grab of the region,
    a save under the stamped name, a click at the fixed point and a
    pause; then it says why it stops and how many shots it took. *)
Theorem capture_loop_reaches_max_shots (n : Z) (fuel : nat) (interval : pystr) :
  MAX_SHOTS cfg = Some n -> MAX_SECONDS cfg = None ->
  0 <= n -> (Z.to_nat n < fuel)%nat ->
  (forall k, 0 <= k < n ->
             grab_ok k = true /\ save_ok k = true /\ click_ok k = true) ->
  run_bot fuel interval
  = (header cfg interval
     ++ shots cfg clock now (Z.to_nat n) 0 1
     ++ [Say (Str.LF :: Str.lit "Stopping: reached MAX_SHOTS.")]
     ++ footer n,
     Done n) /\
  length (List.filter is_click (fst (run_bot fuel interval))) = Z.to_nat n /\
  length (List.filter is_save_action (fst (run_bot fuel interval))) = Z.to_nat n.
Proof.
  intros Hshots Hsecs Hn Hfuel Hok.
  assert (run_bot fuel interval
          = (header cfg interval
             ++ shots cfg clock now (Z.to_nat n) 0 1
             ++ [Say (Str.LF :: Str.lit "Stopping: reached MAX_SHOTS.")]
             ++ footer n, Done n)) as Hrun.
  { rewrite main_unfold.
    rewrite (loop_shots n Hshots Hsecs (Z.to_nat n)) by (lia || exact Hok).
    rewrite <- !app_assoc. reflexivity. }
  split; [exact Hrun|]. rewrite Hrun. cbn [fst].
  assert (forall r c t,
             length (List.filter is_click (shots cfg clock now r c t)) = r /\
             length (List.filter is_save_action (shots cfg clock now r c t)) = r)
    as Hcount.
  { induction r as [|r IH]; intros c t; [split; reflexivity|].
    destruct (IH (c + 1) (S (S t))) as [H1 H2].
    cbn [shots shot app List.filter is_click is_save_action length].
    rewrite H1, H2. split; reflexivity. }
  rewrite !List.filter_app, !length_app.
  destruct (Hcount (Z.to_nat n) 0 1%nat) as [-> ->].
  cbn [header footer List.filter is_click is_save_action length].
  split; lia.
Qed.

(** The fail-safe: when the click of shot [j] raises, the run ends
    there with that exception, after [j] full shots and the grab, the
    save and the click of shot [j]; no pause follows and nothing more
    is printed. *)
Theorem capture_loop_failsafe (n j : Z) (fuel : nat) (interval : pystr) :
  MAX_SHOTS cfg = Some n -> MAX_SECONDS cfg = None ->
  0 <= j < n -> (Z.to_nat j < fuel)%nat ->
  (forall k, 0 <= k < j ->
             grab_ok k = true /\ save_ok k = true /\ click_ok k = true) ->
  grab_ok j = true -> save_ok j = true -> click_ok j = false ->
  run_bot fuel interval
  = (header cfg interval
     ++ shots cfg clock now (Z.to_nat j) 0 1
     ++ [Grab (REGION cfg);
         SavePng (PurePath.to_str (OUT_DIR cfg ++ [timestamp_name (now j) j]));
         Click (CLICK_X cfg) (CLICK_Y cfg)],
     Aborted FailSafeException).
Proof.
  intros Hshots Hsecs Hj Hfuel Hok Hg Hs Hcl.
  rewrite main_unfold.
  assert (forall (r fuel : nat) t0 counter ticks done,
             counter = j - Z.of_nat r -> (r < fuel)%nat ->
             (forall k, counter <= k < j ->
                        grab_ok k = true /\ save_ok k = true /\ click_ok k = true) ->
             run_loop fuel t0 false false counter ticks done
             = (done ++ shots cfg clock now r counter ticks
                  ++ [Grab (REGION cfg);
                      SavePng (PurePath.to_str
                                 (OUT_DIR cfg ++ [timestamp_name (now j) j]));
                      Click (CLICK_X cfg) (CLICK_Y cfg)],
                Aborted FailSafeException)) as Hloop.
  { clear Hfuel fuel. induction r as [|r IH];
      intros fuel t0 counter ticks done Hc Hfuel Hok'.
    - destruct fuel as [|fuel]; [lia|].
      assert (counter = j) as -> by lia.
      cbn [loop shots app]. rewrite Hshots, Hsecs.
      replace (n <=? j) with false by (symmetry; apply Z.leb_gt; lia).
      rewrite Hg, Hs, Hcl. cbn [negb]. rewrite <- !app_assoc. reflexivity.
    - destruct fuel as [|fuel]; [lia|].
      cbn [loop]. rewrite Hshots, Hsecs.
      replace (n <=? counter) with false by (symmetry; apply Z.leb_gt; lia).
      destruct (Hok' counter ltac:(lia)) as (Hg' & Hs' & Hcl').
      rewrite Hg', Hs', Hcl'. cbn [negb].
      rewrite (IH fuel) by (try lia; intros k Hk; apply Hok'; lia).
      cbn [shots shot]. unfold pause_after.
      rewrite <- !app_assoc. reflexivity. }
  rewrite (Hloop (Z.to_nat j)) by (lia || (intros k Hk; apply Hok; lia)).
  reflexivity.
Qed.

Lemma loop_bounded (n : Z) :
  MAX_SHOTS cfg = Some n ->
  forall (fuel : nat) t0 counter ticks done,
    0 <= counter <= n ->
    exists added,
      fst (run_loop fuel t0 false false counter ticks done) = done ++ added /\
      loop_bounds n counter added
        (snd (run_loop fuel t0 false false counter ticks done)) /\
      ((Z.to_nat (n - counter) < fuel)%nat ->
       snd (run_loop fuel t0 false false counter ticks done) <> StillRunning).
Proof.
  intros Hshots. unfold loop_bounds.
  induction fuel as [|fuel IH]; intros t0 counter ticks done Hc.
  - exists []. cbn. rewrite app_nil_r.
    split; [reflexivity|]. split; [|lia].
    split; [lia|]. split; [lia|]. split; [lia|]. split; [constructor|].
    intros c Hout. discriminate Hout.
  - cbn [loop]. rewrite Hshots.
    set (st := match MAX_SECONDS cfg with
               | Some limit =>
                   (Float.leb limit (Float.sub (clock ticks) t0), S ticks)
               | None => (false, ticks)
               end).
    destruct st as [[|] ticks'].
    { eexists [_]. cbn [fst snd]. split; [reflexivity|].
      cbn [List.filter is_grab is_click is_save_action length].
      split; [|discriminate].
      split; [lia|]. split; [lia|]. split; [lia|].
      split; [repeat constructor|]. intros c [= <-]. lia. }
    destruct (Z.leb_spec n counter) as [Hge|Hlt].
    { eexists [_]. cbn [fst snd]. split; [reflexivity|].
      cbn [List.filter is_grab is_click is_save_action length].
      split; [|discriminate].
      split; [lia|]. split; [lia|]. split; [lia|].
      split; [repeat constructor|]. intros c [= <-]. lia. }
    destruct (grab_ok counter); cbn [negb].
    2:{ eexists [_]. cbn [fst snd]. split; [reflexivity|].
        cbn [List.filter is_grab is_click is_save_action length].
        split; [|discriminate].
        split; [lia|]. split; [lia|]. split; [lia|].
        split; [repeat constructor|]. intros c Hout. discriminate Hout. }
    destruct (save_ok counter); cbn [negb].
    2:{ eexists [_; _]. cbn [fst snd]. rewrite <- app_assoc.
        split; [reflexivity|].
        cbn [List.filter is_grab is_click is_save_action length].
        split; [|discriminate].
        split; [lia|]. split; [lia|]. split; [lia|].
        split; [repeat constructor|]. intros c Hout. discriminate Hout. }
    destruct (click_ok counter); cbn [negb].
    2:{ eexists [_; _; _]. cbn [fst snd]. rewrite <- !app_assoc.
        split; [reflexivity|].
        cbn [List.filter is_grab is_click is_save_action length].
        split; [|discriminate].
        split; [lia|]. split; [lia|]. split; [lia|].
        split; [repeat constructor|]. intros c Hout. discriminate Hout. }
    match goal with
    | |- context [run_loop fuel t0 false false (counter + 1) ?t ?d] =>
        destruct (IH t0 (counter + 1) t d ltac:(lia))
          as (added & Hadd & (Hg & Hcs & Hsg & Hsl & Hdone) & Hterm)
    end.
    eexists ([_; _; _; _] ++ added).
    split; [rewrite Hadd, <- !app_assoc; reflexivity|].
    rewrite !List.filter_app.
    cbn [List.filter is_grab is_click is_save_action length app].
    split; [|intros Hf; apply Hterm; lia].
    split; [lia|]. split; [lia|]. split; [lia|]. split.
    + repeat (constructor; [first [exact I | apply FloatOrder.max_zero_nonneg]|]).
      exact Hsl.
    + intros c Hout. destruct (Hdone c Hout) as [Hr Hn]. lia.
Qed.

(** Whatever the clock, the time limit and the failures of grabs,
    saves and clicks: with a shot limit [main] ends within as many
    loop turns plus one; it never grabs more than the limit; it never
    clicks without having saved, nor saves without having grabbed;
    every pause is a number that is not negative; and when it ends
    normally, the count it reports is the number of clicks, at most
    the limit. *)
Theorem capture_loop_bounded (n : Z) (fuel : nat) (interval : pystr) :
  MAX_SHOTS cfg = Some n -> 0 <= n ->
  exists added,
    fst (run_bot fuel interval) = header cfg interval ++ added /\
    (length (List.filter is_grab added) <= Z.to_nat n)%nat /\
    (length (List.filter is_click added)
     <= length (List.filter is_save_action added))%nat /\
    (length (List.filter is_save_action added)
     <= length (List.filter is_grab added))%nat /\
    Forall sleep_ok added /\
    ((Z.to_nat n < fuel)%nat -> snd (run_bot fuel interval) <> StillRunning) /\
    (forall c, snd (run_bot fuel interval) = Done c ->
               0 <= c <= n /\
               Z.of_nat (length (List.filter is_click added)) = c).
Proof.
  intros Hshots Hn. rewrite main_unfold.
  destruct (loop_bounded n Hshots fuel (clock 0) 0 1%nat (header cfg interval)
              ltac:(lia))
    as (added & Hadd & (Hg & Hcs & Hsg & Hsl & Hdone) & Hterm).
  rewrite Z.sub_0_r in *.
  destruct (run_loop fuel (clock 0) false false 0 1%nat (header cfg interval))
    as [done out] eqn:Hloop.
  cbn [fst snd] in *. subst done.
  destruct out as [c|f|].
  - exists (added ++ footer c). cbn [fst snd].
    rewrite !List.filter_app, !length_app.
    cbn [footer List.filter is_grab is_click is_save_action length].
    split; [rewrite <- app_assoc; reflexivity|].
    split; [lia|]. split; [lia|]. split; [lia|].
    split; [apply Forall_app; split; [exact Hsl|repeat constructor]|].
    split; [discriminate|].
    intros c' [= <-]. destruct (Hdone c eq_refl) as [Hr Hc]. lia.
  - exists added. cbn [fst snd].
    split; [reflexivity|]. split; [exact Hg|]. split; [exact Hcs|].
    split; [exact Hsg|]. split; [exact Hsl|]. split; [discriminate|].
    intros c Hout. discriminate Hout.
  - exists added. cbn [fst snd].
    split; [reflexivity|]. split; [exact Hg|]. split; [exact Hcs|].
    split; [exact Hsg|]. split; [exact Hsl|]. split; [exact Hterm|].
    intros c Hout. discriminate Hout.
Qed.

End LoopFacts.

Lemma capture_loop_reaches_max_shots_witness :
  snd (Screenbot.main (Screenbot.config Screenbot.sample_home)
         Screenbot.sample_clock Screenbot.sample_now
         Screenbot.always Screenbot.always Screenbot.always 91 (Str.lit "1.2"))
  = Screenbot.Done 90.
Proof.
  destruct (capture_loop_reaches_max_shots
              (Screenbot.config Screenbot.sample_home)
              Screenbot.sample_clock Screenbot.sample_now
              Screenbot.always Screenbot.always Screenbot.always
              90 91 (Str.lit "1.2")) as [Hrun _].
  - reflexivity.
  - reflexivity.
  - lia.
  - lia.
  - intros k Hk. repeat split.
  - rewrite Hrun. reflexivity.
Defined.

Lemma capture_loop_failsafe_witness :
  snd (Screenbot.main (Screenbot.config Screenbot.sample_home)
         Screenbot.sample_clock Screenbot.sample_now
         Screenbot.always Screenbot.always Screenbot.fails_at_two 91 (Str.lit "1.2"))
  = Screenbot.Aborted Screenbot.FailSafeException.
Proof.
  rewrite (capture_loop_failsafe
             (Screenbot.config Screenbot.sample_home)
             Screenbot.sample_clock Screenbot.sample_now
             Screenbot.always Screenbot.always Screenbot.fails_at_two
             90 2 91 (Str.lit "1.2")).
  - reflexivity.
  - reflexivity.
  - reflexivity.
  - lia.
  - lia.
  - intros k Hk. unfold Screenbot.always, Screenbot.fails_at_two.
    destruct (Z.eqb_spec k 2); [lia|]. repeat split.
  - reflexivity.
  - reflexivity.
  - reflexivity.
Defined.

Lemma capture_loop_bounded_witness :
  snd (Screenbot.main (Screenbot.config Screenbot.sample_home)
         Screenbot.sample_clock Screenbot.sample_now
         Screenbot.always Screenbot.always Screenbot.fails_at_two 91 (Str.lit "1.2"))
  <> Screenbot.StillRunning.
Proof.
  destruct (capture_loop_bounded
              (Screenbot.config Screenbot.sample_home)
              Screenbot.sample_clock Screenbot.sample_now
              Screenbot.always Screenbot.always Screenbot.fails_at_two
              90 91 (Str.lit "1.2") eq_refl ltac:(lia))
    as (added & _ & _ & _ & _ & _ & Hterm & _).
  apply Hterm. lia.
Defined.

(** ** Screenshots do not overwrite one another *)

Lemma join_snoc sep dir x :
  Str.join sep (dir ++ [x])
  = match dir with
    | [] => x
    | _ => Str.join sep dir ++ sep ++ x
    end.
Proof.
  induction dir as [|d dir IH]; [reflexivity|].
  destruct dir as [|d' dir]; [reflexivity|].
  change (Str.join sep ((d :: d' :: dir) ++ [x]))
    with (d ++ sep ++ Str.join sep ((d' :: dir) ++ [x])).
  rewrite IH.
  change (Str.join sep (d :: d' :: dir)) with (d ++ sep ++ Str.join sep (d' :: dir)).
  rewrite <- !app_assoc. reflexivity.
Qed.

Lemma to_str_snoc_inj dir a b :
  PurePath.to_str (dir ++ [a]) = PurePath.to_str (dir ++ [b]) -> a = b.
Proof.
  unfold PurePath.to_str. intros [= H]. rewrite !join_snoc in H.
  destruct dir; [exact H|].
  apply app_inv_head in H. apply app_inv_head in H. exact H.
Qed.

(** Two shots of a run are saved under different paths (counters below
    one million): the name carries the counter, so even two shots
    stamped with the same millisecond do not collide. *)
Theorem screenshot_paths_distinct (cfg : Screenbot.Config)
    (now : Z -> Screenbot.datetime) (j k : Z) :
  Screenbot.valid_datetime (now j) -> Screenbot.valid_datetime (now k) ->
  0 <= j < 1000000 -> 0 <= k < 1000000 ->
  j <> k ->
  Screenbot.shot_path cfg now j <> Screenbot.shot_path cfg now k.
Proof.
  intros Vj Vk Hj Hk Hne Heq. unfold Screenbot.shot_path in Heq.
  apply to_str_snoc_inj in Heq.
  apply NameFacts.name_counter_inj in Heq; [contradiction|exact Hj|exact Hk].
Qed.

Lemma screenshot_paths_distinct_witness :
  Screenbot.shot_path (Screenbot.config Screenbot.sample_home)
    Screenbot.sample_now 0
  <> Screenbot.shot_path (Screenbot.config Screenbot.sample_home)
       Screenbot.sample_now 89.
Proof.
  apply (screenshot_paths_distinct (Screenbot.config Screenbot.sample_home)
           Screenbot.sample_now 0 89);
    try (unfold Screenbot.valid_datetime; cbn; lia); lia.
Defined.
